(** * sqlean [fileio]: scalar functions over a modelled C library

    A shallow embedding of [src/fileio/scalar.c] (POSIX branch of every
    [#if]): [readFileContents], [makeParentDirectory], [makeDirectory],
    [createSymlink], [writeFile] and the SQL functions [readfile],
    [writefile], [mkdir], [symlink] and [lsmode].

    The C functions run in a state monad over a [world]: a file system,
    [errno], the process umask, the failures the environment has scheduled
    and the trace of library calls made so far.  The SQLite context is
    passed and returned explicitly. *)

From Stdlib Require Import ZArith String Ascii List Lia Bool.
From Stdlib Require Import Strings.Byte.
From stdpp Require Import gmap strings list pretty.

Local Open Scope string_scope.
Local Open Scope list_scope.
Local Open Scope Z_scope.

(** ** Constants of the system headers and of sqlite3.h *)

(** <sys/stat.h>, written in hexadecimal: 0170000, 0120000, 0100000, 0040000. *)
Definition S_IFMT : Z := 0xF000.
Definition S_IFLNK : Z := 0xA000.
Definition S_IFREG : Z := 0x8000.
Definition S_IFDIR : Z := 0x4000.

Definition S_ISLNK (m : Z) : bool := Z.land m S_IFMT =? S_IFLNK.
Definition S_ISREG (m : Z) : bool := Z.land m S_IFMT =? S_IFREG.
Definition S_ISDIR (m : Z) : bool := Z.land m S_IFMT =? S_IFDIR.

(** Octal permission constants of the source: 0777, 0666, 0755, 07777. *)
Definition o777 : Z := 511.
Definition o666 : Z := 438.
Definition o755 : Z := 493.
Definition o7777 : Z := 4095.

(** <errno.h> (Linux numbering). *)
Definition EPERM : Z := 1.
Definition ENOENT : Z := 2.
Definition EACCES : Z := 13.
Definition EFAULT : Z := 14.
Definition EEXIST : Z := 17.
Definition ENOTDIR : Z := 20.
Definition EISDIR : Z := 21.
Definition ELOOP : Z := 40.

(** sqlite3.h result codes. *)
Definition SQLITE_OK : Z := 0.
Definition SQLITE_ERROR : Z := 1.
Definition SQLITE_NOMEM : Z := 7.
Definition SQLITE_IOERR : Z := 10.
Definition SQLITE_TOOBIG : Z := 18.

(** ** SQL values and the result slot of a function call *)

(** An argument of an SQL function.  REAL values are left out. *)
Inductive sqlite3_value : Type :=
  | SqlNull
  | SqlInteger (i : Z)
  | SqlText (s : string)
  | SqlBlob (b : list byte).

(** A C string ends at its first NUL. *)
Fixpoint cstring (s : string) : string :=
  match s with
  | EmptyString => EmptyString
  | String c r => if Ascii.eqb c "000"%char then EmptyString else String c (cstring r)
  end.

Definition is_space (c : ascii) : bool :=
  let n := nat_of_ascii c in ((n =? 32) || ((9 <=? n) && (n <=? 13)))%nat.

Definition digit_of (c : ascii) : option Z :=
  let n := Z.of_nat (nat_of_ascii c) in
  if (48 <=? n) && (n <=? 57) then Some (n - 48) else None.

Fixpoint skip_spaces (s : string) : string :=
  match s with
  | EmptyString => s
  | String c r => if is_space c then skip_spaces r else s
  end.

Fixpoint digits_value (acc : Z) (s : string) : Z :=
  match s with
  | EmptyString => acc
  | String c r =>
      match digit_of c with
      | Some d => digits_value (10 * acc + d) r
      | None => acc
      end
  end.

Definition clamp64 (z : Z) : Z := Z.max (- 2 ^ 63) (Z.min (2 ^ 63 - 1) z).

(** SQLite's text-to-integer conversion: blanks, a sign, the leading digits;
    what follows is ignored and the value saturates at the 64-bit bounds. *)
Definition sqlite3Atoi64 (s : string) : Z :=
  match skip_spaces s with
  | String "-" r => clamp64 (- digits_value 0 r)
  | String "+" r => clamp64 (digits_value 0 r)
  | t => clamp64 (digits_value 0 t)
  end.

(** The cast [(int)] of a 64-bit value: the low 32 bits, signed. *)
Definition to_int32 (z : Z) : Z := (z + 2 ^ 31) mod 2 ^ 32 - 2 ^ 31.

(** The cast [(mode_t)]: the low 32 bits, unsigned. *)
Definition to_mode_t (z : Z) : Z := z mod 2 ^ 32.

Definition sqlite3_value_text (v : sqlite3_value) : option string :=
  match v with
  | SqlNull => None
  | SqlInteger i => Some (pretty i)
  | SqlText s => Some (cstring s)
  | SqlBlob b => Some (cstring (string_of_list_byte b))
  end.

Definition sqlite3_value_int64 (v : sqlite3_value) : Z :=
  match v with
  | SqlNull => 0
  | SqlInteger i => i
  | SqlText s => sqlite3Atoi64 s
  | SqlBlob b => sqlite3Atoi64 (string_of_list_byte b)
  end.

Definition sqlite3_value_int (v : sqlite3_value) : Z :=
  to_int32 (sqlite3_value_int64 v).

(** The bytes [sqlite3_value_blob] and [sqlite3_value_bytes] expose. *)
Definition value_bytes (v : sqlite3_value) : list byte :=
  match v with
  | SqlNull => []
  | SqlInteger i => list_byte_of_string (pretty i)
  | SqlText s => list_byte_of_string s
  | SqlBlob b => b
  end.

(** [sqlite3_value_blob] is the null pointer for NULL and for a value of
    length zero. *)
Definition sqlite3_value_blob (v : sqlite3_value) : option (list byte) :=
  match value_bytes v with
  | [] => None
  | b => Some b
  end.

Definition sqlite3_value_bytes (v : sqlite3_value) : Z :=
  Z.of_nat (length (value_bytes v)).

(** [argv[i]].  SQLite calls a function registered with a fixed arity with
    exactly that many values; past the end the model reads NULL. *)
Definition arg (i : nat) (argv : list sqlite3_value) : sqlite3_value :=
  nth i argv SqlNull.

Definition argc_of (argv : list sqlite3_value) : Z := Z.of_nat (length argv).

(** What a call leaves in its context: the initial NULL, a value, or one of
    the three ways the source raises an error. *)
Inductive sql_result : Type :=
  | ResNull
  | ResInt64 (n : Z)
  | ResText (s : string)
  | ResBlob (b : list byte)
  | ResError (msg : string)
  | ResErrorCode (rc : Z)
  | ResNomem.

Record sqlite3_context : Type := Context {
  ctx_result : sql_result;
  ctx_limit_length : Z  (* sqlite3_limit(db, SQLITE_LIMIT_LENGTH, -1) *)
}.

Definition set_result (ctx : sqlite3_context) (r : sql_result) : sqlite3_context :=
  {| ctx_result := r; ctx_limit_length := ctx_limit_length ctx |}.

Definition sqlite3_result_int64 ctx (n : Z) := set_result ctx (ResInt64 n).
Definition sqlite3_result_text ctx (z : string) := set_result ctx (ResText z).
Definition sqlite3_result_blob64 ctx (pBuf : list byte) (n : Z) :=
  set_result ctx (ResBlob (take (Z.to_nat n) pBuf)).
Definition sqlite3_result_error ctx (msg : string) := set_result ctx (ResError msg).
Definition sqlite3_result_error_code ctx (rc : Z) := set_result ctx (ResErrorCode rc).
Definition sqlite3_result_error_nomem ctx := set_result ctx ResNomem.

(** [ctxErrorMsg(ctx, zFmt, z)] for the formats of this file, which all end
    in [%s]: [zFmt] is given without its [%s]. *)
Definition ctxErrorMsg ctx (zFmt z : string) : sqlite3_context :=
  sqlite3_result_error ctx (zFmt +:+ z).

Definition is_error (r : sql_result) : bool :=
  match r with
  | ResError _ | ResErrorCode _ | ResNomem => true
  | _ => false
  end.

(** A fresh context: result NULL, the connection's length limit. *)
Definition fresh_context (limit : Z) : sqlite3_context :=
  {| ctx_result := ResNull; ctx_limit_length := limit |}.

(** ** The world the C library acts on *)

(** A file-system entry.  [perm] holds the twelve permission bits. *)
Inductive node : Type :=
  | Reg (perm mtime : Z) (data : list byte)
  | Dir (perm : Z)
  | Lnk (target : string).

(** A failure scheduled by the environment for one library call: the call
    fails with [f_errno]; an [fread] or [fwrite] first moves [f_moved]
    bytes.  Denials that depend on ownership, permission bits, quotas or on
    other processes are not computed from the state: they are scheduled. *)
Record fault : Type := Fault { f_errno : Z; f_moved : nat }.

(** The library calls the source makes, as they appear in the trace. *)
Inductive call : Type :=
  | CallFopen (path mode : string)
  | CallFread (n : Z)
  | CallFwrite (n : Z)
  | CallFclose
  | CallStat (path : string)
  | CallMkdir (path : string) (mode : Z)
  | CallChmod (path : string) (mode : Z)
  | CallUtimes (path : string) (mtime : Z)
  | CallSymlink (src : string) (dst : option string)
  | CallMprintf (z : string)
  | CallMalloc (n : Z)
  | CallFree.

Record world : Type := World {
  w_fs : gmap string node;
  w_errno : Z;
  w_umask : Z;
  w_faults : list (option fault);  (* one decision per fallible call, in order *)
  w_trace : list call              (* oldest call first *)
}.

Definition set_fs (fs : gmap string node) (w : world) : world :=
  {| w_fs := fs; w_errno := w_errno w; w_umask := w_umask w;
     w_faults := w_faults w; w_trace := w_trace w |}.

Definition set_errno (e : Z) (w : world) : world :=
  {| w_fs := w_fs w; w_errno := e; w_umask := w_umask w;
     w_faults := w_faults w; w_trace := w_trace w |}.

(** The state monad of the C code. *)
Definition M (A : Type) : Type := world -> A * world.

Definition ret {A} (a : A) : M A := fun w => (a, w).

Definition bind {A B} (m : M A) (k : A -> M B) : M B :=
  fun w => let (a, w') := m w in k a w'.

Notation "'let*' x ':=' m 'in' k" := (bind m (fun x => k))
  (at level 10, x pattern, m at level 100, k at level 200).

Definition get_fs : M (gmap string node) := fun w => (w_fs w, w).
Definition put_fs (fs : gmap string node) : M unit := fun w => (tt, set_fs fs w).
Definition errno : M Z := fun w => (w_errno w, w).
Definition umask : M Z := fun w => (w_umask w, w).

(** A call fails: [errno] is set and [a] is returned. *)
Definition fails {A} (e : Z) (a : A) : M A := fun w => (a, set_errno e w).

(** A call that cannot fail is only recorded. *)
Definition note (c : call) : M unit := fun w =>
  (tt, {| w_fs := w_fs w; w_errno := w_errno w; w_umask := w_umask w;
          w_faults := w_faults w; w_trace := w_trace w ++ [c] |}).

(** A fallible call is recorded and takes the environment's next decision;
    once the schedule is used up nothing more is refused. *)
Definition enter (c : call) : M (option fault) := fun w =>
  (match w_faults w with [] => None | f :: _ => f end,
   {| w_fs := w_fs w; w_errno := w_errno w; w_umask := w_umask w;
      w_faults := tl (w_faults w); w_trace := w_trace w ++ [c] |}).

(** *** Path lookup

    A path is looked up as it is written: the model does not identify
    [a//b] or [a/./b] with [a/b].  The empty path names nothing and the
    root always exists.  A symbolic link in final position is followed, its
    target read as written, at most [MAXSYMLINKS] times. *)
Definition fs_get (fs : gmap string node) (p : string) : option node :=
  if String.eqb p "" then None
  else if String.eqb p "/" then Some (Dir o755)
  else fs !! p.

Definition MAXSYMLINKS : nat := 40.

Fixpoint resolve_from (hops : nat) (fs : gmap string node) (p : string) : option string :=
  match hops with
  | O => None
  | S h =>
      match fs_get fs p with
      | Some (Lnk t) => resolve_from h fs t
      | _ => Some p
      end
  end.

Definition resolve := resolve_from MAXSYMLINKS.

Definition is_slash (c : ascii) : bool := Ascii.eqb c "/"%char.

(** The text before the last ['/'] of [p], when [p] has one. *)
Fixpoint dirname (p : string) : option string :=
  match p with
  | EmptyString => None
  | String c r =>
      match dirname r with
      | Some d => Some (String c d)
      | None => if is_slash c then Some EmptyString else None
      end
  end.

(** Why an entry cannot be created at [p]: its directory is missing or is
    not a directory.  A path without ['/'] lives in the working directory,
    a path whose only ['/'] is the first character in the root. *)
Definition parent_errno (fs : gmap string node) (p : string) : option Z :=
  match dirname p with
  | None | Some EmptyString => None
  | Some d =>
      match resolve fs d with
      | None => Some ELOOP
      | Some q =>
          match fs_get fs q with
          | Some (Dir _) => None
          | Some _ => Some ENOTDIR
          | None => Some ENOENT
          end
      end
  end.

(** [st_mode]: the kind of the entry and its twelve permission bits. *)
Definition st_mode_of (n : node) : Z :=
  match n with
  | Reg perm _ _ => Z.lor S_IFREG (Z.land perm o7777)
  | Dir perm => Z.lor S_IFDIR (Z.land perm o7777)
  | Lnk _ => Z.lor S_IFLNK o777
  end.

(** *** Streams *)

(** A [FILE*]: the path it was opened on, the bytes a reader sees, and the
    position. *)
Record FILE : Type := Stream { f_path : string; f_data : list byte; f_pos : nat }.

Definition fseek_end (h : FILE) : FILE :=
  {| f_path := f_path h; f_data := f_data h; f_pos := length (f_data h) |}.
Definition ftell (h : FILE) : Z := Z.of_nat (f_pos h).
Definition rewind (h : FILE) : FILE :=
  {| f_path := f_path h; f_data := f_data h; f_pos := 0 |}.

(** [fopen(path, "rb")]. *)
Definition fopen_rb (path : string) : M (option FILE) :=
  let* f := enter (CallFopen path "rb") in
  match f with
  | Some fl => fails (f_errno fl) None
  | None =>
      let* fs := get_fs in
      match resolve fs path with
      | None => fails ELOOP None
      | Some q =>
          match fs_get fs q with
          | Some (Reg _ _ data) => ret (Some {| f_path := q; f_data := data; f_pos := 0 |})
          | Some (Dir _) => fails EISDIR None
          | _ => fails ENOENT None
          end
      end
  end.

(** [fopen(path, "wb")]: the file is created with 0666 less the umask, or
    truncated. *)
Definition fopen_wb (path : string) : M (option FILE) :=
  let* f := enter (CallFopen path "wb") in
  match f with
  | Some fl => fails (f_errno fl) None
  | None =>
      let* fs := get_fs in
      match resolve fs path with
      | None => fails ELOOP None
      | Some q =>
          match fs_get fs q with
          | Some (Reg perm mtime _) =>
              let* _ := put_fs (<[q := Reg perm mtime []]> fs) in
              ret (Some {| f_path := q; f_data := []; f_pos := 0 |})
          | Some _ => fails EISDIR None
          | None =>
              if String.eqb q "" then fails ENOENT None else
              match parent_errno fs q with
              | Some e => fails e None
              | None =>
                  let* um := umask in
                  let* _ := put_fs (<[q := Reg (Z.land o666 (Z.lnot um)) 0 []]> fs) in
                  ret (Some {| f_path := q; f_data := []; f_pos := 0 |})
              end
          end
      end
  end.

Definition fopen (path mode : string) : M (option FILE) :=
  if String.eqb mode "wb" then fopen_wb path else fopen_rb path.

Definition fclose (h : FILE) : M unit := note CallFclose.

(** [fread(pBuf, 1, n, in)]: the bytes now in the buffer and their count. *)
Definition fread (n : Z) (h : FILE) : M (list byte * Z) :=
  let* f := enter (CallFread n) in
  let want := match f with
              | Some fl => Nat.min (f_moved fl) (Z.to_nat n)
              | None => Z.to_nat n
              end in
  let got := take want (drop (f_pos h) (f_data h)) in
  match f with
  | Some fl => fails (f_errno fl) (got, Z.of_nat (length got))
  | None => ret (got, Z.of_nat (length got))
  end.

(** [fwrite(z, 1, n, out)]: the count of bytes that reached the file. *)
Definition fwrite (z : list byte) (n : Z) (h : FILE) : M Z :=
  let* f := enter (CallFwrite n) in
  let want := match f with
              | Some fl => Nat.min (f_moved fl) (Z.to_nat n)
              | None => Z.to_nat n
              end in
  let put := take want z in
  let* fs := get_fs in
  let* _ := match fs_get fs (f_path h) with
            | Some (Reg perm mtime data) =>
                put_fs (<[f_path h := Reg perm mtime (data ++ put)]> fs)
            | _ => ret tt
            end in
  match f with
  | Some fl => fails (f_errno fl) (Z.of_nat (length put))
  | None => ret (Z.of_nat (length put))
  end.

(** *** Calls on paths *)

Record struct_stat : Type := Stat { st_mode : Z }.

Definition sys_stat (path : string) : M (option struct_stat) :=
  let* f := enter (CallStat path) in
  match f with
  | Some fl => fails (f_errno fl) None
  | None =>
      let* fs := get_fs in
      match resolve fs path with
      | None => fails ELOOP None
      | Some q =>
          match fs_get fs q with
          | Some n => ret (Some {| st_mode := st_mode_of n |})
          | None => fails ENOENT None
          end
      end
  end.

(** [mkdir(path, mode)]: 0 or -1. *)
Definition sys_mkdir (path : string) (mode : Z) : M Z :=
  let* f := enter (CallMkdir path mode) in
  match f with
  | Some fl => fails (f_errno fl) (-1)
  | None =>
      let* fs := get_fs in
      if String.eqb path "" then fails ENOENT (-1) else
      match fs_get fs path with
      | Some _ => fails EEXIST (-1)
      | None =>
          match parent_errno fs path with
          | Some e => fails e (-1)
          | None =>
              let* um := umask in
              let* _ := put_fs (<[path := Dir (Z.land (Z.land mode o777) (Z.lnot um))]> fs) in
              ret 0
          end
      end
  end.

(** [chmod(path, mode)]: 0 or -1.  The root is not ours to change. *)
Definition sys_chmod (path : string) (mode : Z) : M Z :=
  let* f := enter (CallChmod path mode) in
  match f with
  | Some fl => fails (f_errno fl) (-1)
  | None =>
      let* fs := get_fs in
      match resolve fs path with
      | None => fails ELOOP (-1)
      | Some q =>
          match fs_get fs q with
          | Some (Reg _ mtime data) =>
              let* _ := put_fs (<[q := Reg (Z.land mode o7777) mtime data]> fs) in ret 0
          | Some (Dir _) =>
              if String.eqb q "/" then fails EPERM (-1) else
              let* _ := put_fs (<[q := Dir (Z.land mode o7777)]> fs) in ret 0
          | _ => fails ENOENT (-1)
          end
      end
  end.

(** [utimes(path, times)] with [times[1].tv_sec = mtime]: 0 or -1.  Access
    times are not part of the model. *)
Definition sys_utimes (path : string) (mtime : Z) : M Z :=
  let* f := enter (CallUtimes path mtime) in
  match f with
  | Some fl => fails (f_errno fl) (-1)
  | None =>
      let* fs := get_fs in
      match resolve fs path with
      | None => fails ELOOP (-1)
      | Some q =>
          match fs_get fs q with
          | Some (Reg perm _ data) =>
              let* _ := put_fs (<[q := Reg perm mtime data]> fs) in ret 0
          | Some (Dir _) => if String.eqb q "/" then fails EPERM (-1) else ret 0
          | _ => fails ENOENT (-1)
          end
      end
  end.

(** [symlink(src, dst)]: 0 or -1.  [dst] may be the null pointer. *)
Definition sys_symlink (src : string) (dst : option string) : M Z :=
  let* f := enter (CallSymlink src dst) in
  match f, dst with
  | Some fl, _ => fails (f_errno fl) (-1)
  | None, None => fails EFAULT (-1)
  | None, Some dst =>
      let* fs := get_fs in
      if String.eqb dst "" then fails ENOENT (-1) else
      match fs_get fs dst with
      | Some _ => fails EEXIST (-1)
      | None =>
          match parent_errno fs dst with
          | Some e => fails e (-1)
          | None => let* _ := put_fs (<[dst := Lnk src]> fs) in ret 0
          end
      end
  end.

(** *** The allocator *)

(** [sqlite3_malloc64(n)]: a fresh buffer, or the null pointer. *)
Definition sqlite3_malloc64 (n : Z) : M (option (list byte)) :=
  let* f := enter (CallMalloc n) in
  match f with
  | Some _ => ret None
  | None => ret (Some [])
  end.

(** [sqlite3_mprintf("%s", z)]: a copy of [z], or the null pointer. *)
Definition sqlite3_mprintf (z : string) : M (option string) :=
  let* f := enter (CallMprintf z) in
  match f with
  | Some _ => ret None
  | None => ret (Some z)
  end.

Definition sqlite3_free : M unit := note CallFree.

(** ** The functions of scalar.c *)

(** Set the result of [ctx] to a blob with the contents of file [zName], or
    leave it NULL if the file does not exist or is unreadable. *)
Definition readFileContents (ctx : sqlite3_context) (zName : string) : M sqlite3_context :=
  let* in_ := fopen zName "rb" in
  match in_ with
  | None => ret ctx
  | Some in_ =>
      let in_ := fseek_end in_ in
      let nIn := ftell in_ in
      let in_ := rewind in_ in
      let mxBlob := ctx_limit_length ctx in
      if nIn >? mxBlob then
        let ctx := sqlite3_result_error_code ctx SQLITE_TOOBIG in
        let* _ := fclose in_ in
        ret ctx
      else
        let* pBuf := sqlite3_malloc64 (if nIn =? 0 then 1 else nIn) in
        match pBuf with
        | None =>
            let ctx := sqlite3_result_error_nomem ctx in
            let* _ := fclose in_ in
            ret ctx
        | Some _ =>
            let* (pBuf, n) := fread nIn in_ in
            let* ctx :=
              (if nIn =? n then ret (sqlite3_result_blob64 ctx pBuf nIn)
               else
                 let ctx := sqlite3_result_error_code ctx SQLITE_IOERR in
                 let* _ := sqlite3_free in
                 ret ctx) in
            let* _ := fclose in_ in
            ret ctx
        end
  end.

(** [readfile(X)]. *)
Definition sqlite3_readfile (context : sqlite3_context) (argv : list sqlite3_value)
  : M sqlite3_context :=
  match sqlite3_value_text (arg 0 argv) with
  | None => ret context
  | Some zName => readFileContents context zName
  end.

(** Outside Windows [fileStat] is [stat]. *)
Definition fileStat (zPath : string) : M (option struct_stat) := sys_stat zPath.

(** [zCopy[i]]: the byte at [i], the terminator at the end.  For the empty
    path the source starts at index 1, one past the terminator; nothing it
    does depends on the byte found there, and the model reads NUL. *)
Definition byte_at (zCopy : string) (i : nat) : ascii :=
  match String.get i zCopy with
  | Some c => c
  | None => "000"%char
  end.

(** [for (; zCopy[i] != '/' && i < nCopy; i++);] run for at most [steps]
    rounds; [nCopy - i] rounds exhaust it. *)
Fixpoint next_slash (steps : nat) (zCopy : string) (nCopy i : nat) : nat :=
  match steps with
  | O => i
  | S k =>
      if negb (is_slash (byte_at zCopy i)) && (i <? nCopy)%nat
      then next_slash k zCopy nCopy (S i)
      else i
  end.

(** The [while (rc == SQLITE_OK)] loop of [makeParentDirectory], run for at
    most [fuel] rounds.  Writing NUL at [i] makes [zCopy] the C string of
    its first [i] bytes; the ['/'] is put back before the next round. *)
Fixpoint parent_loop (fuel : nat) (zCopy : string) (nCopy i : nat) (rc : Z) : M Z :=
  match fuel with
  | O => ret rc
  | S fuel' =>
      if negb (rc =? SQLITE_OK) then ret rc else
      let i := next_slash (nCopy - i) zCopy nCopy i in
      if (i =? nCopy)%nat then ret rc else
      let zPrefix := substring 0 i zCopy in
      let* rc2 := fileStat zPrefix in
      let* rc :=
        match rc2 with
        | None =>
            let* r := sys_mkdir zPrefix o777 in
            ret (if negb (r =? 0) then SQLITE_ERROR else rc)
        | Some sStat =>
            ret (if negb (S_ISDIR (st_mode sStat)) then SQLITE_ERROR else rc)
        end in
      parent_loop fuel' zCopy nCopy (S i) rc
  end.

(** Ensure that the directory [zFile] will be written to exists. *)
Definition makeParentDirectory (zFile : string) : M Z :=
  let* zCopy := sqlite3_mprintf zFile in
  match zCopy with
  | None => ret SQLITE_NOMEM
  | Some zCopy =>
      let nCopy := String.length zCopy in
      let* rc := parent_loop (S nCopy) zCopy nCopy 1 SQLITE_OK in
      let* _ := sqlite3_free in
      ret rc
  end.

(** Create a directory named [path] with permission bits [mode]. *)
Definition makeDirectory (ctx : sqlite3_context) (path : string) (mode : Z) : M Z :=
  let* res := sys_mkdir path mode in
  if negb (res =? 0) then
    let* e := errno in
    if negb (e =? EEXIST) then ret 1 else
    let* rc2 := fileStat path in
    match rc2 with
    | None => ret 1
    | Some sStat =>
        if negb (S_ISDIR (st_mode sStat)) then ret 1 else
        if negb (Z.land (st_mode sStat) o777 =? Z.land mode o777) then
          let* r := sys_chmod path (Z.land mode o777) in
          if negb (0 =? r) then ret 1 else ret 0
        else ret 0
    end
  else ret 0.

(** Create a symbolic link named [dst], pointing to [src]. *)
Definition createSymlink (ctx : sqlite3_context) (src : string) (dst : option string) : M Z :=
  let* r := sys_symlink src dst in
  let res := if r <? 0 then 1 else 0 in
  if res <? 0 then ret 1 else ret 0.

(** Write blob [pData] to file [zFile], with permission bits [mode] and
    modification time [mtime] (-1 to not set). *)
Definition writeFile (pCtx : sqlite3_context) (zFile : string) (pData : sqlite3_value)
    (mode mtime : Z) : M (Z * sqlite3_context) :=
  let* out := fopen zFile "wb" in
  match out with
  | None => ret (1, pCtx)
  | Some out =>
      let* (nWrite, rc) :=
        match sqlite3_value_blob pData with
        | Some z =>
            let* n := fwrite z (sqlite3_value_bytes pData) out in
            let nWrite := sqlite3_value_bytes pData in
            ret (nWrite, if negb (nWrite =? n) then 1 else 0)
        | None => ret (0, 0)
        end in
      let* _ := fclose out in
      let* rc :=
        (if (rc =? 0) && negb (mode =? 0) then
           let* r := sys_chmod zFile mode in
           ret (if negb (r =? 0) then 1 else rc)
         else ret rc) in
      if negb (rc =? 0) then ret (2, pCtx) else
      let pCtx := sqlite3_result_int64 pCtx nWrite in
      if mtime >=? 0 then
        let* r := sys_utimes zFile mtime in
        if negb (r =? 0) then ret (1, pCtx) else ret (0, pCtx)
      else ret (0, pCtx)
  end.

(** The statements of [sqlite3_writefile] that compute [res]: the call of
    [writeFile] and, after a result of 1 with [errno == ENOENT], the call of
    [makeParentDirectory] and the second call of [writeFile]. *)
Definition write_or_retry (context : sqlite3_context) (zFile : string)
    (pData : sqlite3_value) (perm mtime : Z) : M (Z * sqlite3_context) :=
  let* (res, context) := writeFile context zFile pData perm mtime in
  let* e := errno in
  if (res =? 1) && (e =? ENOENT) then
    let* rc := makeParentDirectory zFile in
    if rc =? SQLITE_OK
    then writeFile context zFile pData perm mtime
    else ret (res, context)
  else ret (res, context).

(** [writefile(path, data[, perm[, mtime]])]. *)
Definition sqlite3_writefile (context : sqlite3_context) (argv : list sqlite3_value)
  : M sqlite3_context :=
  let argc := argc_of argv in
  if (argc <? 2) || (argc >? 4) then
    ret (sqlite3_result_error context "wrong number of arguments to function writefile()")
  else
    match sqlite3_value_text (arg 0 argv) with
    | None => ret context
    | Some zFile =>
        let perm := if argc >=? 3 then to_mode_t (sqlite3_value_int (arg 2 argv)) else o666 in
        let mtime := if argc =? 4 then sqlite3_value_int64 (arg 3 argv) else -1 in
        let* (res, context) := write_or_retry context zFile (arg 1 argv) perm mtime in
        if (argc >? 2) && negb (res =? 0)
        then ret (ctxErrorMsg context "failed to write file: " zFile)
        else ret context
    end.

(** [symlink(src, dst)]. *)
Definition sqlite3_symlink (context : sqlite3_context) (argv : list sqlite3_value)
  : M sqlite3_context :=
  let argc := argc_of argv in
  if negb (argc =? 2) then
    ret (sqlite3_result_error context "wrong number of arguments to function symlink()")
  else
    match sqlite3_value_text (arg 0 argv) with
    | None => ret context
    | Some src =>
        let dst := sqlite3_value_text (arg 1 argv) in
        let* res := createSymlink context src dst in
        if negb (res =? 0)
        then ret (ctxErrorMsg context "failed to create symlink to: " src)
        else ret context
    end.

(** [mkdir(path, perm)]. *)
Definition sqlite3_mkdir (context : sqlite3_context) (argv : list sqlite3_value)
  : M sqlite3_context :=
  let argc := argc_of argv in
  if negb (argc =? 1) && negb (argc =? 2) then
    ret (sqlite3_result_error context "wrong number of arguments to function mkdir()")
  else
    match sqlite3_value_text (arg 0 argv) with
    | None => ret context
    | Some path =>
        let perm := if argc =? 2 then to_mode_t (sqlite3_value_int (arg 1 argv)) else o777 in
        let* res := makeDirectory context path perm in
        if negb (res =? 0)
        then ret (ctxErrorMsg context "failed to create directory: " path)
        else ret context
    end.

(** One permission triad of [lsmode]: the body of its [for] loop at [i]. *)
Definition lsmode_triad (iMode i : Z) : list ascii :=
  let m := Z.shiftr iMode ((2 - i) * 3) in
  [ if negb (Z.land m 4 =? 0) then "r"%char else "-"%char;
    if negb (Z.land m 2 =? 0) then "w"%char else "-"%char;
    if negb (Z.land m 1 =? 0) then "x"%char else "-"%char ].

(** [lsmode(mode)]: a numeric [st_mode] as text in the style of [ls -l]. *)
Definition sqlite3_lsmode (context : sqlite3_context) (argv : list sqlite3_value)
  : sqlite3_context :=
  let iMode := sqlite3_value_int (arg 0 argv) in
  let z0 := if S_ISLNK iMode then "l"%char
            else if S_ISREG iMode then "-"%char
            else if S_ISDIR iMode then "d"%char
            else "?"%char in
  let z := z0 :: flat_map (lsmode_triad iMode) [0; 1; 2] in
  sqlite3_result_text context (string_of_list_ascii z).

(** [fileioscalar_init]: the functions registered with the connection and
    the number of arguments SQLite lets through to each (-1: any number). *)
Definition fileioscalar_init : list (string * Z) :=
  [ ("lsmode", 1); ("mkdir", -1); ("readfile", 1); ("symlink", 2); ("writefile", -1) ].

(** ** Notions used to state the properties *)

(** *** The environment *)

(** The environment's decision for the [k]-th fallible call from now. *)
Definition decision (k : nat) (w : world) : option fault := nth k (w_faults w) None.

(** The next call is not refused. *)
Definition unrefused (w : world) : Prop := decision 0 w = None.

(** The world after a fallible call [c], its decision consumed. *)
Definition entered (c : call) (w : world) : world := snd (enter c w).

Definition is_link (o : option node) : bool :=
  match o with Some (Lnk _) => true | _ => false end.

(** An entry that [stat] reports and that is not a directory. *)
Definition not_a_directory (fs : gmap string node) (p : string) : Prop :=
  exists q n, resolve fs p = Some q /\ fs_get fs q = Some n
              /\ S_ISDIR (st_mode_of n) = false.

(** The path leads to a regular file with contents [data]. *)
Definition holds (fs : gmap string node) (path : string) (data : list byte) : Prop :=
  exists q perm mtime, resolve fs path = Some q /\ fs_get fs q = Some (Reg perm mtime data).

(** *** Reading a trace *)

(** A call that starts an attempt to write: [fopen(_, "wb")]. *)
Definition opens_for_writing (c : call) : bool :=
  match c with
  | CallFopen _ m => String.eqb m "wb"
  | _ => false
  end.

(** The first call of [makeParentDirectory], made nowhere else. *)
Definition starts_builder (c : call) : bool :=
  match c with
  | CallMprintf _ => true
  | _ => false
  end.

Definition count_calls (f : call -> bool) (tr : list call) : nat :=
  length (List.filter f tr).

Definition plain (c : call) : bool :=
  negb (opens_for_writing c) && negb (starts_builder c).

(** [m] only adds plain calls to the trace. *)
Definition appends_plain {A} (m : M A) : Prop :=
  forall w, exists new,
    w_trace (snd (m w)) = w_trace w ++ new /\ forallb plain new = true.

(** ** The contracts of the specification, in its own words *)

(** Permission Formatter: position 0 is the kind, then for owner, group and
    other, most significant triad first, [r], [w], [x] or [-] by the bit. *)
Definition perm_char (mode : Z) (bit : Z) (c : ascii) : ascii :=
  if Z.testbit mode bit then c else "-"%char.

Definition format_mode_spec (mode : Z) : string :=
  let kind := if S_ISLNK mode then "l"%char
              else if S_ISREG mode then "-"%char
              else if S_ISDIR mode then "d"%char
              else "?"%char in
  string_of_list_ascii
    [ kind;
      perm_char mode 8 "r"; perm_char mode 7 "w"; perm_char mode 6 "x";
      perm_char mode 5 "r"; perm_char mode 4 "w"; perm_char mode 3 "x";
      perm_char mode 2 "r"; perm_char mode 1 "w"; perm_char mode 0 "x" ].

(** Directory Builder.  The prefixes of [done +:+ rest] that end just
    before a ['/'] of [rest], shortest first. *)
Fixpoint prefixes_from (done rest : string) : list string :=
  match rest with
  | EmptyString => []
  | String c r =>
      (if is_slash c then [done] else []) ++ prefixes_from (done +:+ String c EmptyString) r
  end.

(** The ancestor prefixes of a file path, left to right: what precedes each
    ['/'] after the first character.  The final component is not among
    them. *)
Definition ancestors (file_path : string) : list string :=
  match file_path with
  | EmptyString => []
  | String c r => prefixes_from (String c EmptyString) r
  end.

(** For each ancestor prefix: if [stat] fails, create it as a directory
    with the default permissions; if [stat] succeeds but the entry is not a
    directory, fail with the generic error. *)
Fixpoint ensure_parents_spec (prefixes : list string) : M Z :=
  match prefixes with
  | [] => ret SQLITE_OK
  | p :: rest =>
      let* st := fileStat p in
      match st with
      | None =>
          let* r := sys_mkdir p o777 in
          if r =? 0 then ensure_parents_spec rest else ret SQLITE_ERROR
      | Some s =>
          if S_ISDIR (st_mode s) then ensure_parents_spec rest else ret SQLITE_ERROR
      end
  end.

(** ** Concrete worlds *)

(** Nothing is refused; the umask is 022. *)
Definition quiet_world (fs : gmap string node) : world :=
  {| w_fs := fs; w_errno := 0; w_umask := 18; w_faults := []; w_trace := [] |}.

Definition faulty_world (fs : gmap string node) (faults : list (option fault)) : world :=
  {| w_fs := fs; w_errno := 0; w_umask := 18; w_faults := faults; w_trace := [] |}.

(** A scratch directory [/tmp] that holds nothing. *)
Definition tmp_fs : gmap string node := <["/tmp" := Dir o777]> ∅.

(** [/tmp] holding a file [/tmp/f] of three bytes, mode 0644. *)
Definition tmp_f_fs : gmap string node :=
  <["/tmp/f" := Reg 420 0 [x01; x02; x03]]> tmp_fs.

(** The environment refuses [utimes], the fourth call, with ENOENT. *)
Definition mtime_refused_world : world :=
  faulty_world tmp_fs [None; None; None; Some {| f_errno := ENOENT; f_moved := 0 |}].

(** The environment denies the next call: permission denied. *)
Definition denied_world : world :=
  faulty_world tmp_f_fs [Some {| f_errno := EACCES; f_moved := 0 |}].

(** Forty bytes, more than a connection limited to thirty may return. *)
Definition forty_bytes : list byte := repeat x2a 40.

(** ** Tactics *)

(** Name the outcome of the next call a goal runs. *)
Ltac next_call :=
  match goal with
  | |- context [match ?m ?w with pair _ _ => _ end] =>
      let a := fresh "a" in let w' := fresh "w" in let E := fresh "E" in
      destruct (m w) as [a w'] eqn:E
  end.

(** Split on the condition of the first conditional in the goal. *)
Ltac split_if :=
  match goal with
  | |- context [if ?c then _ else _] =>
      let E := fresh "E" in destruct c eqn:E
  end.

(** ** Further notions *)


(** The path leads to a directory. *)
Definition is_directory (fs : gmap string node) (p : string) : Prop :=
  exists q perm, resolve fs p = Some q /\ fs_get fs q = Some (Dir perm).





(** An entry can be created under the directory part [d] of its path: the
    path has none, or it is the root, or it leads to a directory. *)
Definition parent_ok (fs : gmap string node) (d : option string) : Prop :=
  match d with
  | None | Some EmptyString => True
  | Some p => is_directory fs p
  end.



(** The bits of a mode that [lsmode] looks at: the kind and the nine
    permission bits, 0170777. *)
Definition shown_bits : Z := 0xF1FF.

(** Two traces built from the same pieces are equal. *)
Ltac same_trace :=
  rewrite <- ?app_assoc; cbn [app]; rewrite ?app_nil_r; reflexivity.

(** ** Times on Windows

    The Windows build keeps a file's times as [FILETIME]: a count of 100
    nanosecond intervals since 1601-01-01, split in two 32-bit halves. *)
Module Win32.

Record FILETIME : Type := FileTime { dwLowDateTime : Z; dwHighDateTime : Z }.

(** The cast [(DWORD)]: the low 32 bits, unsigned. *)
Definition DWORD (z : Z) : Z := z mod 2 ^ 32.

(** A [LONGLONG]: 64 bits, signed. *)
Definition LONGLONG (z : Z) : Z := (z + 2 ^ 63) mod 2 ^ 64 - 2 ^ 63.

(** [ULARGE_INTEGER]: the 64-bit [QuadPart] of a [LowPart] and a
    [HighPart]. *)
Definition QuadPart (LowPart HighPart : Z) : Z := HighPart * 2 ^ 32 + LowPart.

(** The macro of winnt.h: both arguments are cast to [LONG] first. *)
Definition Int32x32To64 (a b : Z) : Z := to_int32 a * to_int32 b.

(** What [SystemTimeToFileTime] gives for 1970-01-01 00:00:00. *)
Definition epochFileTime : FILETIME :=
  {| dwLowDateTime := 0xD53E8000; dwHighDateTime := 0x019DB1DE |}.

(** The seconds since the Unix epoch of a [FILETIME], the subtraction and
    the division being those of unsigned 64-bit integers. *)
Definition fileTimeToUnixTime (pFileTime : FILETIME) : Z :=
  let epochIntervals :=
    QuadPart (dwLowDateTime epochFileTime) (dwHighDateTime epochFileTime) in
  let fileIntervals :=
    QuadPart (dwLowDateTime pFileTime) (dwHighDateTime pFileTime) in
  ((fileIntervals - epochIntervals) mod 2 ^ 64) / 10000000.

(** The [lastWrite] that [writeFile] hands to [SetFileTime] for [mtime]. *)
Definition lastWrite (mtime : Z) : FILETIME :=
  let intervals := LONGLONG (Int32x32To64 mtime 10000000 + 116444736000000000) in
  {| dwLowDateTime := DWORD intervals;
     dwHighDateTime := DWORD (Z.shiftr intervals 32) |}.

End Win32.

(** ** Directory streams on Windows

    The Windows DLL build carries its own [opendir], [readdir], [readdir_r]
    and [closedir], written over the [_findfirst] family of the C runtime,
    and a [getenv] written over [GetEnvironmentVariableA]. *)
Module Windirent.

(** [struct _finddata_t], the two fields the code reads. *)
Record finddata : Type := FindData { attrib : Z; name : string }.

Record DIRENT : Type := Dirent { d_ino : Z; d_attributes : Z; d_name : string }.

Record DIR : Type := Dir_ { d_handle : Z; d_first : DIRENT; d_next : DIRENT }.

(** Where a [LPDIRENT] returned by [readdir] points: into the [DIR]. *)
Inductive slot : Type := First | Next.

Definition deref (dirp : DIR) (s : slot) : DIRENT :=
  match s with First => d_first dirp | Next => d_next dirp end.

(** What [readdir_r] leaves in [*result]. *)
Inductive result_ptr : Type := Untouched | Null | Entry.

Inductive wcall : Type :=
  | CallMalloc
  | CallFree
  | CallGetEnvironmentVariable (name : string)
  | CallFindFirst (pattern : string)
  | CallFindNext (handle : Z)
  | CallFindClose (handle : Z).

(** The environment: the variables, what each search pattern matches in the
    order the search returns it, the searches that are open with the
    entries each has not yet returned, the handle the next search gets, the
    allocations to come that are refused, and the calls made so far. *)
Record winworld : Type := WinWorld {
  ww_env : string -> option string;
  ww_listing : string -> list finddata;
  ww_searches : gmap Z (list finddata);
  ww_handle : positive;
  ww_nomem : list bool;
  ww_trace : list wcall }.

Definition W (A : Type) : Type := winworld -> A * winworld.

Definition wret {A} (a : A) : W A := fun w => (a, w).

Definition wbind {A B} (m : W A) (k : A -> W B) : W B :=
  fun w => let (a, w') := m w in k a w'.

Notation "'let+' x ':=' m 'in' k" := (wbind m (fun x => k))
  (at level 10, x pattern, m at level 100, k at level 200).

Definition wnote (c : wcall) (w : winworld) : winworld :=
  {| ww_env := ww_env w; ww_listing := ww_listing w; ww_searches := ww_searches w;
     ww_handle := ww_handle w; ww_nomem := ww_nomem w; ww_trace := ww_trace w ++ [c] |}.

Definition set_searches (s : gmap Z (list finddata)) (w : winworld) : winworld :=
  {| ww_env := ww_env w; ww_listing := ww_listing w; ww_searches := s;
     ww_handle := ww_handle w; ww_nomem := ww_nomem w; ww_trace := ww_trace w |}.

Definition NULL_INTPTR_T : Z := 0.
Definition BAD_INTPTR_T : Z := -1.
Definition EBADF : Z := 9.
Definition EINVAL : Z := 22.

(** [sqlite3_malloc(sizeof(DIR))]: whether a block was obtained. *)
Definition sqlite3_malloc : W bool := fun w =>
  (negb (hd false (ww_nomem w)),
   wnote CallMalloc
     {| ww_env := ww_env w; ww_listing := ww_listing w; ww_searches := ww_searches w;
        ww_handle := ww_handle w; ww_nomem := tl (ww_nomem w); ww_trace := ww_trace w |}).

Definition sqlite3_free : W unit := fun w => (tt, wnote CallFree w).

(** [GetEnvironmentVariableA(name, value, dwSize)]: the count it returns and
    the buffer.  A value that fits with its terminator is stored and its
    length returned; one that does not fit gives the size it needs; a
    variable that is not set gives 0. *)
Definition GetEnvironmentVariableA (name : string) (dwSize : Z) : W (Z * string) :=
  fun w =>
    (match ww_env w name with
     | None => (0, "")
     | Some v =>
         let n := Z.of_nat (String.length v) in
         if n + 1 <=? dwSize then (n, v) else (n + 1, "")
     end,
     wnote (CallGetEnvironmentVariable name) w).

(** The [data] that [memset] has cleared. *)
Definition zero_finddata : finddata := {| attrib := 0; name := "" |}.

(** [_findfirst(pattern, &data)]: a new handle and the first entry in
    [data], or [BAD_INTPTR_T] when nothing matches. *)
Definition _findfirst (pattern : string) : W (Z * finddata) := fun w =>
  match ww_listing w pattern with
  | [] => ((BAD_INTPTR_T, zero_finddata), wnote (CallFindFirst pattern) w)
  | e :: rest =>
      ((Z.pos (ww_handle w), e),
       wnote (CallFindFirst pattern)
         {| ww_env := ww_env w; ww_listing := ww_listing w;
            ww_searches := <[Z.pos (ww_handle w) := rest]> (ww_searches w);
            ww_handle := Pos.succ (ww_handle w); ww_nomem := ww_nomem w;
            ww_trace := ww_trace w |})
  end.

(** [_findnext(handle, &data)]: the next entry, or -1. *)
Definition _findnext (handle : Z) : W (option finddata) := fun w =>
  match ww_searches w !! handle with
  | Some (e :: rest) =>
      (Some e, wnote (CallFindNext handle) (set_searches (<[handle := rest]> (ww_searches w)) w))
  | _ => (None, wnote (CallFindNext handle) w)
  end.

(** [_findclose(handle)]: 0, or -1 for a handle that is not open. *)
Definition _findclose (handle : Z) : W Z := fun w =>
  match ww_searches w !! handle with
  | Some _ =>
      (0, wnote (CallFindClose handle) (set_searches (delete handle (ww_searches w)) w))
  | None => (-1, wnote (CallFindClose handle) w)
  end.

(** The entries the search [handle] has not yet returned. *)
Definition remaining (handle : Z) : W (list finddata) := fun w =>
  (default [] (ww_searches w !! handle), w).

(** [getenv] over the Win32 API. *)
Definition windirent_getenv (name : string) : W (option string) :=
  let dwSize := 32768 in
  let+ (dwRet, value) := GetEnvironmentVariableA name dwSize in
  if (dwRet =? 0) || (dwRet >? dwSize) then wret None else wret (Some value).

Definition closedir (dirp : option DIR) : W Z :=
  match dirp with
  | None => wret EINVAL
  | Some d =>
      let+ result :=
        (if negb (d_handle d =? NULL_INTPTR_T) && negb (d_handle d =? BAD_INTPTR_T)
         then _findclose (d_handle d)
         else wret 0) in
      let+ _ := sqlite3_free in
      wret result
  end.

(** The block [memset] has cleared. *)
Definition zero_dirent : DIRENT := {| d_ino := 0; d_attributes := 0; d_name := "" |}.

Definition zero_dir : DIR :=
  {| d_handle := 0; d_first := zero_dirent; d_next := zero_dirent |}.

Section Windirent.

(** The header of the directory streams is not part of the sources at hand:
    the length [NAME_MAX] of a name, the test [is_filtered] that hides an
    entry, and the width of [ino_t] are left open, and so is what
    [_snprintf] leaves in the pattern buffer for a directory name, which may
    be the null pointer. *)
Variable NAME_MAX : nat.
Variable is_filtered : finddata -> bool.
Variable INO_BITS : Z.
Variable snprintf_pattern : option string -> string.

(** [x++] on an [ino_t]. *)
Definition ino_incr (x : Z) : Z := (x + 1) mod 2 ^ INO_BITS.

(** [(ino_t)-1]. *)
Definition ino_minus_one : Z := (-1) mod 2 ^ INO_BITS.

(** [strncpy(d, s, NAME_MAX); d[NAME_MAX] = '\0';] *)
Definition copy_name (s : string) : string := substring 0 NAME_MAX s.

(** The loop at the label [next], the same in [opendir], [readdir] and
    [readdir_r]: call [_findnext] until it fails or gives an entry that is
    not filtered.  Every round takes an entry from the search, so one round
    more than the entries left exhausts it. *)
Fixpoint next_loop (rounds : nat) (handle : Z) : W (option finddata) :=
  match rounds with
  | O => wret None
  | S rounds =>
      let+ data := _findnext handle in
      match data with
      | None => wret None
      | Some data =>
          if is_filtered data then next_loop rounds handle else wret (Some data)
      end
  end.

Definition next (handle : Z) : W (option finddata) :=
  let+ entries := remaining handle in
  next_loop (S (length entries)) handle.

(** [sqlite3_stricmp(dirname, "/") == 0]: no letter is compared. *)
Definition is_root (dirname : string) : bool := String.eqb dirname "/".

Definition opendir (dirname : string) : W (option DIR) :=
  let+ got := sqlite3_malloc in
  if negb got then wret None else
  let+ dirname :=
    (if is_root dirname then windirent_getenv "SystemDrive" else wret (Some dirname)) in
  let+ (handle, data) := _findfirst (snprintf_pattern dirname) in
  let dirp := {| d_handle := handle; d_first := zero_dirent; d_next := zero_dirent |} in
  if handle =? BAD_INTPTR_T then
    let+ _ := closedir (Some dirp) in wret None
  else
    let+ data := (if is_filtered data then next handle else wret (Some data)) in
    match data with
    | None => let+ _ := closedir (Some dirp) in wret None
    | Some data =>
        wret (Some {| d_handle := handle;
                      d_first := {| d_ino := 0; d_attributes := attrib data;
                                    d_name := copy_name (name data) |};
                      d_next := zero_dirent |})
    end.

(** [readdir(dirp)]: where the result points, and the [DIR] afterwards. *)
Definition readdir (dirp : option DIR) : W (option slot * option DIR) :=
  match dirp with
  | None => wret (None, None)
  | Some d =>
      if d_ino (d_first d) =? 0 then
        let first := d_first d in
        let next_ := d_next d in
        wret (Some First,
              Some {| d_handle := d_handle d;
                      d_first := {| d_ino := ino_incr (d_ino first);
                                    d_attributes := d_attributes first;
                                    d_name := d_name first |};
                      d_next := {| d_ino := ino_incr (d_ino next_);
                                   d_attributes := d_attributes next_;
                                   d_name := d_name next_ |} |})
      else
        let+ data := next (d_handle d) in
        match data with
        | None => wret (None, Some d)
        | Some data =>
            wret (Some Next,
                  Some {| d_handle := d_handle d;
                          d_first := d_first d;
                          d_next := {| d_ino := ino_incr (d_ino (d_next d));
                                       d_attributes := attrib data;
                                       d_name := copy_name (name data) |} |})
        end
  end.

(** [readdir_r(dirp, entry, result)]: the code returned, [*entry] and
    [*result] afterwards, and the [DIR] afterwards. *)
Definition readdir_r (dirp : option DIR) (entry : DIRENT)
  : W (Z * DIRENT * result_ptr * option DIR) :=
  match dirp with
  | None => wret (EBADF, entry, Untouched, None)
  | Some d =>
      if d_ino (d_first d) =? 0 then
        let first := d_first d in
        let next_ := d_next d in
        let d' := {| d_handle := d_handle d;
                     d_first := {| d_ino := ino_incr (d_ino first);
                                   d_attributes := d_attributes first;
                                   d_name := d_name first |};
                     d_next := {| d_ino := ino_incr (d_ino next_);
                                  d_attributes := d_attributes next_;
                                  d_name := d_name next_ |} |} in
        wret (0,
              {| d_ino := d_ino (d_first d');
                 d_attributes := d_attributes (d_first d');
                 d_name := copy_name (d_name (d_first d')) |},
              Entry, Some d')
      else
        let+ data := next (d_handle d) in
        match data with
        | None => wret (ENOENT, entry, Null, Some d)
        | Some data =>
            wret (0,
                  {| d_ino := ino_minus_one; d_attributes := attrib data;
                     d_name := copy_name (name data) |},
                  Entry, Some d)
        end
  end.

(** [readdir] called [n] times: what each result pointed to when it was
    returned, and the [DIR] at the end. *)
Fixpoint readdir_times (n : nat) (dirp : DIR) : W (list (option DIRENT) * DIR) :=
  match n with
  | O => wret ([], dirp)
  | S n =>
      let+ (p, d) := readdir (Some dirp) in
      let d := default dirp d in
      let+ (rest, d') := readdir_times n d in
      wret (option_map (deref d) p :: rest, d')
  end.

(** The entry [readdir] shows for [data] as its [k]th result. *)
Definition shown (k : Z) (data : finddata) : DIRENT :=
  {| d_ino := k; d_attributes := attrib data; d_name := copy_name (name data) |}.

(** The entries of a listing that are not filtered. *)
Definition visible (l : list finddata) : list finddata :=
  List.filter (fun data => negb (is_filtered data)) l.

(** A listing from its first entry that is not filtered. *)
Fixpoint unfiltered_from (l : list finddata) : list finddata :=
  match l with
  | [] => []
  | e :: rest => if is_filtered e then unfiltered_from rest else e :: rest
  end.

(** What [readdir] shows for the entries of [l] once the counter of
    [d_next] stands at [k]. *)
Fixpoint shown_from (k : Z) (l : list finddata) : list DIRENT :=
  match l with
  | [] => []
  | e :: rest =>
      if is_filtered e then shown_from k rest
      else shown (ino_incr k) e :: shown_from (ino_incr k) rest
  end.

(** [n] results: the entries [xs] as long as they last, then the null
    pointer. *)
Fixpoint padded (n : nat) (xs : list DIRENT) : list (option DIRENT) :=
  match n, xs with
  | O, _ => []
  | S n, [] => None :: padded n []
  | S n, x :: xs => Some x :: padded n xs
  end.

(** A client: open the directory, call [readdir] [n] times, close it. *)
Definition list_directory (n : nat) (dirname : string)
  : W (option (list (option DIRENT))) :=
  let+ dirp := opendir dirname in
  match dirp with
  | None => wret None
  | Some d =>
      let+ (results, d) := readdir_times n d in
      let+ _ := closedir (Some d) in
      wret (Some results)
  end.

End Windirent.

(** *** A concrete directory

    Names of up to 260 characters, hidden and system entries filtered, a
    16-bit [ino_t], and [_snprintf] with room for the whole pattern. *)
Definition hidden_or_system (data : finddata) : bool :=
  negb (Z.land (attrib data) 6 =? 0).

Definition whole_pattern (dirname : option string) : string :=
  match dirname with
  | Some d => d +:+ "\*"
  | None => "(null)\*"
  end.

(** [C:\dir] lists [.], [..], a hidden file and two plain files. *)
Definition dir_listing : list finddata :=
  [ {| attrib := 16; name := "." |};
    {| attrib := 16; name := ".." |};
    {| attrib := 2; name := "desktop.ini" |};
    {| attrib := 32; name := "a.txt" |};
    {| attrib := 32; name := "b.txt" |} ].

Definition dir_world : winworld :=
  {| ww_env := fun name => if String.eqb name "SystemDrive" then Some "C:" else None;
     ww_listing := fun pattern => if String.eqb pattern "C:\dir\*" then dir_listing else [];
     ww_searches := ∅;
     ww_handle := 1;
     ww_nomem := [];
     ww_trace := [] |}.

(** A stream on [C:\dir] after its first two entries have been read, and
    the world it lives in. *)
Definition dir_stream : DIR :=
  {| d_handle := 1;
     d_first := {| d_ino := 1; d_attributes := 16; d_name := "." |};
     d_next := {| d_ino := 2; d_attributes := 16; d_name := ".." |} |}.

Definition dir_stream_world : winworld :=
  {| ww_env := ww_env dir_world;
     ww_listing := ww_listing dir_world;
     ww_searches := <[1 := drop 2 dir_listing]> ∅;
     ww_handle := 2;
     ww_nomem := [];
     ww_trace := [] |}.

End Windirent.

(** ** Bits *)

Lemma land_pow2_testbit (m k : Z) :
  0 <= k -> negb (Z.land m (2 ^ k) =? 0) = Z.testbit m k.
Proof.
  intros Hk.
  destruct (Z.testbit m k) eqn:Hb.
  - assert (Z.land m (2 ^ k) = 2 ^ k) as ->.
    { apply Z.bits_inj'. intros n Hn.
      rewrite Z.land_spec, Z.pow2_bits_eqb by lia.
      destruct (Z.eqb_spec k n) as [->|]; [now rewrite Hb | apply andb_false_r]. }
    assert (0 < 2 ^ k) by (apply Z.pow_pos_nonneg; lia).
    destruct (Z.eqb_spec (2 ^ k) 0); [lia | reflexivity].
  - assert (Z.land m (2 ^ k) = 0) as ->; [| reflexivity].
    apply Z.bits_inj'. intros n Hn.
    rewrite Z.land_spec, Z.pow2_bits_eqb, Z.bits_0 by lia.
    destruct (Z.eqb_spec k n) as [->|]; [now rewrite Hb | apply andb_false_r].
Qed.

Lemma shifted_bit (m s k : Z) :
  0 <= s -> 0 <= k ->
  negb (Z.land (Z.shiftr m s) (2 ^ k) =? 0) = Z.testbit m (k + s).
Proof.
  intros Hs Hk. rewrite land_pow2_testbit by assumption.
  now rewrite Z.shiftr_spec.
Qed.

Lemma low_bits_testbit (m mask k : Z) :
  0 <= k -> Z.testbit mask k = true ->
  Z.testbit (Z.land m mask) k = Z.testbit m k.
Proof. intros _ Hm. rewrite Z.land_spec, Hm. apply andb_true_r. Qed.

Lemma read_bit (m s : Z) :
  0 <= s -> negb (Z.land (Z.shiftr m s) 4 =? 0) = Z.testbit m (2 + s).
Proof. intros Hs. apply (shifted_bit m s 2); lia. Qed.

Lemma write_bit (m s : Z) :
  0 <= s -> negb (Z.land (Z.shiftr m s) 2 =? 0) = Z.testbit m (1 + s).
Proof. intros Hs. apply (shifted_bit m s 1); lia. Qed.

Lemma exec_bit (m s : Z) :
  0 <= s -> negb (Z.land (Z.shiftr m s) 1 =? 0) = Z.testbit m (0 + s).
Proof. intros Hs. apply (shifted_bit m s 0); lia. Qed.

(** ** The stream calls *)

Lemma fopen_rb_eq (path : string) : fopen path "rb" = fopen_rb path.
Proof. reflexivity. Qed.

Lemma fopen_wb_eq (path : string) : fopen path "wb" = fopen_wb path.
Proof. reflexivity. Qed.

Lemma take_all_bytes (data : list byte) :
  take (Z.to_nat (Z.of_nat (length data))) data = data.
Proof. rewrite Nat2Z.id. apply firstn_all. Qed.




(** ** What [writeFile] returns *)

Lemma null_blob_has_no_bytes (pData : sqlite3_value) :
  sqlite3_value_blob pData = None -> sqlite3_value_bytes pData = 0.
Proof.
  unfold sqlite3_value_blob, sqlite3_value_bytes.
  destruct (value_bytes pData); [reflexivity | discriminate].
Qed.

(** The codes of [writeFile]: 1 with the context untouched when the file
    cannot be opened; otherwise 2 with the context untouched, or the byte
    count stored and 0, or 1 when a modification time was asked for and
    could not be set. *)
Lemma writeFile_codes (pCtx : sqlite3_context) (zFile : string) (pData : sqlite3_value)
    (mode mtime : Z) (w : world) :
  let count := sqlite3_result_int64 pCtx (sqlite3_value_bytes pData) in
  let out := writeFile pCtx zFile pData mode mtime w in
  match fst (fopen zFile "wb" w) with
  | None => out = ((1, pCtx), snd (fopen zFile "wb" w))
  | Some _ =>
      fst out = (0, count) \/ fst out = (2, pCtx)
      \/ (fst out = (1, count) /\ 0 <= mtime)
  end.
Proof.
  intros count out. subst out count. unfold writeFile, bind, ret.
  destruct (fopen zFile "wb" w) as [[h |] w1]; cbn [fst snd]; [| reflexivity].
  destruct (sqlite3_value_blob pData) as [z |] eqn:Hblob;
    [| rewrite (null_blob_has_no_bytes _ Hblob)];
    repeat (first [ next_call | split_if ]; cbv beta iota);
    cbn [fst];
    first [ left; reflexivity
          | right; left; reflexivity
          | right; right; split; [reflexivity | apply Z.geb_le; assumption] ].
Qed.

Lemma writeFile_context (pCtx : sqlite3_context) (zFile : string) (pData : sqlite3_value)
    (mode mtime : Z) (w w' : world) (res : Z) (c : sqlite3_context) :
  writeFile pCtx zFile pData mode mtime w = ((res, c), w') ->
  let count := sqlite3_result_int64 pCtx (sqlite3_value_bytes pData) in
  (res = 0 /\ c = count) \/ (res = 1 /\ c = pCtx) \/ (res = 2 /\ c = pCtx)
  \/ (res = 1 /\ c = count /\ 0 <= mtime).
Proof.
  intros Hrun count.
  pose proof (writeFile_codes pCtx zFile pData mode mtime w) as H. cbv zeta in H.
  rewrite Hrun in H.
  destruct (fst (fopen zFile "wb" w)).
  - cbn [fst] in H. destruct H as [[= -> ->] | [[= -> ->] | [[= -> ->] Hm]]]; auto 6.
  - injection H as -> -> _. auto.
Qed.

Lemma result_int64_twice (ctx : sqlite3_context) (n : Z) :
  sqlite3_result_int64 (sqlite3_result_int64 ctx n) n = sqlite3_result_int64 ctx n.
Proof. reflexivity. Qed.

(** What the write and its retry leave in the context. *)
Lemma write_or_retry_context (context : sqlite3_context) (zFile : string)
    (pData : sqlite3_value) (perm mtime : Z) (w w' : world) (res : Z) (c : sqlite3_context) :
  write_or_retry context zFile pData perm mtime w = ((res, c), w') ->
  (res = 0 -> c = sqlite3_result_int64 context (sqlite3_value_bytes pData))
  /\ (res <> 0 -> mtime < 0 -> c = context).
Proof.
  unfold write_or_retry, bind, errno, ret.
  destruct (writeFile context zFile pData perm mtime w) as [[res1 c1] w1] eqn:E1.
  pose proof (writeFile_context _ _ _ _ _ _ _ _ _ E1) as H1. cbv zeta in H1.
  destruct ((res1 =? 1) && (w_errno w1 =? ENOENT)) eqn:Eretry.
  - apply andb_prop in Eretry as [Hres1 _]. apply Z.eqb_eq in Hres1. subst res1.
    destruct (makeParentDirectory zFile w1) as [rc w2].
    destruct (rc =? SQLITE_OK).
    + intros E2.
      pose proof (writeFile_context _ _ _ _ _ _ _ _ _ E2) as H2. cbv zeta in H2.
      destruct H1 as [[? _] | [[_ ->] | [[? _] | (_ & -> & Hm)]]]; try discriminate.
      * destruct H2 as [[-> ->] | [[-> ->] | [[-> ->] | (-> & -> & Hm)]]];
          split; intros; try reflexivity; try lia; try contradiction.
      * rewrite result_int64_twice in H2.
        destruct H2 as [[-> ->] | [[-> ->] | [[-> ->] | (-> & -> & Hm')]]];
          split; intros; try reflexivity; try lia; try contradiction.
    + intros [= <- <- <-]. split; [discriminate |].
      intros _ Hm. destruct H1 as [[? _] | [[_ ->] | [[? _] | (_ & -> & Hm')]]];
        try discriminate; [reflexivity | lia].
  - intros [= <- <- <-].
    destruct H1 as [[-> ->] | [[-> ->] | [[-> ->] | (-> & -> & Hm)]]];
      split; intros; try reflexivity; try lia; try contradiction.
Qed.

(** ** Kinds and permission bits of entries *)

Lemma kind_bits (kind perm : Z) :
  Z.land kind S_IFMT = kind ->
  Z.land (Z.lor kind (Z.land perm o7777)) S_IFMT = kind.
Proof.
  intros Hk. rewrite Z.land_lor_distr_l, Hk, <- Z.land_assoc.
  change (Z.land o7777 S_IFMT) with 0. now rewrite Z.land_0_r, Z.lor_0_r.
Qed.

Lemma dir_is_dir (perm : Z) : S_ISDIR (st_mode_of (Dir perm)) = true.
Proof. unfold S_ISDIR, st_mode_of. now rewrite kind_bits. Qed.

Lemma reg_is_not_dir (perm mtime : Z) (data : list byte) :
  S_ISDIR (st_mode_of (Reg perm mtime data)) = false.
Proof. unfold S_ISDIR, st_mode_of. now rewrite kind_bits. Qed.

Lemma lnk_is_not_dir (t : string) : S_ISDIR (st_mode_of (Lnk t)) = false.
Proof. reflexivity. Qed.

Lemma only_dir_is_dir (n : node) :
  S_ISDIR (st_mode_of n) = true -> exists perm, n = Dir perm.
Proof.
  destruct n as [p m d | p | t]; intros H.
  - now rewrite reg_is_not_dir in H.
  - now exists p.
  - discriminate.
Qed.

Lemma dir_perm_bits (perm : Z) :
  Z.land (st_mode_of (Dir perm)) o777 = Z.land perm o777.
Proof.
  unfold st_mode_of. rewrite Z.land_lor_distr_l, <- Z.land_assoc.
  change (Z.land S_IFDIR o777) with 0. change (Z.land o7777 o777) with o777.
  apply Z.lor_0_l.
Qed.

Lemma chmod_bits (mode : Z) :
  Z.land (Z.land (Z.land mode o777) o7777) o777 = Z.land mode o777.
Proof.
  rewrite <- !Z.land_assoc. change (Z.land o7777 o777) with o777.
  change (Z.land o777 o777) with o777. reflexivity.
Qed.

(** ** Path lookup under updates *)

Lemma fs_get_insert_ne (fs : gmap string node) (p q : string) (n : node) :
  p <> q -> fs_get (<[q := n]> fs) p = fs_get fs p.
Proof.
  intros Hne. unfold fs_get.
  destruct (String.eqb p ""); [reflexivity |].
  destruct (String.eqb p "/"); [reflexivity |].
  now rewrite lookup_insert_ne.
Qed.

Lemma fs_get_insert_eq (fs : gmap string node) (q : string) (n : node) :
  q <> "" -> q <> "/" -> fs_get (<[q := n]> fs) q = Some n.
Proof.
  intros H1 H2. unfold fs_get.
  destruct (String.eqb_spec q ""); [contradiction |].
  destruct (String.eqb_spec q "/"); [contradiction |].
  apply lookup_insert_eq.
Qed.

Lemma fs_get_some_nonempty (fs : gmap string node) (p : string) (n : node) :
  fs_get fs p = Some n -> p <> "".
Proof. intros H ->. discriminate. Qed.

Lemma resolve_from_target (hops : nat) (fs : gmap string node) (p q : string) :
  resolve_from hops fs p = Some q -> is_link (fs_get fs q) = false.
Proof.
  revert p. induction hops as [| h IH]; intros p; cbn; [discriminate |].
  destruct (fs_get fs p) as [[pm mt d | pm | t] |] eqn:E; try (intros [= <-]; now rewrite E).
  apply IH.
Qed.

(** Replacing the entry a path resolves to by one that is not a link leaves
    the resolution of every path that reached it as it was. *)
Lemma resolve_from_insert (hops : nat) (fs : gmap string node) (p q : string) (n : node) :
  resolve_from hops fs p = Some q ->
  is_link (Some n) = false ->
  resolve_from hops (<[q := n]> fs) p = Some q.
Proof.
  intros Hres Hn. pose proof (resolve_from_target _ _ _ _ Hres) as Hq.
  revert p Hres. induction hops as [| h IH]; intros p; cbn; [discriminate |].
  destruct (String.eqb_spec p q) as [-> | Hne].
  - destruct (fs_get fs q) as [[pm mt d | pm | t] |] eqn:E; try discriminate Hq; intros _.
    all: unfold fs_get in *;
      destruct (String.eqb q ""); [reflexivity |];
      destruct (String.eqb q "/"); [reflexivity |];
      rewrite lookup_insert_eq; destruct n; try discriminate Hn; reflexivity.
  - rewrite fs_get_insert_ne by assumption.
    destruct (fs_get fs p) as [[pm mt d | pm | t] |]; try (intros H; exact H).
    apply IH.
Qed.

Lemma resolve_insert (fs : gmap string node) (p q : string) (n : node) :
  resolve fs p = Some q -> is_link (Some n) = false ->
  resolve (<[q := n]> fs) p = Some q.
Proof. apply resolve_from_insert. Qed.

(** A path that holds an entry which is not a link resolves to itself. *)
Lemma resolve_self (fs : gmap string node) (p : string) :
  is_link (fs_get fs p) = false -> resolve fs p = Some p.
Proof.
  unfold resolve, MAXSYMLINKS. cbn [resolve_from].
  destruct (fs_get fs p) as [[pm mt d | pm | t] |]; try reflexivity. discriminate.
Qed.

(** The path itself holds an entry whenever it resolves to one. *)
Lemma resolve_from_some (hops : nat) (fs : gmap string node) (p q : string) (n : node) :
  resolve_from hops fs p = Some q -> fs_get fs q = Some n ->
  exists n', fs_get fs p = Some n'.
Proof.
  destruct hops as [| h]; cbn; [discriminate |].
  destruct (fs_get fs p) as [[pm mt d | pm | t] |] eqn:E; eauto.
  intros [= <-] Hn. rewrite Hn in E. discriminate.
Qed.

(** ** The calls on paths: what they return and what they change *)

Lemma enter_decision (c : call) (w : world) :
  enter c w = (decision 0 w, entered c w).
Proof. unfold decision, entered, enter. cbn [snd]. destruct (w_faults w); reflexivity. Qed.

Lemma entered_faults (c : call) (w : world) : w_faults (entered c w) = tl (w_faults w).
Proof. reflexivity. Qed.

Lemma quiet_unrefused (w : world) : w_faults w = [] -> unrefused w.
Proof. unfold unrefused, decision. now intros ->. Qed.

Lemma sys_mkdir_inv (path : string) (mode : Z) (w w' : world) (r : Z) :
  sys_mkdir path mode w = (r, w') ->
  w_trace w' = w_trace w ++ [CallMkdir path mode]
  /\ w_faults w' = tl (w_faults w)
  /\ w_umask w' = w_umask w
  /\ ((r = 0 /\ path <> "" /\ fs_get (w_fs w) path = None
       /\ w_fs w' = <[path := Dir (Z.land (Z.land mode o777) (Z.lnot (w_umask w)))]> (w_fs w))
      \/ (r = -1 /\ w_fs w' = w_fs w)).
Proof.
  unfold sys_mkdir, bind. rewrite enter_decision.
  destruct (decision 0 w) as [fl |].
  { intros [= <- <-]. cbn. auto 10. }
  unfold get_fs. cbn [w_fs entered enter snd].
  destruct (String.eqb_spec path "") as [-> | Hne].
  { intros [= <- <-]. cbn. auto 10. }
  destruct (fs_get (w_fs w) path) eqn:Hget.
  { intros [= <- <-]. cbn. auto 10. }
  destruct (parent_errno (w_fs w) path).
  { intros [= <- <-]. cbn. auto 10. }
  intros [= <- <-]. cbn. auto 10.
Qed.

Lemma sys_mkdir_exists (path : string) (mode : Z) (w : world) (n : node) :
  unrefused w -> fs_get (w_fs w) path = Some n ->
  sys_mkdir path mode w = (-1, set_errno EEXIST (entered (CallMkdir path mode) w)).
Proof.
  intros Hq Hget. unfold sys_mkdir, bind. rewrite enter_decision, Hq.
  unfold get_fs. cbn [w_fs entered enter snd].
  destruct (String.eqb_spec path "") as [-> | Hne]; [discriminate |].
  now rewrite Hget.
Qed.

Lemma sys_stat_inv (path : string) (w w' : world) (o : option struct_stat) :
  sys_stat path w = (o, w') ->
  w_trace w' = w_trace w ++ [CallStat path]
  /\ w_faults w' = tl (w_faults w)
  /\ w_umask w' = w_umask w
  /\ w_fs w' = w_fs w
  /\ (forall st, o = Some st ->
        exists q n, resolve (w_fs w) path = Some q /\ fs_get (w_fs w) q = Some n
                    /\ st_mode st = st_mode_of n).
Proof.
  unfold sys_stat, bind. rewrite enter_decision.
  destruct (decision 0 w) as [fl |].
  { intros [= <- <-]. cbn. repeat split; auto. discriminate. }
  unfold get_fs. cbn [w_fs entered enter snd].
  destruct (resolve (w_fs w) path) as [q |] eqn:Hres.
  2:{ intros [= <- <-]. cbn. repeat split; auto. discriminate. }
  destruct (fs_get (w_fs w) q) as [n |] eqn:Hget.
  2:{ intros [= <- <-]. cbn. repeat split; auto. discriminate. }
  intros [= <- <-]. cbn. repeat split; auto.
  intros st [= <-]. exists q, n. auto.
Qed.

Lemma sys_stat_found (path q : string) (w : world) (n : node) :
  unrefused w -> resolve (w_fs w) path = Some q -> fs_get (w_fs w) q = Some n ->
  sys_stat path w = (Some {| st_mode := st_mode_of n |}, entered (CallStat path) w).
Proof.
  intros Hq Hres Hget. unfold sys_stat, bind. rewrite enter_decision, Hq.
  unfold get_fs. cbn [w_fs entered enter snd]. now rewrite Hres, Hget.
Qed.

Lemma sys_chmod_inv (path : string) (mode : Z) (w w' : world) (r : Z) :
  sys_chmod path mode w = (r, w') ->
  w_trace w' = w_trace w ++ [CallChmod path mode]
  /\ w_faults w' = tl (w_faults w)
  /\ w_umask w' = w_umask w
  /\ ((r = 0 /\ exists q, resolve (w_fs w) path = Some q /\ q <> "/" /\
         ((exists p mt d, fs_get (w_fs w) q = Some (Reg p mt d)
             /\ w_fs w' = <[q := Reg (Z.land mode o7777) mt d]> (w_fs w))
          \/ (exists p, fs_get (w_fs w) q = Some (Dir p)
                /\ w_fs w' = <[q := Dir (Z.land mode o7777)]> (w_fs w))))
      \/ (r = -1 /\ w_fs w' = w_fs w)).
Proof.
  unfold sys_chmod, bind. rewrite enter_decision.
  destruct (decision 0 w) as [fl |].
  { intros [= <- <-]. cbn. auto 10. }
  unfold get_fs. cbn [w_fs entered enter snd].
  destruct (resolve (w_fs w) path) as [q |] eqn:Hres.
  2:{ intros [= <- <-]. cbn. auto 10. }
  destruct (fs_get (w_fs w) q) as [[p mt d | p | t] |] eqn:Hget.
  - intros [= <- <-]. cbn. repeat split; auto. left. split; [reflexivity |].
    exists q. repeat split; auto.
    + intros ->. discriminate.
    + left. eauto.
  - destruct (String.eqb_spec q "/") as [-> | Hne].
    { intros [= <- <-]. cbn. auto 10. }
    intros [= <- <-]. cbn. repeat split; auto. left. split; [reflexivity |].
    exists q. repeat split; auto. right. eauto.
  - intros [= <- <-]. cbn. auto 10.
  - intros [= <- <-]. cbn. auto 10.
Qed.

Lemma sys_chmod_dir (path q : string) (mode p : Z) (w : world) :
  unrefused w -> resolve (w_fs w) path = Some q -> fs_get (w_fs w) q = Some (Dir p) ->
  q <> "/" ->
  sys_chmod path mode w
  = (0, set_fs (<[q := Dir (Z.land mode o7777)]> (w_fs w)) (entered (CallChmod path mode) w)).
Proof.
  intros Hq Hres Hget Hroot. unfold sys_chmod, bind. rewrite enter_decision, Hq.
  unfold get_fs. cbn [w_fs entered enter snd]. rewrite Hres, Hget.
  destruct (String.eqb_spec q "/"); [contradiction | reflexivity].
Qed.

(** ** [makeDirectory] on an existing directory *)

(** After a successful [makeDirectory] the path leads to a directory whose
    permission bits are the requested ones, or which is ours to change. *)
Lemma makeDirectory_leaves_directory (ctx : sqlite3_context) (path : string) (mode : Z)
    (w w1 : world) :
  makeDirectory ctx path mode w = (0, w1) ->
  exists q p, resolve (w_fs w1) path = Some q /\ fs_get (w_fs w1) q = Some (Dir p)
              /\ (Z.land p o777 = Z.land mode o777 \/ q <> "/").
Proof.
  unfold makeDirectory, bind, errno, fileStat.
  destruct (sys_mkdir path mode w) as [r wa] eqn:Hmk.
  apply sys_mkdir_inv in Hmk as (_ & _ & _ & Hmk).
  destruct Hmk as [(-> & Hne & Hfree & Hfs) | (-> & Hfs)]; cbn [Z.eqb negb].
  - intros [= <-]. exists path, (Z.land (Z.land mode o777) (Z.lnot (w_umask w))).
    assert (path <> "/") as Hroot.
    { intros ->. discriminate. }
    rewrite Hfs.
    assert (Hget : fs_get (<[path := Dir (Z.land (Z.land mode o777) (Z.lnot (w_umask w)))]> (w_fs w)) path
                   = Some (Dir (Z.land (Z.land mode o777) (Z.lnot (w_umask w)))))
      by now apply fs_get_insert_eq.
    split; [apply resolve_self; now rewrite Hget |]. split; [exact Hget | now right].
  - destruct (negb (w_errno wa =? EEXIST)); [discriminate |].
    destruct (sys_stat path wa) as [[st |] wb] eqn:Hst; [| discriminate].
    apply sys_stat_inv in Hst as (_ & _ & _ & Hfsb & Hfound).
    destruct (Hfound st eq_refl) as (q & n & Hres & Hget & Hmode).
    rewrite Hmode. destruct (S_ISDIR (st_mode_of n)) eqn:Hdir; [| discriminate].
    apply only_dir_is_dir in Hdir as [p ->]. cbn [negb].
    rewrite dir_perm_bits.
    destruct (Z.eqb_spec (Z.land p o777) (Z.land mode o777)) as [Heq | Hneq]; cbn [negb].
    + intros [= <-]. exists q, p. rewrite Hfsb. auto.
    + destruct (sys_chmod path (Z.land mode o777) wb) as [r wc] eqn:Hch.
      apply sys_chmod_inv in Hch as (_ & _ & _ & Hch).
      destruct Hch as [(-> & q' & Hres' & Hroot & Hupd) | (-> & _)]; [| discriminate].
      intros [= <-]. rewrite Hfsb in *. rewrite Hres in Hres'. injection Hres' as <-.
      destruct Hupd as [(p' & mt & d & Hreg & _) | (p' & _ & Hfsc)]; [congruence |].
      exists q, (Z.land (Z.land mode o777) o7777). rewrite Hfsc.
      split; [now apply resolve_insert |].
      split; [| now right].
      apply fs_get_insert_eq; [eapply fs_get_some_nonempty; eassumption | assumption].
Qed.

(** With nothing refused, [makeDirectory] succeeds on such a path. *)
Lemma makeDirectory_on_directory (ctx : sqlite3_context) (path q : string) (mode p : Z)
    (w : world) :
  w_faults w = [] ->
  resolve (w_fs w) path = Some q -> fs_get (w_fs w) q = Some (Dir p) ->
  (Z.land p o777 = Z.land mode o777 \/ q <> "/") ->
  fst (makeDirectory ctx path mode w) = 0.
Proof.
  intros Hquiet Hres Hget Hbits.
  destruct (resolve_from_some _ _ _ _ _ Hres Hget) as [n Hpath].
  unfold makeDirectory, bind, errno, fileStat.
  rewrite (sys_mkdir_exists path mode w n) by (auto using quiet_unrefused).
  cbn [Z.eqb negb w_errno set_errno].
  set (wa := set_errno EEXIST _).
  assert (Hqa : w_faults wa = []) by (cbn; now rewrite Hquiet).
  rewrite Z.eqb_refl. cbn [negb]. cbv beta.
  rewrite (sys_stat_found path q wa (Dir p)) by (auto using quiet_unrefused).
  cbn [st_mode]. rewrite dir_is_dir, dir_perm_bits. cbn [negb].
  destruct (Z.eqb_spec (Z.land p o777) (Z.land mode o777)) as [Heq | Hneq]; cbn [negb];
    [reflexivity |].
  destruct Hbits as [Heq | Hroot]; [contradiction |].
  set (wb := entered _ wa).
  assert (Hqb : w_faults wb = []) by (cbn; now rewrite Hquiet).
  rewrite (sys_chmod_dir path q (Z.land mode o777) p wb) by (auto using quiet_unrefused).
  reflexivity.
Qed.

Lemma makeDirectory_on_regular_file (ctx : sqlite3_context) (path : string) (mode : Z)
    (w : world) (perm mtime : Z) (data : list byte) :
  fs_get (w_fs w) path = Some (Reg perm mtime data) ->
  fst (makeDirectory ctx path mode w) = 1.
Proof.
  intros Hreg. unfold makeDirectory, bind, errno, fileStat.
  destruct (sys_mkdir path mode w) as [r wa] eqn:Hmk.
  apply sys_mkdir_inv in Hmk as (_ & _ & _ & Hmk).
  destruct Hmk as [(-> & _ & Hfree & _) | (-> & Hfs)]; [congruence |]. cbn [Z.eqb negb].
  destruct (negb (w_errno wa =? EEXIST)); [reflexivity |].
  destruct (sys_stat path wa) as [[st |] wb] eqn:Hst; [| reflexivity].
  apply sys_stat_inv in Hst as (_ & _ & _ & _ & Hfound).
  destruct (Hfound st eq_refl) as (q & n & Hres & Hget & Hmode).
  rewrite Hfs in *. rewrite resolve_self in Hres by now rewrite Hreg.
  injection Hres as <-. rewrite Hreg in Hget. injection Hget as <-.
  rewrite Hmode, reg_is_not_dir. reflexivity.
Qed.

(** ** Traces *)

Lemma count_calls_app (f : call -> bool) (tr new : list call) :
  count_calls f (tr ++ new) = (count_calls f tr + count_calls f new)%nat.
Proof. unfold count_calls. now rewrite List.filter_app, length_app. Qed.

Lemma count_plain (new : list call) :
  forallb plain new = true ->
  count_calls opens_for_writing new = 0%nat /\ count_calls starts_builder new = 0%nat.
Proof.
  unfold count_calls. induction new as [| c new IH]; cbn; [auto |].
  intros H. apply andb_prop in H as [Hc Hnew]. destruct (IH Hnew) as [IH1 IH2].
  unfold plain in Hc. apply andb_prop in Hc as [H1 H2].
  apply negb_true_iff in H1, H2. now rewrite H1, H2.
Qed.

Lemma appends_ret {A} (a : A) : appends_plain (ret a).
Proof. intros w. exists []. cbn. now rewrite app_nil_r. Qed.

Lemma appends_bind {A B} (m : M A) (k : A -> M B) :
  appends_plain m -> (forall a, appends_plain (k a)) -> appends_plain (bind m k).
Proof.
  intros Hm Hk w. unfold bind. destruct (Hm w) as (n1 & E1 & P1).
  destruct (m w) as [a w1]. cbn [snd] in E1.
  destruct (Hk a w1) as (n2 & E2 & P2).
  exists (n1 ++ n2). rewrite E2, E1, app_assoc. split; [reflexivity |].
  rewrite forallb_app. now rewrite P1, P2.
Qed.

Lemma appends_enter (c : call) : plain c = true -> appends_plain (enter c).
Proof. intros Hc w. exists [c]. cbn. now rewrite Hc. Qed.

Lemma appends_note (c : call) : plain c = true -> appends_plain (note c).
Proof. intros Hc w. exists [c]. cbn. now rewrite Hc. Qed.

Lemma appends_fails {A} (e : Z) (a : A) : appends_plain (fails e a).
Proof. intros w. exists []. cbn. now rewrite app_nil_r. Qed.

Lemma appends_get_fs : appends_plain get_fs.
Proof. intros w. exists []. cbn. now rewrite app_nil_r. Qed.

Lemma appends_put_fs (fs : gmap string node) : appends_plain (put_fs fs).
Proof. intros w. exists []. cbn. now rewrite app_nil_r. Qed.

Lemma appends_errno : appends_plain errno.
Proof. intros w. exists []. cbn. now rewrite app_nil_r. Qed.

Lemma appends_umask : appends_plain umask.
Proof. intros w. exists []. cbn. now rewrite app_nil_r. Qed.

(** Decompose a computation into the calls it is made of. *)
Ltac appends :=
  repeat first
    [ apply appends_ret | apply appends_fails | apply appends_get_fs
    | apply appends_put_fs | apply appends_errno | apply appends_umask
    | apply appends_enter; reflexivity | apply appends_note; reflexivity
    | apply appends_bind; [| intros ?]
    | match goal with
      | |- appends_plain (match ?x with _ => _ end) => destruct x
      | |- appends_plain (let (_, _) := ?x in _) => destruct x
      end ].

Lemma appends_stat (path : string) : appends_plain (sys_stat path).
Proof. unfold sys_stat. appends. Qed.

Lemma appends_mkdir (path : string) (mode : Z) : appends_plain (sys_mkdir path mode).
Proof. unfold sys_mkdir. appends. Qed.

Lemma appends_chmod (path : string) (mode : Z) : appends_plain (sys_chmod path mode).
Proof. unfold sys_chmod. appends. Qed.

Lemma appends_utimes (path : string) (mtime : Z) : appends_plain (sys_utimes path mtime).
Proof. unfold sys_utimes. appends. Qed.

Lemma appends_fwrite (z : list byte) (n : Z) (h : FILE) : appends_plain (fwrite z n h).
Proof. unfold fwrite. appends. Qed.

Lemma appends_fclose (h : FILE) : appends_plain (fclose h).
Proof. unfold fclose. appends. Qed.

Lemma appends_free : appends_plain sqlite3_free.
Proof. unfold sqlite3_free. appends. Qed.

Lemma appends_parent_loop (fuel : nat) (zCopy : string) (nCopy i : nat) (rc : Z) :
  appends_plain (parent_loop fuel zCopy nCopy i rc).
Proof.
  revert i rc. induction fuel as [| fuel IH]; intros i rc; cbn [parent_loop]; [appends |].
  destruct (negb (rc =? SQLITE_OK)); [appends |].
  destruct (_ =? nCopy)%nat; [appends |].
  apply appends_bind; [apply appends_stat | intros rc2].
  apply appends_bind; [| intros rc'; apply IH].
  destruct rc2; [appends |].
  apply appends_bind; [apply appends_mkdir | intros r; appends].
Qed.

Lemma fopen_wb_trace (path : string) (w : world) :
  w_trace (snd (fopen path "wb" w)) = w_trace w ++ [CallFopen path "wb"].
Proof.
  rewrite fopen_wb_eq. unfold fopen_wb, bind. rewrite enter_decision.
  destruct (decision 0 w); [reflexivity |].
  unfold get_fs. cbn [w_fs entered enter snd].
  destruct (resolve (w_fs w) path) as [q |]; [| reflexivity].
  destruct (fs_get (w_fs w) q) as [[p mt d | p | t] |]; try reflexivity.
  destruct (String.eqb q ""); [reflexivity |].
  destruct (parent_errno (w_fs w) q); reflexivity.
Qed.

(** An attempt to write opens the file once; its other calls are plain. *)
Lemma writeFile_trace (pCtx : sqlite3_context) (zFile : string) (pData : sqlite3_value)
    (mode mtime : Z) (w : world) :
  exists rest,
    w_trace (snd (writeFile pCtx zFile pData mode mtime w))
    = w_trace w ++ CallFopen zFile "wb" :: rest
    /\ forallb plain rest = true.
Proof.
  unfold writeFile. unfold bind at 1.
  pose proof (fopen_wb_trace zFile w) as Hopen.
  destruct (fopen zFile "wb" w) as [[out |] w1]; cbn [snd] in Hopen.
  2:{ exists []. cbn. now rewrite Hopen. }
  match goal with |- context [snd (?m w1)] => assert (appends_plain m) as Hrest end.
  { apply appends_bind.
    - destruct (sqlite3_value_blob pData); [| appends].
      apply appends_bind; [apply appends_fwrite | intros n; appends].
    - intros [nWrite rc].
      apply appends_bind; [apply appends_fclose | intros _].
      apply appends_bind.
      + destruct ((rc =? 0) && negb (mode =? 0)); [| appends].
        apply appends_bind; [apply appends_chmod | intros r; appends].
      + intros rc'. destruct (negb (rc' =? 0)); [appends |].
        destruct (mtime >=? 0); [| appends].
        apply appends_bind; [apply appends_utimes | intros r].
        destruct (negb (r =? 0)); appends. }
  destruct (Hrest w1) as (rest & E & P). exists rest.
  rewrite E, Hopen, <- app_assoc. auto.
Qed.

(** The Directory Builder starts with its copy of the path; its other
    calls are plain. *)
Lemma makeParentDirectory_trace (zFile : string) (w : world) :
  exists rest,
    w_trace (snd (makeParentDirectory zFile w)) = w_trace w ++ CallMprintf zFile :: rest
    /\ forallb plain rest = true.
Proof.
  unfold makeParentDirectory. unfold bind at 1. unfold sqlite3_mprintf at 1.
  unfold bind at 1. rewrite enter_decision.
  destruct (decision 0 w).
  { exists []. cbn. auto. }
  cbn [ret].
  match goal with |- context [snd (?m (entered _ w))] => assert (appends_plain m) as Hrest end.
  { apply appends_bind; [apply appends_parent_loop | intros rc].
    apply appends_bind; [apply appends_free | intros _; appends]. }
  destruct (Hrest (entered (CallMprintf zFile) w)) as (rest & E & P). exists rest.
  rewrite E. cbn. rewrite <- app_assoc. auto.
Qed.

Lemma count_calls_cons (f : call -> bool) (c : call) (tr : list call) :
  count_calls f (c :: tr) = ((if f c then 1 else 0) + count_calls f tr)%nat.
Proof. unfold count_calls. cbn. now destruct (f c). Qed.

Lemma count_calls_nil (f : call -> bool) : count_calls f [] = 0%nat.
Proof. reflexivity. Qed.

(** The calls of [write_or_retry]: an attempt, then, if triggered, the
    Directory Builder, then, if that succeeded, a second attempt. *)
Lemma write_or_retry_trace (context : sqlite3_context) (zFile : string)
    (pData : sqlite3_value) (perm mtime : Z) (w : world) :
  let first := writeFile context zFile pData perm mtime w in
  let triggered := (fst (fst first) =? 1) && (w_errno (snd first) =? ENOENT) in
  let built := fst (makeParentDirectory zFile (snd first)) =? SQLITE_OK in
  exists r1 r2 r3,
    w_trace (snd (write_or_retry context zFile pData perm mtime w))
    = w_trace w ++ CallFopen zFile "wb" :: r1
        ++ (if triggered
            then CallMprintf zFile :: r2
                   ++ (if built then CallFopen zFile "wb" :: r3 else [])
            else [])
    /\ forallb plain r1 = true /\ forallb plain r2 = true /\ forallb plain r3 = true.
Proof.
  intros first triggered built. subst triggered built first.
  unfold write_or_retry, bind, errno.
  destruct (writeFile_trace context zFile pData perm mtime w) as (r1 & E1 & P1).
  destruct (writeFile context zFile pData perm mtime w) as [[res c] wa]. cbn [fst snd] in *.
  destruct ((res =? 1) && (w_errno wa =? ENOENT)).
  - destruct (makeParentDirectory_trace zFile wa) as (r2 & E2 & P2).
    destruct (makeParentDirectory zFile wa) as [rc wb]. cbn [fst snd] in *.
    destruct (rc =? SQLITE_OK).
    + destruct (writeFile_trace c zFile pData perm mtime wb) as (r3 & E3 & P3).
      exists r1, r2, r3. rewrite E3, E2, E1.
      split; [| auto]. now rewrite <- !app_assoc.
    + exists r1, r2, []. cbn [snd ret]. rewrite E2, E1.
      split; [| auto]. rewrite app_nil_r. now rewrite <- !app_assoc.
  - exists r1, [], []. cbn [snd ret]. rewrite E1, app_nil_r. auto.
Qed.

(** ** Strings as C buffers *)

Lemma append_cons (c : ascii) (a b : string) : String c a +:+ b = String c (a +:+ b).
Proof. reflexivity. Qed.

Lemma append_nil (b : string) : EmptyString +:+ b = b.
Proof. reflexivity. Qed.

Lemma length_append (a b : string) :
  String.length (a +:+ b) = (String.length a + String.length b)%nat.
Proof.
  induction a as [| c a IH]; [reflexivity |].
  rewrite append_cons. cbn [String.length]. now rewrite IH.
Qed.

Lemma substring_done (a b : string) : substring 0 (String.length a) (a +:+ b) = a.
Proof.
  induction a as [| c a IH].
  - rewrite append_nil. now destruct b.
  - rewrite append_cons. cbn [String.length substring]. now rewrite IH.
Qed.

Lemma byte_at_split (a : string) (c : ascii) (r : string) :
  byte_at (a +:+ String c r) (String.length a) = c.
Proof.
  unfold byte_at. induction a as [| c' a IH]; [reflexivity |].
  rewrite append_cons. cbn [String.length String.get]. exact IH.
Qed.

Lemma append_char (a : string) (c : ascii) (r : string) :
  a +:+ String c r = (a +:+ String c EmptyString) +:+ r.
Proof.
  induction a as [| c' a IH]; [reflexivity |].
  rewrite !append_cons. now rewrite IH.
Qed.

Lemma length_append_char (a : string) (c : ascii) :
  String.length (a +:+ String c EmptyString) = S (String.length a).
Proof. rewrite length_append. cbn [String.length]. lia. Qed.

(** ** The loop of [makeParentDirectory] *)

Lemma next_slash_stops (steps : nat) (zCopy : string) (nCopy i : nat) :
  is_slash (byte_at zCopy i) = true -> next_slash steps zCopy nCopy i = i.
Proof. intros H. destruct steps; [reflexivity |]. cbn [next_slash]. now rewrite H. Qed.

Lemma next_slash_end (steps : nat) (zCopy : string) (nCopy : nat) :
  next_slash steps zCopy nCopy nCopy = nCopy.
Proof.
  destruct steps; [reflexivity |]. cbn [next_slash].
  rewrite Nat.ltb_irrefl. now rewrite andb_false_r.
Qed.

Lemma next_slash_skips (zCopy : string) (nCopy i : nat) :
  is_slash (byte_at zCopy i) = false -> (i < nCopy)%nat ->
  next_slash (nCopy - i) zCopy nCopy i = next_slash (nCopy - S i) zCopy nCopy (S i).
Proof.
  intros Hc Hi. replace (nCopy - i)%nat with (S (nCopy - S i)) by lia.
  cbn [next_slash]. rewrite Hc. cbn [negb andb].
  destruct (Nat.ltb_spec i nCopy); [reflexivity | lia].
Qed.

(** Once [rc] is an error the loop is over. *)
Lemma parent_loop_error (fuel : nat) (zCopy : string) (nCopy i : nat) (w : world) :
  parent_loop fuel zCopy nCopy i SQLITE_ERROR w = (SQLITE_ERROR, w).
Proof. destruct fuel; reflexivity. Qed.

(** The loop, started at a split of the path, visits the ancestor prefixes
    the remainder gives rise to; the fuel is not exhausted. *)
Lemma parent_loop_refines (rest : string) :
  forall (done : string) (fuel : nat) (w : world),
    (String.length rest < fuel)%nat ->
    parent_loop fuel (done +:+ rest) (String.length (done +:+ rest))
      (String.length done) SQLITE_OK w
    = ensure_parents_spec (prefixes_from done rest) w.
Proof.
  induction rest as [| c r IH]; intros done fuel w Hfuel.
  - destruct fuel as [| fuel]; [cbn in Hfuel; lia |].
    cbn [parent_loop prefixes_from ensure_parents_spec Z.eqb negb SQLITE_OK].
    rewrite length_append. cbn [String.length]. rewrite Nat.add_0_r.
    rewrite next_slash_end, Nat.eqb_refl. reflexivity.
  - destruct fuel as [| fuel]; [cbn in Hfuel; lia |].
    cbn [String.length] in Hfuel.
    assert (Hlen : (String.length done < String.length (done +:+ String c r))%nat)
      by (rewrite length_append; cbn; lia).
    cbn [prefixes_from].
    destruct (is_slash c) eqn:Hc.
    + cbn [parent_loop Z.eqb negb SQLITE_OK].
      rewrite next_slash_stops by now rewrite byte_at_split.
      destruct (Nat.eqb_spec (String.length done) (String.length (done +:+ String c r)));
        [lia |].
      rewrite substring_done. cbn [app ensure_parents_spec].
      unfold bind. destruct (fileStat done w) as [[s |] w1].
      * destruct (S_ISDIR (st_mode s)); cbn [negb ret].
        -- rewrite append_char. rewrite <- length_append_char with (c := c).
           apply IH. lia.
        -- apply parent_loop_error.
      * destruct (sys_mkdir done o777 w1) as [m w2].
        destruct (m =? 0); cbn [negb ret].
        -- rewrite append_char. rewrite <- length_append_char with (c := c).
           apply IH. lia.
        -- apply parent_loop_error.
    + cbn [app]. rewrite <- (IH (done +:+ String c EmptyString) (S fuel) w) by lia.
      rewrite <- append_char, length_append_char.
      cbn [parent_loop Z.eqb negb SQLITE_OK].
      rewrite next_slash_skips; [reflexivity | now rewrite byte_at_split | assumption].
Qed.

(** ** Ancestor prefixes *)

Lemma prefixes_from_are_prefixes (rest : string) :
  forall (done p : string), In p (prefixes_from done rest) ->
    exists r, done +:+ rest = p +:+ String "/" r.
Proof.
  induction rest as [| c r IH]; intros done p; cbn [prefixes_from]; [intros [] |].
  rewrite in_app_iff. intros [Hhere | Hlater].
  - destruct (is_slash c) eqn:Hc; [| destruct Hhere].
    destruct Hhere as [<- | []]. exists r.
    unfold is_slash in Hc. apply Ascii.eqb_eq in Hc. now subst c.
  - destruct (IH _ _ Hlater) as [r' Hr']. exists r'. now rewrite append_char.
Qed.

Lemma ancestors_are_prefixes (zFile p : string) :
  In p (ancestors zFile) -> exists r, zFile = p +:+ String "/" r.
Proof.
  destruct zFile as [| c r]; cbn [ancestors]; [intros [] |].
  intros Hin. apply prefixes_from_are_prefixes in Hin. exact Hin.
Qed.

Lemma path_not_its_ancestor (zFile : string) : ~ In zFile (ancestors zFile).
Proof.
  intros Hin. apply ancestors_are_prefixes in Hin as [r Hr].
  apply (f_equal String.length) in Hr. rewrite length_append in Hr.
  cbn [String.length] in Hr. lia.
Qed.

(** ** Effects of the Directory Builder on the file system *)

Lemma fs_get_none_lookup (fs : gmap string node) (p : string) :
  fs_get fs p = None -> p <> "" -> fs !! p = None.
Proof.
  unfold fs_get. intros H Hne.
  destruct (String.eqb_spec p ""); [contradiction |].
  destruct (String.eqb p "/"); [discriminate | assumption].
Qed.

Lemma sys_stat_empty (w : world) : fst (sys_stat "" w) = None.
Proof.
  unfold sys_stat, bind. rewrite enter_decision.
  destruct (decision 0 w); reflexivity.
Qed.

Lemma ensure_parents_effect (ps : list string) :
  forall w,
    (forall q n, w_fs w !! q = Some n ->
       w_fs (snd (ensure_parents_spec ps w)) !! q = Some n)
    /\ (forall q, w_fs w !! q = None ->
          w_fs (snd (ensure_parents_spec ps w)) !! q <> None ->
          In q ps /\ exists perm, w_fs (snd (ensure_parents_spec ps w)) !! q = Some (Dir perm)).
Proof.
  induction ps as [| p ps IH]; intros w; cbn [ensure_parents_spec].
  { split; [auto | intros q Hq Hq'; cbn in Hq'; contradiction]. }
  unfold bind, fileStat.
  destruct (sys_stat p w) as [[s |] w1] eqn:Hst;
    apply sys_stat_inv in Hst as (_ & _ & _ & Hfs1 & _).
  - destruct (S_ISDIR (st_mode s)).
    + destruct (IH w1) as [Hkeep Hnew]. rewrite Hfs1 in *. split; [exact Hkeep |].
      intros q Hq Hq'. destruct (Hnew q Hq Hq') as [Hin Hdir]. split; [now right | exact Hdir].
    + cbn [snd ret]. rewrite Hfs1. split; [auto | intros q Hq Hq'; contradiction].
  - destruct (sys_mkdir p o777 w1) as [r w2] eqn:Hmk.
    apply sys_mkdir_inv in Hmk as (_ & _ & _ & Hmk). rewrite Hfs1 in Hmk.
    destruct Hmk as [(-> & Hne & Hfree & Hfs2) | (-> & Hfs2)]; cbn [Z.eqb].
    + apply fs_get_none_lookup in Hfree; [| assumption].
      destruct (IH w2) as [Hkeep Hnew]. rewrite Hfs2 in *. split.
      * intros q n Hq. apply Hkeep. rewrite lookup_insert_ne; [assumption | congruence].
      * intros q Hq Hq'. destruct (decide (p = q)) as [<- | Hpq].
        -- split; [now left |]. eexists. apply Hkeep. apply lookup_insert_eq.
        -- destruct (Hnew q) as [Hin Hdir]; [now rewrite lookup_insert_ne | assumption |].
           split; [now right | exact Hdir].
    + cbn [snd ret]. rewrite Hfs2. split; [auto | intros q Hq Hq'; contradiction].
Qed.

Lemma resolve_from_fresh (hops : nat) (fs : gmap string node) (p0 : string) (x : node) :
  fs_get fs p0 = None ->
  forall p q n, resolve_from hops fs p = Some q -> fs_get fs q = Some n ->
    resolve_from hops (<[p0 := x]> fs) p = Some q /\ fs_get (<[p0 := x]> fs) q = Some n.
Proof.
  intros Hfree. induction hops as [| h IH]; intros p q n; cbn [resolve_from]; [discriminate |].
  destruct (fs_get fs p) as [nd |] eqn:Hp.
  - assert (p <> p0) as Hne by congruence.
    rewrite fs_get_insert_ne, Hp by assumption.
    destruct nd as [pm mt d | pm | t].
    + intros [= <-] Hq. now rewrite fs_get_insert_ne.
    + intros [= <-] Hq. now rewrite fs_get_insert_ne.
    + apply IH.
  - intros [= <-] Hq. congruence.
Qed.

Lemma not_a_directory_fresh (fs : gmap string node) (p0 p : string) (x : node) :
  fs_get fs p0 = None -> not_a_directory fs p -> not_a_directory (<[p0 := x]> fs) p.
Proof.
  intros Hfree (q & n & Hres & Hget & Hkind).
  destruct (resolve_from_fresh _ _ _ x Hfree _ _ _ Hres Hget) as [Hres' Hget'].
  exists q, n. auto.
Qed.

Lemma ensure_parents_not_dir (ps : list string) :
  forall w p, In p ps -> not_a_directory (w_fs w) p ->
    fst (ensure_parents_spec ps w) = SQLITE_ERROR.
Proof.
  induction ps as [| p0 ps IH]; intros w p Hin Hnd; [destruct Hin |].
  cbn [ensure_parents_spec]. unfold bind, fileStat.
  destruct (sys_stat p0 w) as [[s |] w1] eqn:Hst;
    apply sys_stat_inv in Hst as (_ & _ & _ & Hfs1 & Hfound).
  - destruct (S_ISDIR (st_mode s)) eqn:Hdir; [| reflexivity].
    destruct Hin as [-> | Hin].
    + destruct (Hfound s eq_refl) as (q & n & Hres & Hget & Hmode).
      destruct Hnd as (q' & n' & Hres' & Hget' & Hkind).
      rewrite Hres in Hres'. injection Hres' as <-. rewrite Hget in Hget'.
      injection Hget' as <-. congruence.
    + apply (IH w1 p Hin). now rewrite Hfs1.
  - destruct (sys_mkdir p0 o777 w1) as [r w2] eqn:Hmk.
    apply sys_mkdir_inv in Hmk as (_ & _ & _ & Hmk). rewrite Hfs1 in Hmk.
    destruct Hmk as [(-> & Hne & Hfree & Hfs2) | (-> & Hfs2)]; cbn [Z.eqb]; [| reflexivity].
    destruct Hin as [-> | Hin].
    + destruct Hnd as (q & n & Hres & Hget & _).
      destruct (resolve_from_some _ _ _ _ _ Hres Hget) as [n' Hn']. congruence.
    + apply (IH w2 p Hin). rewrite Hfs2. now apply not_a_directory_fresh.
Qed.

(** [makeParentDirectory] on a path that is not empty, its copy made, is
    the contract run over the ancestor prefixes. *)
Lemma makeParentDirectory_refines (zFile : string) (w : world) :
  zFile <> "" -> unrefused w ->
  makeParentDirectory zFile w
  = (let* _ := sqlite3_mprintf zFile in
     let* rc := ensure_parents_spec (ancestors zFile) in
     let* _ := sqlite3_free in
     ret rc) w.
Proof.
  intros Hne Hq. destruct zFile as [| c r]; [contradiction |].
  unfold makeParentDirectory, sqlite3_mprintf. unfold bind at 1 2 5 6.
  rewrite enter_decision, Hq. cbn [ret]. unfold bind at 1 3.
  cbn [ancestors].
  rewrite <- (parent_loop_refines r (String c EmptyString)
                (S (String.length (String c r))) (entered (CallMprintf (String c r)) w))
    by (cbn [String.length]; lia).
  reflexivity.
Qed.

Lemma makeParentDirectory_cases (zFile : string) (w : world) :
  w_fs (snd (makeParentDirectory zFile w)) = w_fs w
  \/ (zFile <> "" /\ unrefused w /\
      let run := ensure_parents_spec (ancestors zFile) (entered (CallMprintf zFile) w) in
      w_fs (snd (makeParentDirectory zFile w)) = w_fs (snd run)
      /\ fst (makeParentDirectory zFile w) = fst run).
Proof.
  destruct (decision 0 w) as [fl |] eqn:Hd.
  { left. unfold makeParentDirectory, sqlite3_mprintf. unfold bind at 1 2.
    rewrite enter_decision, Hd. reflexivity. }
  destruct zFile as [| c r].
  - left. unfold makeParentDirectory, sqlite3_mprintf. unfold bind at 1 2.
    rewrite enter_decision, Hd. cbn [ret]. unfold bind at 1.
    cbn [parent_loop String.length Nat.sub next_slash Nat.eqb Z.eqb SQLITE_OK negb substring].
    unfold bind at 1. unfold fileStat.
    pose proof (sys_stat_empty (entered (CallMprintf "") w)) as Hnone.
    destruct (sys_stat "" (entered (CallMprintf "") w)) as [o w1] eqn:Hst.
    cbn [fst] in Hnone. subst o.
    apply sys_stat_inv in Hst as (_ & _ & _ & Hfs1 & _).
    unfold bind at 1 2.
    destruct (sys_mkdir "" o777 w1) as [m w2] eqn:Hmk.
    apply sys_mkdir_inv in Hmk as (_ & _ & _ & Hmk).
    destruct Hmk as [(_ & Hne & _) | (-> & Hfs2)]; [contradiction |].
    cbn. now rewrite Hfs2, Hfs1.
  - right. split; [discriminate |]. split; [exact Hd |].
    rewrite makeParentDirectory_refines by (try discriminate; exact Hd).
    unfold sqlite3_mprintf, bind. rewrite enter_decision, Hd. cbn [ret].
    destruct (ensure_parents_spec _ _) as [rc w2]. split; reflexivity.
Qed.

(** ** Writing a file, then reading it *)

Lemma fs_get_root (fs : gmap string node) : fs_get fs "/" = Some (Dir o755).
Proof. reflexivity. Qed.

Lemma holds_update (fs : gmap string node) (path q : string) (p mt p' mt' : Z)
    (data data' : list byte) :
  resolve fs path = Some q -> fs_get fs q = Some (Reg p mt data) ->
  holds (<[q := Reg p' mt' data']> fs) path data'.
Proof.
  intros Hres Hget. exists q, p', mt'. split.
  - now apply resolve_insert.
  - apply fs_get_insert_eq.
    + eapply fs_get_some_nonempty; eassumption.
    + intros ->. rewrite fs_get_root in Hget. discriminate.
Qed.

Lemma fopen_wb_inv (path : string) (w w' : world) (h : FILE) :
  fopen_wb path w = (Some h, w') ->
  exists q perm mt,
    resolve (w_fs w) path = Some q /\ f_path h = q
    /\ resolve (w_fs w') path = Some q
    /\ fs_get (w_fs w') q = Some (Reg perm mt []).
Proof.
  unfold fopen_wb, bind. rewrite enter_decision.
  destruct (decision 0 w); [discriminate |].
  unfold get_fs. cbn [w_fs entered enter snd].
  destruct (resolve (w_fs w) path) as [q |] eqn:Hres; [| discriminate].
  destruct (fs_get (w_fs w) q) as [[p mt d | p | t] |] eqn:Hget; try discriminate.
  - intros [= <- <-]. exists q, p, mt. cbn.
    split; [reflexivity |]. split; [reflexivity |].
    split; [now apply resolve_insert |].
    apply fs_get_insert_eq.
    + eapply fs_get_some_nonempty; eassumption.
    + intros ->. rewrite fs_get_root in Hget. discriminate.
  - destruct (String.eqb_spec q "") as [| Hne]; [discriminate |].
    destruct (parent_errno (w_fs w) q); [discriminate |].
    intros [= <- <-]. exists q, (Z.land o666 (Z.lnot (w_umask w))), 0. cbn.
    split; [reflexivity |]. split; [reflexivity |].
    split; [now apply resolve_insert |].
    apply fs_get_insert_eq; [assumption |].
    intros ->. rewrite fs_get_root in Hget. discriminate.
Qed.

Lemma fwrite_inv (z : list byte) (n : Z) (h : FILE) (w w' : world) (k : Z)
    (p mt : Z) (data : list byte) :
  fwrite z n h w = (k, w') ->
  fs_get (w_fs w) (f_path h) = Some (Reg p mt data) ->
  exists m, k = Z.of_nat (length (take m z))
            /\ w_fs w' = <[f_path h := Reg p mt (data ++ take m z)]> (w_fs w).
Proof.
  unfold fwrite, bind. rewrite enter_decision. unfold get_fs.
  cbn [w_fs entered enter snd]. intros Hrun Hget. rewrite Hget in Hrun.
  destruct (decision 0 w) as [fl |]; injection Hrun as <- <-; eexists; split; reflexivity.
Qed.

Lemma take_whole (m : nat) (z : list byte) :
  Z.of_nat (length z) = Z.of_nat (length (take m z)) -> take m z = z.
Proof.
  intros H. apply Nat2Z.inj in H. rewrite length_take in H.
  apply take_ge. lia.
Qed.

Lemma chmod_holds (path : string) (mode : Z) (w w' : world) (r : Z) (data : list byte) :
  sys_chmod path mode w = (r, w') -> holds (w_fs w) path data -> holds (w_fs w') path data.
Proof.
  intros Hrun (q & p & mt & Hres & Hget).
  apply sys_chmod_inv in Hrun as (_ & _ & _ & Hrun).
  destruct Hrun as [(_ & q' & Hres' & _ & Hupd) | (_ & ->)]; [| exists q, p, mt; auto].
  rewrite Hres in Hres'. injection Hres' as <-.
  destruct Hupd as [(p' & mt' & d & Hreg & ->) | (p' & Hdir & _)]; [| congruence].
  rewrite Hget in Hreg. injection Hreg as <- <- <-.
  eapply holds_update; eassumption.
Qed.

Lemma utimes_holds (path : string) (mtime : Z) (w w' : world) (r : Z) (data : list byte) :
  sys_utimes path mtime w = (r, w') -> holds (w_fs w) path data -> holds (w_fs w') path data.
Proof.
  intros Hrun (q & p & mt & Hres & Hget). revert Hrun.
  unfold sys_utimes, bind. rewrite enter_decision.
  destruct (decision 0 w).
  { intros [= <- <-]. exists q, p, mt. auto. }
  unfold get_fs. cbn [w_fs entered enter snd]. rewrite Hres, Hget.
  intros [= <- <-]. cbn. eapply holds_update; eassumption.
Qed.

(** A successful [writeFile] leaves the bytes of the value in the file. *)
Lemma writeFile_success_holds (pCtx c : sqlite3_context) (zFile : string)
    (pData : sqlite3_value) (mode mtime : Z) (w w' : world) :
  writeFile pCtx zFile pData mode mtime w = ((0, c), w') ->
  holds (w_fs w') zFile (value_bytes pData).
Proof.
  unfold writeFile. unfold bind at 1. rewrite fopen_wb_eq.
  destruct (fopen_wb zFile w) as [[h |] wa] eqn:Hopen; [| discriminate].
  apply fopen_wb_inv in Hopen as (q & p & mt & _ & Hpath & Hres & Hget).
  unfold bind at 1.
  assert (exists nWrite rc wb,
            match sqlite3_value_blob pData with
            | Some z =>
                let* n := fwrite z (sqlite3_value_bytes pData) h in
                ret (sqlite3_value_bytes pData,
                     if negb (sqlite3_value_bytes pData =? n) then 1 else 0)
            | None => ret (0, 0)
            end wa = ((nWrite, rc), wb)
            /\ (rc = 0 -> holds (w_fs wb) zFile (value_bytes pData))) as Hwrite.
  { unfold sqlite3_value_blob, sqlite3_value_bytes.
    destruct (value_bytes pData) as [| b z] eqn:Hz.
    - exists 0, 0, wa. split; [reflexivity |]. intros _. exists q, p, mt. auto.
    - unfold bind. destruct (fwrite (b :: z) _ h wa) as [n wb] eqn:Hfw.
      eexists _, _, wb. split; [reflexivity |].
      rewrite <- Hpath in Hget. destruct (fwrite_inv _ _ _ _ _ _ _ _ _ Hfw Hget) as (m & -> & Hfs).
      rewrite Hpath in *.
      destruct (Z.eqb_spec (Z.of_nat (length (b :: z))) (Z.of_nat (length (take m (b :: z)))))
        as [Heq | Hne]; cbn [negb]; [| discriminate].
      intros _. rewrite Hfs, (take_whole _ _ Heq). cbn [app].
      eapply holds_update; eassumption. }
  destruct Hwrite as (nWrite & rc & wb & -> & Hheld).
  unfold bind at 1. unfold fclose at 1, note at 1.
  match goal with |- context [bind _ _ ?w0] => set (wc := w0) end.
  assert (Hwc : w_fs wc = w_fs wb) by reflexivity.
  unfold bind at 1.
  destruct (Z.eqb_spec rc 0) as [-> | Hrc]; cbn [andb].
  - specialize (Hheld eq_refl). rewrite <- Hwc in Hheld.
    destruct (negb (mode =? 0)).
    + unfold bind at 1. destruct (sys_chmod zFile mode wc) as [r wd] eqn:Hch.
      pose proof (chmod_holds _ _ _ _ _ _ Hch Hheld) as Hheld'.
      unfold ret at 1. destruct (negb (r =? 0)); cbn [Z.eqb negb]; [discriminate |].
      destruct (mtime >=? 0).
      * unfold bind. destruct (sys_utimes zFile mtime wd) as [r' we] eqn:Hut.
        pose proof (utimes_holds _ _ _ _ _ _ Hut Hheld') as Hheld''.
        destruct (negb (r' =? 0)); intros [= <- <-]. exact Hheld''.
      * intros [= <- <-]. exact Hheld'.
    + unfold ret at 1. cbn [Z.eqb negb].
      destruct (mtime >=? 0).
      * unfold bind. destruct (sys_utimes zFile mtime wc) as [r' we] eqn:Hut.
        pose proof (utimes_holds _ _ _ _ _ _ Hut Hheld) as Hheld''.
        destruct (negb (r' =? 0)); intros [= <- <-]. exact Hheld''.
      * intros [= <- <-]. exact Hheld.
  - unfold ret at 1. destruct (Z.eqb_spec rc 0); [contradiction |]. discriminate.
Qed.

Lemma fopen_rb_holds (path : string) (data : list byte) (w : world) :
  unrefused w -> holds (w_fs w) path data ->
  exists q, fopen path "rb" w
            = (Some {| f_path := q; f_data := data; f_pos := 0 |},
               entered (CallFopen path "rb") w).
Proof.
  intros Hq (q & p & mt & Hres & Hget). exists q.
  rewrite fopen_rb_eq. unfold fopen_rb, bind. rewrite enter_decision, Hq.
  unfold get_fs. cbn [w_fs entered enter snd]. now rewrite Hres, Hget.
Qed.

(** With nothing refused, an open file within the limit is read whole. *)
Lemma readFileContents_quiet (ctx : sqlite3_context) (zName : string) (w w1 : world)
    (h : FILE) :
  fopen zName "rb" w = (Some h, w1) -> w_faults w1 = [] ->
  Z.of_nat (length (f_data h)) <= ctx_limit_length ctx ->
  ctx_result (fst (readFileContents ctx zName w)) = ResBlob (f_data h).
Proof.
  intros Hopen Hquiet Hfit.
  assert (Hlen : Z.to_nat (Z.of_nat (length (f_data h))) = length (f_data h))
    by apply Nat2Z.id.
  unfold readFileContents. unfold bind at 1. rewrite Hopen.
  change (ftell (fseek_end h)) with (Z.of_nat (length (f_data h))).
  remember (Z.of_nat (length (f_data h))) as nIn eqn:HnIn.
  destruct (Z.gtb_spec nIn (ctx_limit_length ctx)); [lia |].
  destruct w1 as [fs e um faults tr]. cbn in Hquiet. subst faults.
  cbn. rewrite Hlen, drop_0, firstn_all, <- HnIn, Z.eqb_refl. cbn.
  now rewrite Hlen, firstn_all.
Qed.

(** ** The fuel of the loop is never the reason it stops *)

Lemma sys_mkdir_empty (mode : Z) (w : world) : fst (sys_mkdir "" mode w) = -1.
Proof.
  destruct (sys_mkdir "" mode w) as [r w'] eqn:Hmk.
  apply sys_mkdir_inv in Hmk as (_ & _ & _ & [(_ & Hne & _) | (-> & _)]);
    [contradiction | reflexivity].
Qed.

(** On the empty path the loop probes the empty name once and fails. *)
Lemma parent_loop_empty (fuel : nat) (w : world) :
  parent_loop (S fuel) "" 0 1 SQLITE_OK w
  = (SQLITE_ERROR, snd (sys_mkdir "" o777 (snd (sys_stat "" w)))).
Proof.
  cbn [parent_loop Nat.sub next_slash Nat.eqb Z.eqb SQLITE_OK negb substring].
  unfold bind, fileStat.
  pose proof (sys_stat_empty w) as Hst.
  destruct (sys_stat "" w) as [o w1]. cbn [fst snd] in *. subst o.
  pose proof (sys_mkdir_empty o777 w1) as Hmk.
  destruct (sys_mkdir "" o777 w1) as [m w2]. cbn [fst snd] in *. subst m.
  cbn [Z.eqb negb ret]. apply parent_loop_error.
Qed.

Lemma parent_loop_fuel (zFile : string) (extra : nat) (w : world) :
  parent_loop (S (String.length zFile) + extra) zFile (String.length zFile) 1 SQLITE_OK w
  = parent_loop (S (String.length zFile)) zFile (String.length zFile) 1 SQLITE_OK w.
Proof.
  destruct zFile as [| c r].
  - cbn [String.length Nat.add]. now rewrite !parent_loop_empty.
  - pose proof (parent_loop_refines r (String c EmptyString)) as Href.
    change (String c EmptyString +:+ r) with (String c r) in Href.
    cbn [String.length] in Href |- *.
    rewrite !Href by lia. reflexivity.
Qed.

(** ** The scenarios of the specification, run *)

Example ancestors_of_nested_file :
  ancestors "/tmp/a/b/c.txt" = ["/tmp"; "/tmp/a"; "/tmp/a/b"].
Proof. reflexivity. Qed.

Example ancestors_of_relative_file : ancestors "a//b" = ["a"; "a/"].
Proof. reflexivity. Qed.

Example lsmode_regular_all_bits :
  ctx_result (sqlite3_lsmode (fresh_context 1000) [SqlInteger 0x81FF]) = ResText "-rwxrwxrwx".
Proof. reflexivity. Qed.

Example lsmode_bare_directory :
  ctx_result (sqlite3_lsmode (fresh_context 1000) [SqlInteger 0x4000]) = ResText "d---------".
Proof. reflexivity. Qed.

(** A file that exists and that the environment does not let us open reads
    as NULL, with no error. *)
Example readfile_unreadable_is_null :
  let out := sqlite3_readfile (fresh_context 1000) [SqlText "/tmp/f"] denied_world in
  fst out = fresh_context 1000 /\ w_errno (snd out) = EACCES.
Proof. vm_compute. split; reflexivity. Qed.

(** [writefile('/tmp/a/b/c.txt', x'01020304')] where [/tmp/a] does not
    exist creates [/tmp/a], [/tmp/a/b] and the file, and returns 4. *)
Example writefile_creates_missing_ancestors :
  let out := sqlite3_writefile (fresh_context 1000)
               [SqlText "/tmp/a/b/c.txt"; SqlBlob [x01; x02; x03; x04]] (quiet_world tmp_fs) in
  ctx_result (fst out) = ResInt64 4
  /\ w_fs (snd out) !! "/tmp/a" = Some (Dir o755)
  /\ w_fs (snd out) !! "/tmp/a/b" = Some (Dir o755)
  /\ w_fs (snd out) !! "/tmp/a/b/c.txt" = Some (Reg o666 0 [x01; x02; x03; x04])
  /\ w_fs (snd out) !! "/tmp" = Some (Dir o777).
Proof. vm_compute. repeat split. Qed.

(** [mkdir('/tmp/d', 0750)] twice, then [mkdir('/tmp/d', 0700)]: all three
    succeed, the last through [chmod]. *)
Example mkdir_three_times :
  let c := fresh_context 1000 in
  let w1 := snd (sqlite3_mkdir c [SqlText "/tmp/d"; SqlInteger 488] (quiet_world tmp_fs)) in
  let w2 := snd (sqlite3_mkdir c [SqlText "/tmp/d"; SqlInteger 488] w1) in
  let out := sqlite3_mkdir c [SqlText "/tmp/d"; SqlInteger 448] w2 in
  fst (sqlite3_mkdir c [SqlText "/tmp/d"; SqlInteger 488] (quiet_world tmp_fs)) = c
  /\ fst (sqlite3_mkdir c [SqlText "/tmp/d"; SqlInteger 488] w1) = c
  /\ fst out = c
  /\ w_fs (snd out) !! "/tmp/d" = Some (Dir 448).
Proof. vm_compute. repeat split. Qed.

(** ** Permission Formatter *)

(** C4: for every integer mode, [lsmode] is a pure and total function whose
    result is the ten-character text of the Permission Formatter contract:
    the kind at position 0 ([l] symlink, [-] regular file, [d] directory,
    [?] otherwise), then [r]/[w]/[x] or [-] for the owner, group and other
    triads by the corresponding bits.  A regular file with all nine
    permission bits set gives "-rwxrwxrwx", a directory with none set gives
    "d---------". *)
Theorem lsmode_formats_mode (context : sqlite3_context) (argv : list sqlite3_value) :
  let iMode := sqlite3_value_int (arg 0 argv) in
  sqlite3_lsmode context argv = sqlite3_result_text context (format_mode_spec iMode)
  /\ String.length (format_mode_spec iMode) = 10%nat
  /\ (S_ISREG iMode = true -> Z.land iMode o777 = o777 ->
      format_mode_spec iMode = "-rwxrwxrwx")
  /\ (S_ISDIR iMode = true -> Z.land iMode o777 = 0 ->
      format_mode_spec iMode = "d---------").
Proof.
  intros iMode. split; [| split; [| split]].
  - unfold sqlite3_lsmode, format_mode_spec, lsmode_triad, perm_char. fold iMode.
    cbn [flat_map app]. do 2 f_equal.
    rewrite !read_bit, !write_bit, !exec_bit by lia. reflexivity.
  - reflexivity.
  - intros Hreg Hall. unfold format_mode_spec, perm_char.
    assert (S_ISLNK iMode = false) as ->.
    { unfold S_ISREG, S_ISLNK in *. apply Z.eqb_eq in Hreg. rewrite Hreg. reflexivity. }
    rewrite Hreg.
    assert (forall k, 0 <= k < 9 -> Z.testbit iMode k = true) as Hbit.
    { intros k Hk. rewrite <- (low_bits_testbit iMode o777 k) by
        (try lia; assert (k = 0 \/ k = 1 \/ k = 2 \/ k = 3 \/ k = 4 \/ k = 5 \/ k = 6 \/ k = 7 \/ k = 8)
           as Hc by lia; intuition (subst; reflexivity)).
      rewrite Hall.
      assert (k = 0 \/ k = 1 \/ k = 2 \/ k = 3 \/ k = 4 \/ k = 5 \/ k = 6 \/ k = 7 \/ k = 8)
        as Hc by lia; intuition (subst; reflexivity). }
    rewrite !Hbit by lia. reflexivity.
  - intros Hdir Hnone. unfold format_mode_spec, perm_char.
    assert (S_ISLNK iMode = false) as ->.
    { unfold S_ISDIR, S_ISLNK in *. apply Z.eqb_eq in Hdir. rewrite Hdir. reflexivity. }
    assert (S_ISREG iMode = false) as ->.
    { unfold S_ISDIR, S_ISREG in *. apply Z.eqb_eq in Hdir. rewrite Hdir. reflexivity. }
    rewrite Hdir.
    assert (forall k, 0 <= k < 9 -> Z.testbit iMode k = false) as Hbit.
    { intros k Hk. rewrite <- (low_bits_testbit iMode o777 k) by
        (try lia; assert (k = 0 \/ k = 1 \/ k = 2 \/ k = 3 \/ k = 4 \/ k = 5 \/ k = 6 \/ k = 7 \/ k = 8)
           as Hc by lia; intuition (subst; reflexivity)).
      rewrite Hnone. apply Z.bits_0. }
    rewrite !Hbit by lia. reflexivity.
Qed.

(** ** File Reader *)

(** C2: when the path cannot be opened for reading, for whatever reason,
    [readfile] leaves the context as it was, so a fresh call returns NULL
    and raises no error; a path that names nothing cannot be opened. *)
Theorem readfile_unopenable_is_null
    (context : sqlite3_context) (argv : list sqlite3_value) (zName : string) (w : world) :
  sqlite3_value_text (arg 0 argv) = Some zName ->
  (fst (fopen zName "rb" w) = None ->
     fst (sqlite3_readfile context argv w) = context
     /\ (ctx_result context = ResNull ->
         ctx_result (fst (sqlite3_readfile context argv w)) = ResNull
         /\ is_error (ctx_result (fst (sqlite3_readfile context argv w))) = false))
  /\ (fs_get (w_fs w) zName = None -> fst (fopen zName "rb" w) = None).
Proof.
  intros Htext. split.
  - intros Hopen. unfold sqlite3_readfile, readFileContents, bind. rewrite Htext.
    destruct (fopen zName "rb" w) as [o w1]. cbn in Hopen. subst o. cbn.
    split; [reflexivity |]. intros ->. split; reflexivity.
  - intros Hnone. rewrite fopen_rb_eq. unfold fopen_rb, bind, enter, get_fs.
    destruct (w_faults w) as [|[fl|] rest]; cbn; try reflexivity.
    + unfold resolve, MAXSYMLINKS. cbn [resolve_from]. rewrite Hnone. cbn. rewrite Hnone. reflexivity.
    + unfold resolve, MAXSYMLINKS. cbn [resolve_from]. rewrite Hnone. cbn. rewrite Hnone. reflexivity.
Qed.

Lemma readfile_unopenable_is_null_witness :
  ctx_result (fst (sqlite3_readfile (fresh_context 1000) [SqlText "/tmp/none"] (quiet_world tmp_fs)))
  = ResNull.
Proof.
  refine (proj1 (proj2 (proj1
    (readfile_unopenable_is_null (fresh_context 1000) [SqlText "/tmp/none"] "/tmp/none"
       (quiet_world tmp_fs) _) _) _)).
  - reflexivity.
  - vm_compute. reflexivity.
  - reflexivity.
Defined.

(** C6: once the file is open, [readFileContents] takes its length [nIn] by
    seeking to the end.  Above the connection's limit the result is
    SQLITE_TOOBIG and neither a buffer nor a read is asked for.  Otherwise a
    buffer of exactly [nIn] bytes (1 for an empty file) is requested; if the
    allocator refuses, the result is the out-of-memory error; if the read
    stops short of [nIn] bytes, the result is SQLITE_IOERR and the buffer is
    freed; only a complete read returns a blob, and it holds all the bytes.
    The stream is closed on every path. *)
Theorem readfile_size_alloc_read
    (ctx : sqlite3_context) (zName : string) (w w1 : world) (h : FILE) :
  fopen zName "rb" w = (Some h, w1) ->
  let nIn := Z.of_nat (length (f_data h)) in
  let size := if nIn =? 0 then 1 else nIn in
  let out := readFileContents ctx zName w in
  ftell (fseek_end h) = nIn
  /\ (nIn > ctx_limit_length ctx ->
        fst out = sqlite3_result_error_code ctx SQLITE_TOOBIG
        /\ w_trace (snd out) = w_trace w1 ++ [CallFclose])
  /\ (nIn <= ctx_limit_length ctx ->
        (decision 0 w1 <> None ->
           fst out = sqlite3_result_error_nomem ctx
           /\ w_trace (snd out) = w_trace w1 ++ [CallMalloc size; CallFclose])
        /\ (decision 0 w1 = None ->
            forall fl, decision 1 w1 = Some fl -> (f_moved fl < length (f_data h))%nat ->
              fst out = sqlite3_result_error_code ctx SQLITE_IOERR
              /\ w_trace (snd out) =
                   w_trace w1 ++ [CallMalloc size; CallFread nIn; CallFree; CallFclose])
        /\ (decision 0 w1 = None ->
            (forall fl, decision 1 w1 = Some fl -> (length (f_data h) <= f_moved fl)%nat) ->
              ctx_result (fst out) = ResBlob (f_data h)
              /\ w_trace (snd out) =
                   w_trace w1 ++ [CallMalloc size; CallFread nIn; CallFclose]))
  /\ (ctx_result (fst out) = ResBlob (f_data h) \/ is_error (ctx_result (fst out)) = true).
Proof.
  intros Hopen nIn size out.
  assert (Hfull : take (Z.to_nat nIn) (f_data h) = f_data h) by apply take_all_bytes.
  assert (Hlen : Z.to_nat nIn = length (f_data h)) by apply Nat2Z.id.
  assert (HnIn : Z.of_nat (length (f_data h)) = nIn) by reflexivity.
  split; [reflexivity |].
  assert (Hout : out = readFileContents ctx zName w) by reflexivity.
  clearbody out. unfold readFileContents, bind in Hout. rewrite Hopen in Hout.
  change (ftell (fseek_end h)) with nIn in Hout. fold size in Hout.
  clearbody size. clearbody nIn.
  unfold decision. destruct w1 as [fs e um faults tr]. cbn [w_trace w_faults].
  destruct (Z.gtb_spec nIn (ctx_limit_length ctx)) as [Hbig | Hfit].
  { cbn in Hout. subst out. cbn.
    split; [intros _; split; reflexivity |]. split; [lia |]. right; reflexivity. }
  split; [lia |].
  destruct faults as [| [fl1 |] rest].
  - (* nothing is scheduled *)
    cbn in Hout. rewrite Hlen, drop_0, firstn_all, HnIn, Z.eqb_refl in Hout.
    unfold sqlite3_result_blob64 in Hout. rewrite Hfull in Hout. cbn in Hout. subst out. cbn.
    split; [| left; reflexivity].
    intros _. split; [intros []; reflexivity |].
    split; [intros _ fl Hfl; discriminate |].
    intros _ _. split; [reflexivity | now rewrite <- !app_assoc].
  - (* the allocator refuses *)
    cbn in Hout. subst out. cbn.
    split; [| right; reflexivity].
    intros _. split; [intros _; split; [reflexivity | now rewrite <- !app_assoc] |].
    split; discriminate.
  - destruct rest as [| [fl2 |] rest].
    + cbn in Hout. rewrite Hlen, drop_0, firstn_all, HnIn, Z.eqb_refl in Hout.
      unfold sqlite3_result_blob64 in Hout. rewrite Hfull in Hout. cbn in Hout. subst out. cbn.
      split; [| left; reflexivity].
      intros _. split; [intros []; reflexivity |].
      split; [intros _ fl Hfl; discriminate |].
      intros _ _. split; [reflexivity | now rewrite <- !app_assoc].
    + cbn in Hout. rewrite Hlen, drop_0 in Hout.
      destruct (Nat.ltb_spec (f_moved fl2) (length (f_data h))) as [Hshort | Hlong].
      * (* the read stops short *)
        rewrite Nat.min_l, length_take, Nat.min_l in Hout by lia.
        assert ((nIn =? Z.of_nat (f_moved fl2)) = false) as Hne by (apply Z.eqb_neq; lia).
        rewrite Hne in Hout. cbn in Hout. subst out. cbn.
        split; [| right; reflexivity].
        intros _. split; [intros []; reflexivity |]. split.
        -- intros _ fl [= <-] _. split; [reflexivity | now rewrite <- !app_assoc].
        -- intros _ Hall. specialize (Hall fl2 eq_refl). lia.
      * rewrite Nat.min_r, firstn_all, HnIn, Z.eqb_refl in Hout by lia.
        unfold sqlite3_result_blob64 in Hout. rewrite Hfull in Hout. cbn in Hout. subst out. cbn.
        split; [| left; reflexivity].
        intros _. split; [intros []; reflexivity |]. split.
        -- intros _ fl [= <-] Hlt. lia.
        -- intros _ _. split; [reflexivity | now rewrite <- !app_assoc].
    + cbn in Hout. rewrite Hlen, drop_0, firstn_all, HnIn, Z.eqb_refl in Hout.
      unfold sqlite3_result_blob64 in Hout. rewrite Hfull in Hout. cbn in Hout. subst out. cbn.
      split; [| left; reflexivity].
      intros _. split; [intros []; reflexivity |].
      split; [intros _ fl Hfl; discriminate |].
      intros _ _. split; [reflexivity | now rewrite <- !app_assoc].
Qed.

Lemma readfile_size_alloc_read_witness :
  ctx_result (fst (readFileContents (fresh_context 1000) "/tmp/f" (quiet_world tmp_f_fs)))
  = ResBlob [x01; x02; x03].
Proof.
  pose proof (readfile_size_alloc_read (fresh_context 1000) "/tmp/f" (quiet_world tmp_f_fs)
                (snd (fopen "/tmp/f" "rb" (quiet_world tmp_f_fs)))
                {| f_path := "/tmp/f"; f_data := [x01; x02; x03]; f_pos := 0 |}) as H.
  cbv zeta in H.
  destruct H as (_ & _ & Hfit & _); [vm_compute; reflexivity |].
  destruct Hfit as (_ & _ & Hread); [vm_compute; discriminate |].
  apply Hread; [reflexivity | intros fl Hfl; discriminate].
Defined.

(** ** The SQL functions on a NULL first argument *)

(** C10, as stated, fails: [writefile] is registered for any number of
    arguments; [writefile(NULL)], one argument, has a NULL first argument
    and raises the argument-count error. *)
Lemma null_first_argument_can_raise :
  In ("writefile", -1) fileioscalar_init
  /\ sqlite3_value_text (arg 0 [SqlNull]) = None
  /\ ctx_result (fst (sqlite3_writefile (fresh_context 1000) [SqlNull] (quiet_world tmp_fs)))
     = ResError "wrong number of arguments to function writefile()".
Proof. split; [cbn; auto 6 | split; reflexivity]. Qed.

(** C10, amended: called with a number of arguments it accepts, each of
    [readfile], [writefile], [mkdir] and [symlink] whose first argument is
    NULL returns with the context and the world exactly as they were: the
    result stays NULL, no error is raised and no library call is made. *)
Theorem null_first_argument_is_silent
    (context : sqlite3_context) (argv : list sqlite3_value) (w : world) :
  sqlite3_value_text (arg 0 argv) = None ->
  sqlite3_readfile context argv w = (context, w)
  /\ (2 <= argc_of argv <= 4 -> sqlite3_writefile context argv w = (context, w))
  /\ (1 <= argc_of argv <= 2 -> sqlite3_mkdir context argv w = (context, w))
  /\ (argc_of argv = 2 -> sqlite3_symlink context argv w = (context, w)).
Proof.
  intros Hnull. split; [| split; [| split]].
  - unfold sqlite3_readfile. now rewrite Hnull.
  - intros Hargc. unfold sqlite3_writefile. rewrite Hnull.
    destruct (Z.ltb_spec (argc_of argv) 2); [lia |].
    destruct (Z.gtb_spec (argc_of argv) 4); [lia |]. reflexivity.
  - intros Hargc. unfold sqlite3_mkdir. rewrite Hnull.
    destruct (Z.eqb_spec (argc_of argv) 1); [reflexivity |].
    destruct (Z.eqb_spec (argc_of argv) 2); [reflexivity | lia].
  - intros Hargc. unfold sqlite3_symlink. rewrite Hnull, Hargc. reflexivity.
Qed.

Lemma null_first_argument_is_silent_witness :
  sqlite3_writefile (fresh_context 1000) [SqlNull; SqlBlob [x01]] (quiet_world tmp_fs)
  = (fresh_context 1000, quiet_world tmp_fs).
Proof.
  refine (proj1 (proj2
    (null_first_argument_is_silent (fresh_context 1000) [SqlNull; SqlBlob [x01]]
       (quiet_world tmp_fs) _)) _).
  - reflexivity.
  - unfold argc_of. cbn. lia.
Defined.

(** ** File Writer: what [writefile] reports *)

(** C9, as stated, fails: [writefile('/tmp', x'01')], two arguments, cannot
    open the directory [/tmp] for writing; the write fails with code 1 and
    yet no error is raised: the result stays NULL. *)
Lemma writefile_two_arguments_fails_silently :
  let argv := [SqlText "/tmp"; SqlBlob [x01]] in
  let w := quiet_world tmp_fs in
  fst (fst (write_or_retry (fresh_context 1000) "/tmp" (arg 1 argv) o666 (-1) w)) = 1
  /\ ctx_result (fst (sqlite3_writefile (fresh_context 1000) argv w)) = ResNull
  /\ is_error (ctx_result (fst (sqlite3_writefile (fresh_context 1000) argv w))) = false.
Proof. vm_compute. repeat split. Qed.

(** C9, amended: [writefile] raises an error when given fewer than 2 or
    more than 4 arguments; when the write fails and the call has at least 3
    arguments it raises an error whose message includes the path; when the
    write fails and the call has exactly 2 arguments it raises nothing and
    leaves the result as it was (NULL); on success it returns the number of
    bytes written as an integer. *)
Theorem writefile_reports (context : sqlite3_context) (argv : list sqlite3_value) (w : world) :
  let argc := argc_of argv in
  let out := sqlite3_writefile context argv w in
  (argc < 2 \/ 4 < argc ->
     out = (sqlite3_result_error context "wrong number of arguments to function writefile()", w))
  /\ (2 <= argc <= 4 ->
      forall zFile, sqlite3_value_text (arg 0 argv) = Some zFile ->
      let perm := if argc >=? 3 then to_mode_t (sqlite3_value_int (arg 2 argv)) else o666 in
      let mtime := if argc =? 4 then sqlite3_value_int64 (arg 3 argv) else -1 in
      let res := fst (fst (write_or_retry context zFile (arg 1 argv) perm mtime w)) in
      (res = 0 -> ctx_result (fst out) = ResInt64 (sqlite3_value_bytes (arg 1 argv)))
      /\ (res <> 0 -> 3 <= argc ->
          ctx_result (fst out) = ResError ("failed to write file: " +:+ zFile))
      /\ (res <> 0 -> argc = 2 -> fst out = context)).
Proof.
  intros argc out. subst out. unfold sqlite3_writefile. fold argc. split.
  - intros Hargc.
    destruct (Z.ltb_spec argc 2); [reflexivity |].
    destruct (Z.gtb_spec argc 4); [reflexivity | lia].
  - intros Hargc zFile Htext.
    set (perm := if argc >=? 3 then _ else _).
    set (mtime := if argc =? 4 then _ else _).
    destruct (Z.ltb_spec argc 2); [lia |].
    destruct (Z.gtb_spec argc 4); [lia |].
    cbn [orb]. rewrite Htext. unfold bind.
    destruct (write_or_retry context zFile (arg 1 argv) perm mtime w) as [[res c] w'] eqn:E.
    apply write_or_retry_context in E as [Hok Hfail]. cbn [fst].
    split; [| split].
    + intros ->. cbn [Z.eqb negb]. rewrite andb_false_r. cbn. now rewrite Hok.
    + intros Hres Hargc3.
      destruct (Z.gtb_spec argc 2); [| lia].
      destruct (Z.eqb_spec res 0); [contradiction |]. reflexivity.
    + intros Hres Hargc2.
      destruct (Z.gtb_spec argc 2); [lia |]. cbn.
      apply Hfail; [assumption |]. subst mtime. rewrite Hargc2. reflexivity.
Qed.

(** ** Symlink Creator *)

(** C8: [createSymlink] compares the outcome of [symlink] with 0 twice:
    [res] is 0 or 1, never negative, so the function returns 0 whatever
    [symlink] did.  With [/tmp] in place, [symlink('x', '/tmp')] fails with
    EEXIST, creates nothing, and [sqlite3_symlink] raises no error. *)
Theorem createSymlink_hides_failure :
  (forall ctx src dst w, fst (createSymlink ctx src dst w) = 0)
  /\ (let w := quiet_world tmp_fs in
      let out := sqlite3_symlink (fresh_context 1000) [SqlText "x"; SqlText "/tmp"] w in
      sys_symlink "x" (Some "/tmp") w = (-1, snd out)
      /\ w_errno (snd out) = EEXIST
      /\ w_fs (snd out) = tmp_fs
      /\ ctx_result (fst out) = ResNull).
Proof.
  split.
  - intros ctx src dst w. unfold createSymlink, bind.
    destruct (sys_symlink src dst w) as [r w']. destruct (r <? 0); reflexivity.
  - vm_compute. repeat split.
Qed.

(** ** Directory Creator *)

(** C5: when [mkdir] fails, [makeDirectory] still succeeds exactly when the
    failure is EEXIST, [stat] finds a directory there, and its permission
    bits equal the requested bits masked to 0777 or the [chmod] to those
    bits succeeds.  Hence a second call with the same path and mode
    succeeds after a first one did (nothing being refused), and a call on a
    path that holds a regular file fails. *)
Theorem makeDirectory_tolerates_existing_directory
    (ctx : sqlite3_context) (path : string) (mode : Z) (w : world) :
  (forall r w1, sys_mkdir path mode w = (r, w1) -> r <> 0 ->
     (fst (makeDirectory ctx path mode w) = 0 <->
        w_errno w1 = EEXIST
        /\ exists st w2, fileStat path w1 = (Some st, w2)
             /\ S_ISDIR (st_mode st) = true
             /\ (Z.land (st_mode st) o777 = Z.land mode o777
                 \/ fst (sys_chmod path (Z.land mode o777) w2) = 0))
     /\ (fst (makeDirectory ctx path mode w) = 0 \/ fst (makeDirectory ctx path mode w) = 1))
  /\ (forall w1, makeDirectory ctx path mode w = (0, w1) -> w_faults w1 = [] ->
        fst (makeDirectory ctx path mode w1) = 0)
  /\ (forall perm mtime data, fs_get (w_fs w) path = Some (Reg perm mtime data) ->
        fst (makeDirectory ctx path mode w) = 1).
Proof.
  split; [| split].
  - intros r w1 Hmk Hr. unfold makeDirectory, bind, errno. rewrite Hmk.
    destruct (Z.eqb_spec r 0) as [| _]; [contradiction |]. cbn [negb].
    destruct (Z.eqb_spec (w_errno w1) EEXIST) as [He | He]; cbn [negb fst].
    2:{ split; [| now right]. split; [discriminate | intros [? _]; contradiction]. }
    destruct (fileStat path w1) as [[st |] w2]; cbn [fst].
    2:{ split; [| now right]. split; [discriminate | intros (_ & st & w3 & [=] & _)]. }
    destruct (S_ISDIR (st_mode st)) eqn:Hdir; cbn [negb fst].
    2:{ split; [| now right]. split; [discriminate |].
        intros (_ & st' & w3 & [= <- <-] & Hd & _). congruence. }
    destruct (Z.eqb_spec (Z.land (st_mode st) o777) (Z.land mode o777)) as [Heq | Hne];
      cbn [negb fst].
    { split; [| now left]. split; [| reflexivity]. intros _. split; [assumption |].
      exists st, w2. auto. }
    destruct (sys_chmod path (Z.land mode o777) w2) as [rc w3] eqn:Hch; cbn [fst].
    destruct (Z.eqb_spec 0 rc) as [<- | Hrc]; cbn [negb fst].
    + split; [| now left]. split; [| reflexivity]. intros _. split; [assumption |].
      exists st, w2. rewrite Hch. auto.
    + split; [| now right]. split; [discriminate |].
      intros (_ & st' & w4 & [= <- <-] & _ & [Heq | Hch']); [contradiction |].
      rewrite Hch in Hch'. cbn in Hch'. congruence.
  - intros w1 Hfirst Hquiet.
    destruct (makeDirectory_leaves_directory _ _ _ _ _ Hfirst) as (q & p & Hres & Hget & Hbits).
    now apply (makeDirectory_on_directory ctx path q mode p).
  - intros perm mtime data. apply makeDirectory_on_regular_file.
Qed.

Lemma makeDirectory_tolerates_existing_directory_witness :
  fst (makeDirectory (fresh_context 1000) "/tmp/d" 488
         (snd (makeDirectory (fresh_context 1000) "/tmp/d" 488 (quiet_world tmp_fs)))) = 0.
Proof.
  apply (proj1 (proj2 (makeDirectory_tolerates_existing_directory
                         (fresh_context 1000) "/tmp/d" 488 (quiet_world tmp_fs))));
    vm_compute; reflexivity.
Defined.

(** ** File Writer: the retry *)

(** C3, as stated, fails: in [writefile('/tmp/f', x'01', 0644, 5)] the file
    is opened, written and given its mode, then the environment refuses
    [utimes] with ENOENT.  [writeFile] returns 1 as it does when the open
    fails, so the Directory Builder runs and the whole sequence is run a
    second time although the open-for-write step had not failed. *)
Lemma retry_after_mtime_failure :
  let w := mtime_refused_world in
  let out := write_or_retry (fresh_context 1000) "/tmp/f" (SqlBlob [x01]) 420 5 w in
  fst (fopen "/tmp/f" "wb" w) <> None
  /\ fst (fst (writeFile (fresh_context 1000) "/tmp/f" (SqlBlob [x01]) 420 5 w)) = 1
  /\ count_calls starts_builder (w_trace (snd out)) = 1%nat
  /\ count_calls opens_for_writing (w_trace (snd out)) = 2%nat.
Proof. vm_compute. repeat split. discriminate. Qed.

(** C3, amended: the Directory Builder runs, once, exactly when the first
    attempt returns 1 with [errno] equal to ENOENT; the sequence is run a
    second time exactly when, moreover, the Directory Builder succeeds, and
    never a third time.  The first attempt returns 1 when the open for
    writing fails, and otherwise only when the bytes were written, the count
    stored, and setting the requested modification time failed; a failed
    write or chmod returns 2 and triggers nothing. *)
Theorem writefile_retries_once (context : sqlite3_context) (zFile : string)
    (pData : sqlite3_value) (perm mtime : Z) (w : world) :
  let first := writeFile context zFile pData perm mtime w in
  let res1 := fst (fst first) in
  let w1 := snd first in
  let out := write_or_retry context zFile pData perm mtime w in
  let triggered := (res1 =? 1) && (w_errno w1 =? ENOENT) in
  let built := fst (makeParentDirectory zFile w1) =? SQLITE_OK in
  count_calls starts_builder (w_trace (snd out))
    = (count_calls starts_builder (w_trace w) + (if triggered then 1 else 0))%nat
  /\ count_calls opens_for_writing (w_trace (snd out))
    = (count_calls opens_for_writing (w_trace w) + (if triggered && built then 2 else 1))%nat
  /\ (fst (fopen zFile "wb" w) = None ->
        res1 = 1 /\ w_errno w1 = w_errno (snd (fopen zFile "wb" w)))
  /\ (fst (fopen zFile "wb" w) <> None -> res1 = 1 ->
        0 <= mtime
        /\ snd (fst first) = sqlite3_result_int64 context (sqlite3_value_bytes pData))
  /\ (res1 = 2 -> triggered = false).
Proof.
  intros first res1 w1 out triggered built.
  assert (Hcodes := writeFile_codes context zFile pData perm mtime w). cbv zeta in Hcodes.
  fold first in Hcodes.
  destruct (write_or_retry_trace context zFile pData perm mtime w)
    as (r1 & r2 & r3 & E & P1 & P2 & P3).
  fold first res1 w1 triggered built out in E.
  destruct (count_plain _ P1) as [O1 B1], (count_plain _ P2) as [O2 B2],
           (count_plain _ P3) as [O3 B3].
  split; [| split; [| split; [| split]]].
  - rewrite E. destruct triggered, built;
      repeat first [rewrite count_calls_app | rewrite count_calls_cons | rewrite count_calls_nil];
      rewrite ?B1, ?B2, ?B3; cbn [starts_builder]; lia.
  - rewrite E. destruct triggered, built; cbn [andb];
      repeat first [rewrite count_calls_app | rewrite count_calls_cons | rewrite count_calls_nil];
      rewrite ?O1, ?O2, ?O3;
      change (opens_for_writing (CallFopen zFile "wb")) with true;
      cbn [opens_for_writing]; lia.
  - intros Hopen. rewrite Hopen in Hcodes. subst res1 w1. now rewrite Hcodes.
  - intros Hopen Hres.
    destruct (fst (fopen zFile "wb" w)); [| contradiction].
    subst res1. destruct Hcodes as [H | [H | [H Hm]]]; rewrite H in *; cbn in Hres |- *;
      try discriminate. auto.
  - intros Hres. subst triggered. now rewrite Hres.
Qed.

(** ** Directory Builder *)

(** C7: [makeParentDirectory] removes, renames and changes nothing: every
    entry of the file system is still there, as it was.  What it adds are
    directories at ancestor prefixes of the path, each a proper prefix that
    a ['/'] follows; the path itself, the final component, is never
    created.  For a path that is not empty, its copy made, the function is
    the contract run on the ancestor prefixes from left to right: [stat]
    each; create it only if [stat] fails; fail with SQLITE_ERROR if it is
    there and not a directory.  So it returns SQLITE_ERROR whenever some
    ancestor prefix exists and is not a directory. *)
Theorem makeParentDirectory_only_adds_ancestors (zFile : string) (w : world) :
  let out := makeParentDirectory zFile w in
  (forall q n, w_fs w !! q = Some n -> w_fs (snd out) !! q = Some n)
  /\ (forall q, w_fs w !! q = None -> w_fs (snd out) !! q <> None ->
        In q (ancestors zFile) /\ exists perm, w_fs (snd out) !! q = Some (Dir perm))
  /\ (forall p, In p (ancestors zFile) -> exists r, zFile = p +:+ String "/" r)
  /\ w_fs (snd out) !! zFile = w_fs w !! zFile
  /\ (zFile <> "" -> unrefused w ->
        out = (let* _ := sqlite3_mprintf zFile in
               let* rc := ensure_parents_spec (ancestors zFile) in
               let* _ := sqlite3_free in
               ret rc) w)
  /\ (unrefused w -> forall p, In p (ancestors zFile) -> not_a_directory (w_fs w) p ->
        fst out = SQLITE_ERROR).
Proof.
  intros out.
  assert (Hkeep : forall q n, w_fs w !! q = Some n -> w_fs (snd out) !! q = Some n).
  { destruct (makeParentDirectory_cases zFile w) as [Hsame | (_ & _ & Hrun & _)].
    - subst out. now rewrite Hsame.
    - subst out. rewrite Hrun. intros q n Hq.
      now apply (ensure_parents_effect (ancestors zFile) (entered (CallMprintf zFile) w)). }
  assert (Hnew : forall q, w_fs w !! q = None -> w_fs (snd out) !! q <> None ->
            In q (ancestors zFile) /\ exists perm, w_fs (snd out) !! q = Some (Dir perm)).
  { destruct (makeParentDirectory_cases zFile w) as [Hsame | (_ & _ & Hrun & _)].
    - subst out. rewrite Hsame. intros q Hq Hq'. contradiction.
    - subst out. rewrite Hrun. intros q Hq.
      now apply (ensure_parents_effect (ancestors zFile) (entered (CallMprintf zFile) w)). }
  split; [exact Hkeep |]. split; [exact Hnew |].
  split; [intros p; apply ancestors_are_prefixes |].
  split; [| split].
  - destruct (w_fs w !! zFile) as [n |] eqn:Hz; [now apply Hkeep |].
    destruct (w_fs (snd out) !! zFile) as [n |] eqn:Hz'; [| reflexivity].
    destruct (Hnew zFile Hz) as [Hin _]; [congruence |].
    now apply path_not_its_ancestor in Hin.
  - intros Hne Hq. now apply makeParentDirectory_refines.
  - intros Hq p Hin Hnd.
    destruct (makeParentDirectory_cases zFile w) as [_ | (_ & _ & _ & Hrc)].
    + destruct zFile as [| c r]; [destruct Hin |].
      subst out. rewrite makeParentDirectory_refines by (try discriminate; exact Hq).
      unfold sqlite3_mprintf, bind. rewrite enter_decision, Hq. cbn [ret].
      pose proof (ensure_parents_not_dir (ancestors (String c r))
                    (entered (CallMprintf (String c r)) w) p Hin Hnd) as Herr.
      destruct (ensure_parents_spec _ _) as [rc w2]. exact Herr.
    + subst out. rewrite Hrc. now apply ensure_parents_not_dir with (p := p).
Qed.

(** ** Writing, then reading *)

(** C1, as stated, fails: forty bytes are written to [/tmp/f] with success;
    read back through a connection whose length limit is thirty, the
    result is SQLITE_TOOBIG and not the blob. *)
Lemma read_back_over_limit :
  let written := writeFile (fresh_context 1000) "/tmp/f" (SqlBlob forty_bytes) o666 (-1)
                   (quiet_world tmp_fs) in
  fst (fst written) = 0
  /\ ctx_result (fst (readFileContents (fresh_context 30) "/tmp/f" (snd written)))
     = ResErrorCode SQLITE_TOOBIG
  /\ ctx_result (fst (readFileContents (fresh_context 30) "/tmp/f" (snd written)))
     <> ResBlob forty_bytes.
Proof. vm_compute. repeat split. discriminate. Qed.

(** C1, amended: after a successful [writeFile] of the value [pData] to
    [zFile], [readFileContents] on [zFile] returns a blob equal to the bytes
    of [pData], provided their number does not exceed the length limit of
    the reading connection and the environment refuses nothing during the
    read. *)
Theorem write_then_read_roundtrip (pCtx c ctx : sqlite3_context) (zFile : string)
    (pData : sqlite3_value) (mode mtime : Z) (w w1 : world) :
  writeFile pCtx zFile pData mode mtime w = ((0, c), w1) ->
  w_faults w1 = [] ->
  sqlite3_value_bytes pData <= ctx_limit_length ctx ->
  ctx_result (fst (readFileContents ctx zFile w1)) = ResBlob (value_bytes pData).
Proof.
  intros Hwrite Hquiet Hfit.
  apply writeFile_success_holds in Hwrite.
  destruct (fopen_rb_holds zFile _ w1 (quiet_unrefused _ Hquiet) Hwrite) as [q Hopen].
  apply (readFileContents_quiet ctx zFile w1 _ _ Hopen).
  - cbn. now rewrite Hquiet.
  - exact Hfit.
Qed.

Lemma write_then_read_roundtrip_witness :
  ctx_result
    (fst (readFileContents (fresh_context 1000) "/tmp/f"
            (snd (writeFile (fresh_context 1000) "/tmp/f" (SqlBlob forty_bytes) o666 (-1)
                    (quiet_world tmp_fs)))))
  = ResBlob forty_bytes.
Proof.
  apply (write_then_read_roundtrip (fresh_context 1000)
           (sqlite3_result_int64 (fresh_context 1000) 40) (fresh_context 1000)
           "/tmp/f" (SqlBlob forty_bytes) o666 (-1) (quiet_world tmp_fs)).
  - vm_compute. reflexivity.
  - vm_compute. reflexivity.
  - vm_compute. discriminate.
Defined.

(** * Further properties of the code *)

(** ** What a successful [writeFile] leaves behind *)








(** ** The calls of [writeFile], in order *)

Lemma fwrite_trace (z : list byte) (n : Z) (h : FILE) (w : world) :
  w_trace (snd (fwrite z n h w)) = w_trace w ++ [CallFwrite n].
Proof.
  unfold fwrite, bind. rewrite enter_decision. unfold get_fs.
  cbn [w_fs entered enter snd].
  destruct (fs_get (w_fs w) (f_path h)) as [[p mt d | p | t] |];
    destruct (decision 0 w); reflexivity.
Qed.

Lemma sys_chmod_trace (path : string) (mode : Z) (w : world) :
  w_trace (snd (sys_chmod path mode w)) = w_trace w ++ [CallChmod path mode].
Proof.
  destruct (sys_chmod path mode w) as [r w'] eqn:E.
  apply sys_chmod_inv in E as (H & _). exact H.
Qed.

Lemma sys_utimes_trace (path : string) (mtime : Z) (w : world) :
  w_trace (snd (sys_utimes path mtime w)) = w_trace w ++ [CallUtimes path mtime].
Proof.
  unfold sys_utimes, bind. rewrite enter_decision.
  destruct (decision 0 w); [reflexivity |].
  unfold get_fs. cbn [w_fs entered enter snd].
  destruct (resolve (w_fs w) path) as [q |]; [| reflexivity].
  destruct (fs_get (w_fs w) q) as [[p mt d | p | t] |]; try reflexivity.
  destruct (String.eqb q "/"); reflexivity.
Qed.

(** X2: [writeFile] makes its calls in a fixed order.  If the open fails
    nothing else is called and the file system is as before.  If it
    succeeds, [fwrite] is called exactly when the value has bytes, then the
    stream is closed, exactly once and on every path, then [chmod] may be
    called, only for a mode that is not zero, then [utimes], only for a
    modification time that is not negative. *)
Theorem writeFile_calls (pCtx : sqlite3_context) (zFile : string) (pData : sqlite3_value)
    (mode mtime : Z) (w : world) :
  let out := writeFile pCtx zFile pData mode mtime w in
  match fst (fopen zFile "wb" w) with
  | None =>
      w_trace (snd out) = w_trace w ++ [CallFopen zFile "wb"]
      /\ w_fs (snd out) = w_fs w
  | Some _ =>
      exists (modes times : bool),
        w_trace (snd out)
        = w_trace w ++ [CallFopen zFile "wb"]
            ++ (match sqlite3_value_blob pData with
                | Some _ => [CallFwrite (sqlite3_value_bytes pData)]
                | None => []
                end)
            ++ [CallFclose]
            ++ (if modes then [CallChmod zFile mode] else [])
            ++ (if times then [CallUtimes zFile mtime] else [])
        /\ (modes = true -> mode <> 0)
        /\ (times = true -> 0 <= mtime)
  end.
Proof.
  intros out. assert (Hout : out = writeFile pCtx zFile pData mode mtime w) by reflexivity.
  clearbody out. unfold writeFile in Hout. unfold bind at 1 in Hout.
  pose proof (fopen_wb_trace zFile w) as Hopen.
  destruct (fopen zFile "wb" w) as [[h |] wa] eqn:Hrun; cbn [fst snd] in *; subst out.
  2:{ cbn [ret snd]. split; [exact Hopen |].
      rewrite fopen_wb_eq in Hrun. revert Hrun. unfold fopen_wb, bind.
      rewrite enter_decision. destruct (decision 0 w); [now intros [= <-] |].
      unfold get_fs. cbn [w_fs entered enter snd].
      destruct (resolve (w_fs w) zFile) as [q |]; [| now intros [= <-]].
      destruct (fs_get (w_fs w) q) as [[p mt d | p | t] |];
        try discriminate; try (now intros [= <-]).
      destruct (String.eqb q ""); [now intros [= <-] |].
      destruct (parent_errno (w_fs w) q); [now intros [= <-] | discriminate]. }
  unfold bind at 1.
  set (written := match sqlite3_value_blob pData with
                  | Some _ => [CallFwrite (sqlite3_value_bytes pData)]
                  | None => []
                  end).
  assert (exists nWrite rc wb,
            match sqlite3_value_blob pData with
            | Some z =>
                let* n := fwrite z (sqlite3_value_bytes pData) h in
                ret (sqlite3_value_bytes pData,
                     if negb (sqlite3_value_bytes pData =? n) then 1 else 0)
            | None => ret (0, 0)
            end wa = ((nWrite, rc), wb)
            /\ w_trace wb = w_trace wa ++ written) as Hwrite.
  { subst written. destruct (sqlite3_value_blob pData) as [z |].
    - unfold bind. pose proof (fwrite_trace z (sqlite3_value_bytes pData) h wa) as Hfw.
      destruct (fwrite z _ h wa) as [n wb]. eexists _, _, wb. split; [reflexivity | exact Hfw].
    - exists 0, 0, wa. split; [reflexivity | now rewrite app_nil_r]. }
  destruct Hwrite as (nWrite & rc & wb & -> & Hwb).
  unfold bind at 1. unfold fclose at 1, note at 1.
  match goal with |- context [bind _ _ ?w0] => set (wc := w0) end.
  assert (Hwc : w_trace wc = w_trace w ++ [CallFopen zFile "wb"] ++ written ++ [CallFclose]).
  { subst wc. cbn [w_trace]. rewrite Hwb, Hopen. now rewrite <- !app_assoc. }
  clearbody wc. unfold bind at 1.
  destruct ((rc =? 0) && negb (mode =? 0)) eqn:Hmode.
  - apply andb_prop in Hmode as [_ Hmode]. apply negb_true_iff, Z.eqb_neq in Hmode.
    unfold bind at 1. pose proof (sys_chmod_trace zFile mode wc) as Hch.
    destruct (sys_chmod zFile mode wc) as [r wd]. cbn [snd] in Hch. unfold ret at 1.
    destruct (negb ((if negb (r =? 0) then 1 else rc) =? 0)).
    + exists true, false. cbn [snd ret]. rewrite Hch, Hwc.
      split; [same_trace | split; [auto | discriminate]].
    + destruct (Z.geb_spec mtime 0) as [Hmt | Hmt].
      * unfold bind. pose proof (sys_utimes_trace zFile mtime wd) as Hut.
        destruct (sys_utimes zFile mtime wd) as [r' we]. cbn [snd] in Hut.
        exists true, true. destruct (negb (r' =? 0)); cbn [snd ret]; rewrite Hut, Hch, Hwc;
          (split; [same_trace | split; auto; intros _; lia]).
      * exists true, false. cbn [snd ret]. rewrite Hch, Hwc.
        split; [same_trace | split; [auto | discriminate]].
  - unfold ret at 1. destruct (negb (rc =? 0)).
    + exists false, false. cbn [snd ret]. rewrite Hwc.
      split; [same_trace | split; discriminate].
    + destruct (Z.geb_spec mtime 0) as [Hmt | Hmt].
      * unfold bind. pose proof (sys_utimes_trace zFile mtime wc) as Hut.
        destruct (sys_utimes zFile mtime wc) as [r' we]. cbn [snd] in Hut.
        exists false, true. destruct (negb (r' =? 0)); cbn [snd ret]; rewrite Hut, Hwc;
          (split; [same_trace | split; [discriminate | intros _; lia]]).
      * exists false, false. cbn [snd ret]. rewrite Hwc.
        split; [same_trace | split; discriminate].
Qed.

(** ** A write that stops short *)

Lemma blob_of_bytes (pData : sqlite3_value) :
  value_bytes pData <> [] -> sqlite3_value_blob pData = Some (value_bytes pData).
Proof. unfold sqlite3_value_blob. destruct (value_bytes pData); [contradiction | reflexivity]. Qed.

(** X3: when [fwrite] moves fewer bytes than the value has, [writeFile]
    returns 2 and leaves the context untouched; it closes the stream and
    makes no further call: no [chmod], no [utimes], and nothing removes the
    file, which is left holding the bytes that were moved. *)
Theorem writeFile_short_write (pCtx : sqlite3_context) (zFile : string)
    (pData : sqlite3_value) (mode mtime : Z) (w wa : world) (h : FILE) (fl : fault) :
  fopen zFile "wb" w = (Some h, wa) ->
  decision 0 wa = Some fl ->
  (f_moved fl < length (value_bytes pData))%nat ->
  let out := writeFile pCtx zFile pData mode mtime w in
  fst out = (2, pCtx)
  /\ holds (w_fs (snd out)) zFile (take (f_moved fl) (value_bytes pData))
  /\ w_trace (snd out)
     = w_trace wa ++ [CallFwrite (sqlite3_value_bytes pData); CallFclose]
  /\ w_errno (snd out) = f_errno fl.
Proof.
  intros Hopen Hdec Hshort out.
  assert (Hout : out = writeFile pCtx zFile pData mode mtime w) by reflexivity.
  clearbody out. unfold writeFile in Hout. unfold bind at 1 in Hout. rewrite Hopen in Hout.
  rewrite fopen_wb_eq in Hopen.
  apply fopen_wb_inv in Hopen as (q & p & mt & _ & Hpath & Hres & Hget).
  assert (Hne : value_bytes pData <> []) by (intros E; rewrite E in Hshort; cbn in Hshort; lia).
  rewrite (blob_of_bytes _ Hne) in Hout.
  unfold bind at 1 2 in Hout. unfold fwrite in Hout. unfold bind at 1 in Hout.
  rewrite enter_decision, Hdec in Hout. unfold sqlite3_value_bytes in Hout.
  rewrite Nat2Z.id, Nat.min_l in Hout by lia.
  unfold bind at 1 in Hout. unfold get_fs at 1 in Hout.
  cbn [w_fs entered enter snd] in Hout. rewrite Hpath, Hget in Hout.
  unfold bind at 1 in Hout. unfold put_fs at 1, fails at 1 in Hout.
  rewrite length_take, Nat.min_l in Hout by lia.
  assert ((Z.of_nat (length (value_bytes pData)) =? Z.of_nat (f_moved fl)) = false) as Hneq
    by (apply Z.eqb_neq; lia).
  unfold ret at 1 in Hout. rewrite Hneq in Hout. cbn [negb] in Hout.
  unfold bind at 1 in Hout. unfold fclose at 1, note at 1 in Hout.
  unfold bind at 1 in Hout. cbn [Z.eqb andb] in Hout. unfold ret at 1 in Hout.
  cbn [Z.eqb negb ret] in Hout. subst out. cbn.
  split; [reflexivity |]. split; [| split; [same_trace | reflexivity]].
  eapply holds_update; [| eassumption].
  exact Hres.
Qed.

Lemma writeFile_short_write_witness :
  fst (writeFile (fresh_context 1000) "/tmp/f" (SqlBlob [x01; x02; x03]) o666 (-1)
         (faulty_world tmp_fs [None; Some {| f_errno := 28; f_moved := 1 |}]))
  = (2, fresh_context 1000).
Proof.
  refine (proj1 (writeFile_short_write (fresh_context 1000) "/tmp/f"
            (SqlBlob [x01; x02; x03]) o666 (-1)
            (faulty_world tmp_fs [None; Some {| f_errno := 28; f_moved := 1 |}])
            (snd (fopen "/tmp/f" "wb"
                    (faulty_world tmp_fs [None; Some {| f_errno := 28; f_moved := 1 |}])))
            {| f_path := "/tmp/f"; f_data := []; f_pos := 0 |}
            {| f_errno := 28; f_moved := 1 |} _ _ _)).
  - vm_compute. reflexivity.
  - reflexivity.
  - cbn. lia.
Defined.

(** ** The calls of [makeParentDirectory], in order *)






Lemma makeParentDirectory_nomem (zFile : string) (w : world) :
  decision 0 w <> None ->
  makeParentDirectory zFile w = (SQLITE_NOMEM, entered (CallMprintf zFile) w).
Proof.
  intros Hd. unfold makeParentDirectory, sqlite3_mprintf. unfold bind at 1 2.
  rewrite enter_decision. destruct (decision 0 w); [reflexivity | contradiction].
Qed.

Lemma makeParentDirectory_empty (w : world) :
  decision 0 w = None ->
  makeParentDirectory "" w
  = (SQLITE_ERROR,
     snd (sqlite3_free
            (snd (sys_mkdir "" o777 (snd (sys_stat "" (entered (CallMprintf "") w))))))).
Proof.
  intros Hd. unfold makeParentDirectory, sqlite3_mprintf. unfold bind at 1 2.
  rewrite enter_decision, Hd. cbn [ret]. unfold bind at 1.
  cbn [String.length]. rewrite parent_loop_empty. reflexivity.
Qed.

Lemma makeParentDirectory_run (zFile : string) (w : world) :
  zFile <> "" -> decision 0 w = None ->
  makeParentDirectory zFile w
  = (fst (ensure_parents_spec (ancestors zFile) (entered (CallMprintf zFile) w)),
     snd (sqlite3_free
            (snd (ensure_parents_spec (ancestors zFile) (entered (CallMprintf zFile) w))))).
Proof.
  intros Hne Hd. rewrite makeParentDirectory_refines by assumption.
  unfold sqlite3_mprintf. unfold bind at 1 2. rewrite enter_decision, Hd. cbn [ret].
  unfold bind at 1. destruct (ensure_parents_spec _ _) as [rc w2]. reflexivity.
Qed.


(** ** What [makeParentDirectory] guarantees, and running it again *)

Lemma fs_get_mono (fs fs' : gmap string node) (p : string) (n : node) :
  (forall q m, fs !! q = Some m -> fs' !! q = Some m) ->
  fs_get fs p = Some n -> fs_get fs' p = Some n.
Proof.
  intros Hmono. unfold fs_get.
  destruct (String.eqb p ""); [discriminate |].
  destruct (String.eqb p "/"); [auto |]. apply Hmono.
Qed.

Lemma resolve_from_mono (hops : nat) (fs fs' : gmap string node) :
  (forall q m, fs !! q = Some m -> fs' !! q = Some m) ->
  forall p q n, resolve_from hops fs p = Some q -> fs_get fs q = Some n ->
    resolve_from hops fs' p = Some q /\ fs_get fs' q = Some n.
Proof.
  intros Hmono. induction hops as [| h IH]; intros p q n; cbn [resolve_from]; [discriminate |].
  destruct (fs_get fs p) as [nd |] eqn:Hp.
  - rewrite (fs_get_mono _ _ _ _ Hmono Hp).
    destruct nd as [pm mt d | pm | t].
    + intros [= <-] Hq. split; [reflexivity | eapply fs_get_mono; eassumption].
    + intros [= <-] Hq. split; [reflexivity | eapply fs_get_mono; eassumption].
    + apply IH.
  - intros [= <-] Hq. congruence.
Qed.

Lemma is_directory_mono (fs fs' : gmap string node) (p : string) :
  (forall q m, fs !! q = Some m -> fs' !! q = Some m) ->
  is_directory fs p -> is_directory fs' p.
Proof.
  intros Hmono (q & perm & Hres & Hget).
  destruct (resolve_from_mono _ _ _ Hmono _ _ _ Hres Hget) as [Hres' Hget'].
  exists q, perm. auto.
Qed.

Lemma ensure_parents_ok_directories (ps : list string) :
  forall w, fst (ensure_parents_spec ps w) = SQLITE_OK ->
    forall p, In p ps -> is_directory (w_fs (snd (ensure_parents_spec ps w))) p.
Proof.
  induction ps as [| p0 ps IH]; intros w Hok p Hin; [destruct Hin |].
  revert Hok. cbn [ensure_parents_spec]. unfold bind, fileStat.
  destruct (sys_stat p0 w) as [[s |] w1] eqn:Hst;
    apply sys_stat_inv in Hst as (_ & _ & _ & Hfs1 & Hfound).
  - destruct (S_ISDIR (st_mode s)) eqn:Hdir; [| discriminate].
    intros Hok. destruct Hin as [<- | Hin]; [| now apply IH].
    destruct (Hfound s eq_refl) as (q & n & Hres & Hget & Hmode).
    rewrite Hmode in Hdir. apply only_dir_is_dir in Hdir as [perm ->].
    apply (is_directory_mono (w_fs w1)).
    + apply (ensure_parents_effect ps w1).
    + rewrite Hfs1. exists q, perm. auto.
  - destruct (sys_mkdir p0 o777 w1) as [r w2] eqn:Hmk.
    apply sys_mkdir_inv in Hmk as (_ & _ & _ & Hmk). rewrite Hfs1 in Hmk.
    destruct Hmk as [(-> & Hne & Hfree & Hfs2) | (-> & Hfs2)]; cbn [Z.eqb]; [| discriminate].
    intros Hok. destruct Hin as [<- | Hin]; [| now apply IH].
    apply (is_directory_mono (w_fs w2)).
    + apply (ensure_parents_effect ps w2).
    + rewrite Hfs2.
      assert (p0 <> "/") as Hroot by (intros ->; discriminate).
      assert (Hget : fs_get (<[p0 := Dir (Z.land (Z.land o777 o777) (Z.lnot (w_umask w1)))]>
                               (w_fs w)) p0
                     = Some (Dir (Z.land (Z.land o777 o777) (Z.lnot (w_umask w1)))))
        by now apply fs_get_insert_eq.
      eexists p0, _. split; [apply resolve_self; now rewrite Hget | exact Hget].
Qed.

Lemma ensure_parents_on_directories (ps : list string) :
  forall w, w_faults w = [] -> (forall p, In p ps -> is_directory (w_fs w) p) ->
    fst (ensure_parents_spec ps w) = SQLITE_OK
    /\ w_fs (snd (ensure_parents_spec ps w)) = w_fs w
    /\ w_faults (snd (ensure_parents_spec ps w)) = [].
Proof.
  induction ps as [| p0 ps IH]; intros w Hquiet Hdirs; [auto |].
  cbn [ensure_parents_spec]. unfold bind, fileStat.
  destruct (Hdirs p0 (or_introl eq_refl)) as (q & perm & Hres & Hget).
  rewrite (sys_stat_found p0 q w (Dir perm)) by (auto using quiet_unrefused).
  cbn [st_mode]. rewrite dir_is_dir.
  apply (IH (entered (CallStat p0) w)).
  - cbn. now rewrite Hquiet.
  - intros p Hin. apply Hdirs. now right.
Qed.

Lemma makeParentDirectory_ok_inv (zFile : string) (w : world) :
  fst (makeParentDirectory zFile w) = SQLITE_OK -> zFile <> "" /\ decision 0 w = None.
Proof.
  intros Hok. destruct (decision 0 w) as [fl |] eqn:Hd.
  - rewrite makeParentDirectory_nomem in Hok by (rewrite Hd; discriminate). discriminate.
  - split; [| reflexivity]. intros ->.
    rewrite makeParentDirectory_empty in Hok by assumption. discriminate.
Qed.

(** X5: when [makeParentDirectory] returns SQLITE_OK every ancestor prefix
    of the path leads to a directory.  It is safe to run again: with
    nothing refused, on a path that is not empty and whose ancestor
    prefixes all lead to directories, it returns SQLITE_OK and leaves the
    file system exactly as it was; so a second run after a successful one
    succeeds and changes nothing. *)
Theorem makeParentDirectory_idempotent (zFile : string) (w : world) :
  let out := makeParentDirectory zFile w in
  (fst out = SQLITE_OK ->
     (forall p, In p (ancestors zFile) -> is_directory (w_fs (snd out)) p)
     /\ (w_faults (snd out) = [] ->
         fst (makeParentDirectory zFile (snd out)) = SQLITE_OK
         /\ w_fs (snd (makeParentDirectory zFile (snd out))) = w_fs (snd out)))
  /\ (w_faults w = [] -> zFile <> "" ->
      (forall p, In p (ancestors zFile) -> is_directory (w_fs w) p) ->
      fst out = SQLITE_OK /\ w_fs (snd out) = w_fs w).
Proof.
  intros out.
  assert (Hagain : forall w0, w_faults w0 = [] -> zFile <> "" ->
            (forall p, In p (ancestors zFile) -> is_directory (w_fs w0) p) ->
            fst (makeParentDirectory zFile w0) = SQLITE_OK
            /\ w_fs (snd (makeParentDirectory zFile w0)) = w_fs w0).
  { intros w0 Hquiet Hne Hdirs.
    rewrite makeParentDirectory_run
      by (try assumption; apply quiet_unrefused; assumption).
    destruct (ensure_parents_on_directories (ancestors zFile)
                (entered (CallMprintf zFile) w0)) as (Hok & Hfs & _).
    - cbn. now rewrite Hquiet.
    - exact Hdirs.
    - cbn [fst snd]. split; [exact Hok |]. unfold sqlite3_free, note. cbn [snd w_fs].
      exact Hfs. }
  split; [| apply Hagain].
  intros Hok. destruct (makeParentDirectory_ok_inv _ _ Hok) as [Hne Hd].
  assert (Hdirs : forall p, In p (ancestors zFile) -> is_directory (w_fs (snd out)) p).
  { subst out. rewrite makeParentDirectory_run in Hok |- * by assumption.
    cbn [fst snd] in *. unfold sqlite3_free, note. cbn [snd w_fs].
    now apply ensure_parents_ok_directories. }
  split; [exact Hdirs |]. intros Hquiet. now apply Hagain.
Qed.

(** ** The permission bits [makeDirectory] leaves *)





(** ** [mkdir] does not create parents *)




(** ** What [lsmode] does not show *)

Lemma lsmode_text (context : sqlite3_context) (argv : list sqlite3_value) :
  sqlite3_lsmode context argv
  = sqlite3_result_text context (format_mode_spec (sqlite3_value_int (arg 0 argv))).
Proof.
  unfold sqlite3_lsmode, format_mode_spec, lsmode_triad, perm_char.
  cbn [flat_map app]. do 2 f_equal.
  rewrite !read_bit, !write_bit, !exec_bit by lia. reflexivity.
Qed.

Lemma shown_kind (m : Z) : Z.land (Z.land m shown_bits) S_IFMT = Z.land m S_IFMT.
Proof. rewrite <- Z.land_assoc. reflexivity. Qed.

Lemma shown_permission (m k : Z) :
  0 <= k < 9 -> Z.testbit (Z.land m shown_bits) k = Z.testbit m k.
Proof.
  intros Hk. apply low_bits_testbit; [lia |].
  assert (k = 0 \/ k = 1 \/ k = 2 \/ k = 3 \/ k = 4 \/ k = 5 \/ k = 6 \/ k = 7 \/ k = 8)
    as Hc by lia.
  intuition (subst; reflexivity).
Qed.

Lemma format_mode_shown (m : Z) :
  format_mode_spec (Z.land m shown_bits) = format_mode_spec m.
Proof.
  unfold format_mode_spec, perm_char, S_ISLNK, S_ISREG, S_ISDIR.
  rewrite shown_kind, !shown_permission by lia. reflexivity.
Qed.

(** X8: [lsmode] looks at the kind and at the nine permission bits only,
    the bits 0170777.  Two modes that agree on them give the same text:
    the set-user-id, set-group-id and sticky bits are never shown, and no
    bit above the sixteenth matters. *)
Theorem lsmode_shows_kind_and_rwx_only (context : sqlite3_context)
    (argv argv' : list sqlite3_value) :
  Z.land (sqlite3_value_int (arg 0 argv)) shown_bits
  = Z.land (sqlite3_value_int (arg 0 argv')) shown_bits ->
  sqlite3_lsmode context argv = sqlite3_lsmode context argv'.
Proof.
  intros Hsame. rewrite !lsmode_text.
  rewrite <- (format_mode_shown (sqlite3_value_int (arg 0 argv))), Hsame.
  now rewrite format_mode_shown.
Qed.

Lemma lsmode_shows_kind_and_rwx_only_witness :
  sqlite3_lsmode (fresh_context 1000) [SqlInteger 0x43FF]
  = sqlite3_lsmode (fresh_context 1000) [SqlInteger 0x41FF].
Proof.
  apply (lsmode_shows_kind_and_rwx_only (fresh_context 1000)
           [SqlInteger 0x43FF] [SqlInteger 0x41FF]).
  reflexivity.
Defined.

(** ** [readFileContents] only reads *)



(** ** Times on Windows *)

Lemma to_int32_small (z : Z) : - 2 ^ 31 <= z < 2 ^ 31 -> to_int32 z = z.
Proof. intros Hz. unfold to_int32. rewrite Z.mod_small; lia. Qed.

Lemma to_int32_period (z : Z) : to_int32 (z + 2 ^ 32) = to_int32 z.
Proof.
  unfold to_int32. f_equal.
  replace (z + 2 ^ 32 + 2 ^ 31) with (z + 2 ^ 31 + 1 * 2 ^ 32) by lia.
  apply Z.mod_add. lia.
Qed.

Lemma quad_of_halves (z : Z) :
  0 <= z < 2 ^ 64 ->
  Win32.QuadPart (Win32.DWORD z) (Win32.DWORD (Z.shiftr z 32)) = z.
Proof.
  intros Hz. unfold Win32.QuadPart, Win32.DWORD.
  rewrite Z.shiftr_div_pow2 by lia.
  assert (0 <= z / 2 ^ 32 < 2 ^ 32) as Hhigh.
  { split; [apply Z.div_pos; lia |]. apply Z.div_lt_upper_bound; lia. }
  rewrite (Z.mod_small (z / 2 ^ 32)) by exact Hhigh.
  pose proof (Z.div_mod z (2 ^ 32)). lia.
Qed.

(** X10: on Windows a modification time survives the trip through
    [FILETIME] as long as it fits in 31 bits: [fileTimeToUnixTime] gives back
    the seconds [writeFile] converted.  The conversion looks at the low 32
    bits only, so a time [2^32] seconds later sets the same [FILETIME]. *)
Theorem windows_mtime_round_trip (mtime : Z) :
  0 <= mtime < 2 ^ 31 ->
  Win32.fileTimeToUnixTime (Win32.lastWrite mtime) = mtime
  /\ Win32.lastWrite (mtime + 2 ^ 32) = Win32.lastWrite mtime.
Proof.
  intros Hm. split.
  - unfold Win32.fileTimeToUnixTime, Win32.lastWrite, Win32.Int32x32To64.
    cbn [Win32.dwLowDateTime Win32.dwHighDateTime Win32.epochFileTime].
    rewrite (to_int32_small mtime), (to_int32_small 10000000) by lia.
    assert (Win32.LONGLONG (mtime * 10000000 + 116444736000000000)
            = mtime * 10000000 + 116444736000000000) as ->.
    { unfold Win32.LONGLONG. rewrite Z.mod_small; lia. }
    rewrite quad_of_halves by lia.
    change (Win32.QuadPart 3577643008 27111902) with 116444736000000000.
    replace (mtime * 10000000 + 116444736000000000 - 116444736000000000)
      with (mtime * 10000000) by lia.
    rewrite Z.mod_small by lia. apply Z.div_mul. lia.
  - unfold Win32.lastWrite, Win32.Int32x32To64. now rewrite to_int32_period.
Qed.

Lemma windows_mtime_round_trip_witness :
  Win32.fileTimeToUnixTime (Win32.lastWrite 1700000000) = 1700000000
  /\ Win32.lastWrite (1700000000 + 2 ^ 32) = Win32.lastWrite 1700000000.
Proof. apply (windows_mtime_round_trip 1700000000). lia. Defined.

(** ** The ancestors of a path lie one in the other *)









Lemma parent_ok_mono (fs fs' : gmap string node) (d : option string) :
  (forall q m, fs !! q = Some m -> fs' !! q = Some m) ->
  parent_ok fs d -> parent_ok fs' d.
Proof.
  intros Hkeep. destruct d as [[| c s] |]; cbn; auto. now apply is_directory_mono.
Qed.

(** ** Building the ancestors when nothing is in the way *)





(** ** Writing when nothing is refused *)














(** ** What [symlink] does *)

Lemma sys_symlink_inv (src : string) (dst : option string) (w w' : world) (r : Z) :
  sys_symlink src dst w = (r, w') ->
  w_trace w' = w_trace w ++ [CallSymlink src dst]
  /\ ((r = 0 /\ exists d, dst = Some d /\ d <> "" /\ fs_get (w_fs w) d = None
                         /\ parent_errno (w_fs w) d = None
                         /\ w_fs w' = <[d := Lnk src]> (w_fs w))
      \/ (r = -1 /\ w_fs w' = w_fs w)).
Proof.
  unfold sys_symlink, bind. rewrite enter_decision.
  destruct (decision 0 w) as [fl |]; [intros [= <- <-]; cbn; auto |].
  destruct dst as [d |]; [| intros [= <- <-]; cbn; auto].
  unfold get_fs. cbn [w_fs entered enter snd].
  destruct (String.eqb_spec d "") as [-> | Hne]; [intros [= <- <-]; cbn; auto |].
  destruct (fs_get (w_fs w) d) eqn:Hget; [intros [= <- <-]; cbn; auto |].
  destruct (parent_errno (w_fs w) d) eqn:Hpar; intros [= <- <-]; cbn; [auto |].
  split; [reflexivity |]. left. split; [reflexivity |]. exists d. auto 10.
Qed.

(** X12: [sqlite3_symlink] with other than two arguments raises the
    arity error and calls nothing; with a NULL source it does nothing at
    all.  Otherwise it makes exactly one call, [symlink], and hands it the
    text of the second argument unchecked, the null pointer when that
    argument is NULL; the context is never touched; and the file system is
    either as before or has gained a link to the source at a destination
    where nothing was: an entry that exists is never replaced. *)
Theorem sqlite3_symlink_calls (context : sqlite3_context) (argv : list sqlite3_value)
    (w : world) :
  let out := sqlite3_symlink context argv w in
  (argc_of argv <> 2 ->
     out = (sqlite3_result_error context "wrong number of arguments to function symlink()", w))
  /\ (argc_of argv = 2 ->
        match sqlite3_value_text (arg 0 argv) with
        | None => out = (context, w)
        | Some src =>
            fst out = context
            /\ w_trace (snd out)
               = w_trace w ++ [CallSymlink src (sqlite3_value_text (arg 1 argv))]
            /\ (arg 1 argv = SqlNull ->
                  w_trace (snd out) = w_trace w ++ [CallSymlink src None])
            /\ (w_fs (snd out) = w_fs w
                \/ exists dst, sqlite3_value_text (arg 1 argv) = Some dst
                               /\ fs_get (w_fs w) dst = None
                               /\ w_fs (snd out) = <[dst := Lnk src]> (w_fs w))
        end).
Proof.
  intros out. assert (Hout : out = sqlite3_symlink context argv w) by reflexivity.
  clearbody out. unfold sqlite3_symlink in Hout. split.
  - intros Hargc. destruct (Z.eqb_spec (argc_of argv) 2); [contradiction |].
    cbn [negb] in Hout. exact Hout.
  - intros Hargc. rewrite Hargc in Hout. change (negb (2 =? 2)) with false in Hout.
    cbv iota in Hout.
    destruct (sqlite3_value_text (arg 0 argv)) as [src |]; [| exact Hout].
    unfold bind, createSymlink in Hout. unfold bind in Hout.
    destruct (sys_symlink src (sqlite3_value_text (arg 1 argv)) w) as [r w1] eqn:Hsym.
    apply sys_symlink_inv in Hsym as (Htr & Hfs).
    assert (out = (context, w1)) as ->.
    { rewrite Hout. destruct (r <? 0); reflexivity. }
    cbn [fst snd]. split; [reflexivity |]. split; [exact Htr |]. split.
    + intros Hnull. rewrite Htr, Hnull. reflexivity.
    + destruct Hfs as [(_ & d & Hd & _ & Hnone & _ & Hfs) | (_ & Hfs)]; [right | left; exact Hfs].
      exists d. auto.
Qed.

(** ** Directory streams on Windows *)

Section WindirentFacts.

Variable NAME_MAX : nat.
Variable is_filtered : Windirent.finddata -> bool.
Variable INO_BITS : Z.
Variable snprintf_pattern : option string -> string.

Local Abbreviation next_loop := (Windirent.next_loop is_filtered).
Local Abbreviation next := (Windirent.next is_filtered).
Local Abbreviation opendir := (Windirent.opendir NAME_MAX is_filtered snprintf_pattern).
Local Abbreviation readdir := (Windirent.readdir NAME_MAX is_filtered INO_BITS).
Local Abbreviation readdir_r := (Windirent.readdir_r NAME_MAX is_filtered INO_BITS).
Local Abbreviation readdir_times := (Windirent.readdir_times NAME_MAX is_filtered INO_BITS).
Local Abbreviation shown := (Windirent.shown NAME_MAX).
Local Abbreviation shown_from := (Windirent.shown_from NAME_MAX is_filtered INO_BITS).
Local Abbreviation unfiltered_from := (Windirent.unfiltered_from is_filtered).
Local Abbreviation visible := (Windirent.visible is_filtered).
Local Abbreviation list_directory :=
  (Windirent.list_directory NAME_MAX is_filtered INO_BITS snprintf_pattern).
Local Abbreviation copy_name := (Windirent.copy_name NAME_MAX).
Local Abbreviation ino_incr := (Windirent.ino_incr INO_BITS).
Local Abbreviation ino_minus_one := (Windirent.ino_minus_one INO_BITS).

(** The loop stops at the first entry left that is not filtered, or at the
    end of the search. *)
Lemma next_loop_spec (l : list Windirent.finddata) :
  forall (rounds : nat) (handle : Z) (w : Windirent.winworld),
    Windirent.ww_searches w !! handle = Some l ->
    (length l < rounds)%nat ->
    exists calls,
      next_loop rounds handle w
      = (head (unfiltered_from l),
         {| Windirent.ww_env := Windirent.ww_env w;
            Windirent.ww_listing := Windirent.ww_listing w;
            Windirent.ww_searches :=
              <[handle := tail (unfiltered_from l)]> (Windirent.ww_searches w);
            Windirent.ww_handle := Windirent.ww_handle w;
            Windirent.ww_nomem := Windirent.ww_nomem w;
            Windirent.ww_trace :=
              Windirent.ww_trace w ++ repeat (Windirent.CallFindNext handle) (S calls) |}).
Proof.
  induction l as [| e l IH]; intros rounds handle w Hopen Hfuel;
    (destruct rounds as [| rounds]; [cbn in Hfuel; lia |]).
  - exists 0%nat. cbn [Windirent.next_loop Windirent.unfiltered_from head tail].
    unfold Windirent.wbind, Windirent._findnext. rewrite Hopen.
    unfold Windirent.wret, Windirent.wnote. cbn [repeat].
    rewrite insert_id by exact Hopen. reflexivity.
  - cbn [Windirent.next_loop Windirent.unfiltered_from].
    unfold Windirent.wbind at 1. unfold Windirent._findnext. rewrite Hopen.
    destruct (is_filtered e).
    + edestruct (IH rounds handle) as (calls & ->).
      { cbn. apply lookup_insert_eq. }
      { cbn in Hfuel. lia. }
      exists (S calls). cbn. rewrite insert_insert_eq.
      rewrite <- app_assoc. reflexivity.
    + exists 0%nat. reflexivity.
Qed.

Lemma next_spec (l : list Windirent.finddata) (handle : Z) (w : Windirent.winworld) :
  Windirent.ww_searches w !! handle = Some l ->
  exists calls,
    next handle w
    = (head (unfiltered_from l),
       {| Windirent.ww_env := Windirent.ww_env w;
          Windirent.ww_listing := Windirent.ww_listing w;
          Windirent.ww_searches :=
            <[handle := tail (unfiltered_from l)]> (Windirent.ww_searches w);
          Windirent.ww_handle := Windirent.ww_handle w;
          Windirent.ww_nomem := Windirent.ww_nomem w;
          Windirent.ww_trace :=
            Windirent.ww_trace w ++ repeat (Windirent.CallFindNext handle) (S calls) |}).
Proof.
  intros Hopen. unfold Windirent.next, Windirent.wbind, Windirent.remaining.
  rewrite Hopen. change (default [] (Some l)) with l.
  apply next_loop_spec; [exact Hopen | lia].
Qed.

Lemma unfiltered_head (l rest : list Windirent.finddata) (e : Windirent.finddata) :
  unfiltered_from l = e :: rest -> is_filtered e = false.
Proof.
  induction l as [| a l IH]; cbn; [discriminate |].
  destruct (is_filtered a) eqn:Ha; [exact IH |]. now intros [= <- <-].
Qed.

Lemma shown_from_unfiltered (k : Z) (l : list Windirent.finddata) :
  shown_from k l = shown_from k (unfiltered_from l).
Proof.
  induction l as [| a l IH]; cbn; [reflexivity |].
  destruct (is_filtered a) eqn:Ha; [exact IH |]. cbn. now rewrite Ha.
Qed.

Lemma shown_from_step (k : Z) (l rest : list Windirent.finddata) (e : Windirent.finddata) :
  unfiltered_from l = e :: rest ->
  shown_from k l = shown (ino_incr k) e :: shown_from (ino_incr k) rest.
Proof.
  intros Hl. rewrite shown_from_unfiltered, Hl. cbn.
  now rewrite (unfiltered_head _ _ _ Hl).
Qed.

Lemma shown_from_none (k : Z) (l : list Windirent.finddata) :
  unfiltered_from l = [] -> shown_from k l = [].
Proof. intros Hl. now rewrite shown_from_unfiltered, Hl. Qed.

Lemma visible_unfiltered (l : list Windirent.finddata) :
  visible l = visible (unfiltered_from l).
Proof.
  induction l as [| a l IH]; cbn; [reflexivity |].
  destruct (is_filtered a) eqn:Ha; cbn; [exact IH |]. now rewrite Ha.
Qed.

Lemma shown_from_names (l : list Windirent.finddata) :
  forall k,
    map Windirent.d_name (shown_from k l)
    = map (fun e => copy_name (Windirent.name e)) (visible l)
    /\ map Windirent.d_attributes (shown_from k l) = map Windirent.attrib (visible l).
Proof.
  induction l as [| a l IH]; intros k; cbn; [auto |].
  destruct (is_filtered a); cbn; [apply IH |].
  destruct (IH (ino_incr k)) as [-> ->]. auto.
Qed.

Lemma windirent_getenv_run (name : string) (w : Windirent.winworld) :
  Windirent.windirent_getenv name w
  = (match Windirent.ww_env w name with
     | Some v =>
         if (0 <? Z.of_nat (String.length v)) && (Z.of_nat (String.length v) <? 32768)
         then Some v else None
     | None => None
     end,
     Windirent.wnote (Windirent.CallGetEnvironmentVariable name) w).
Proof.
  unfold Windirent.windirent_getenv, Windirent.wbind, Windirent.GetEnvironmentVariableA.
  destruct (Windirent.ww_env w name) as [v |]; [| reflexivity].
  remember (Z.of_nat (String.length v)) as n eqn:Hn.
  assert (0 <= n) as Hpos by lia. clear Hn.
  destruct (Z.leb_spec (n + 1) 32768) as [Hfit | Hbig].
  - destruct (Z.eqb_spec n 0) as [Hzero | Hnz]; cbn [orb].
    + destruct (Z.ltb_spec 0 n); [lia | reflexivity].
    + destruct (Z.gtb_spec n 32768); [lia |].
      destruct (Z.ltb_spec 0 n); [| lia].
      destruct (Z.ltb_spec n 32768); [reflexivity | lia].
  - destruct (Z.eqb_spec (n + 1) 0); [lia |].
    destruct (Z.gtb_spec (n + 1) 32768); [| lia].
    cbn [orb].
    destruct (Z.ltb_spec n 32768); [lia |].
    now rewrite andb_false_r.
Qed.

(** X13: [windirent_getenv] makes one call of [GetEnvironmentVariableA]
    and returns the value of the variable exactly when the variable is set
    to a value that is not empty and is shorter than 32768 characters: a
    variable set to the empty text is reported like one that is not set. *)
Theorem windirent_getenv_value (name : string) (w : Windirent.winworld) :
  let out := Windirent.windirent_getenv name w in
  snd out = Windirent.wnote (Windirent.CallGetEnvironmentVariable name) w
  /\ (forall v, fst out = Some v <->
                Windirent.ww_env w name = Some v
                /\ 0 < Z.of_nat (String.length v) < 32768)
  /\ (Windirent.ww_env w name = Some "" -> fst out = None).
Proof.
  cbv zeta. rewrite windirent_getenv_run. cbn [fst snd].
  split; [reflexivity |]. split.
  - intros v. destruct (Windirent.ww_env w name) as [v0 |];
      [| split; [discriminate | now intros [? _]]].
    destruct (Z.ltb_spec 0 (Z.of_nat (String.length v0))),
             (Z.ltb_spec (Z.of_nat (String.length v0)) 32768);
      cbn [andb]; split; try discriminate;
      try (intros [= <-]; split; [reflexivity | lia]);
      try (intros [[= <-] ?]; first [reflexivity | lia]).
  - intros ->. reflexivity.
Qed.

Lemma closedir_open (d : Windirent.DIR) (p : positive) (l : list Windirent.finddata)
    (w : Windirent.winworld) :
  Windirent.d_handle d = Z.pos p ->
  Windirent.ww_searches w !! Z.pos p = Some l ->
  Windirent.closedir (Some d) w
  = (0, Windirent.wnote Windirent.CallFree
          (Windirent.wnote (Windirent.CallFindClose (Z.pos p))
             (Windirent.set_searches (delete (Z.pos p) (Windirent.ww_searches w)) w))).
Proof.
  intros Hd Hopen. unfold Windirent.closedir, Windirent.wbind. rewrite Hd.
  cbn [Windirent.NULL_INTPTR_T Windirent.BAD_INTPTR_T Z.eqb negb andb].
  unfold Windirent._findclose. rewrite Hopen. reflexivity.
Qed.

Lemma opendir_spec (dirname : string) (w : Windirent.winworld) :
  hd false (Windirent.ww_nomem w) = false ->
  Windirent.ww_searches w !! Z.pos (Windirent.ww_handle w) = None ->
  let target := if Windirent.is_root dirname
                then fst (Windirent.windirent_getenv "SystemDrive" w)
                else Some dirname in
  let handle := Z.pos (Windirent.ww_handle w) in
  match unfiltered_from (Windirent.ww_listing w (snprintf_pattern target)) with
  | [] =>
      exists w1 calls,
        opendir dirname w = (None, w1)
        /\ Windirent.ww_searches w1 = Windirent.ww_searches w
        /\ Windirent.ww_trace w1
           = Windirent.ww_trace w ++ Windirent.CallMalloc :: calls ++ [Windirent.CallFree]
  | e :: rest =>
      exists w1,
        opendir dirname w
        = (Some {| Windirent.d_handle := handle;
                   Windirent.d_first := shown 0 e;
                   Windirent.d_next := Windirent.zero_dirent |}, w1)
        /\ Windirent.ww_searches w1 = <[handle := rest]> (Windirent.ww_searches w)
  end.
Proof.
  intros Hmem Hfresh target handle.
  remember (opendir dirname w) as out eqn:Hout.
  unfold Windirent.opendir in Hout. unfold Windirent.wbind at 1 in Hout.
  unfold Windirent.sqlite3_malloc in Hout. rewrite Hmem in Hout. cbn [negb] in Hout.
  unfold Windirent.wbind at 1 in Hout.
  set (w0 := Windirent.wnote Windirent.CallMalloc _) in Hout.
  assert (exists w1 calls,
            (if Windirent.is_root dirname
             then Windirent.windirent_getenv "SystemDrive"
             else Windirent.wret (Some dirname)) w0 = (target, w1)
            /\ Windirent.ww_listing w1 = Windirent.ww_listing w
            /\ Windirent.ww_searches w1 = Windirent.ww_searches w
            /\ Windirent.ww_handle w1 = Windirent.ww_handle w
            /\ Windirent.ww_trace w1 = Windirent.ww_trace w ++ Windirent.CallMalloc :: calls)
    as (w1 & calls & Hdir & Hl1 & Hs1 & Hh1 & Ht1).
  { subst target. destruct (Windirent.is_root dirname).
    - rewrite !windirent_getenv_run. cbn [fst]. eexists _, [_].
      split; [reflexivity |]. cbn. rewrite <- app_assoc. auto.
    - exists w0, []. split; [reflexivity |]. cbn. auto. }
  rewrite Hdir in Hout. clear Hdir w0.
  unfold Windirent.wbind at 1 in Hout. unfold Windirent._findfirst in Hout.
  rewrite Hl1, Hh1, Hs1 in Hout. fold handle in Hout.
  destruct (Windirent.ww_listing w (snprintf_pattern target)) as [| e0 rest0] eqn:Hlist.
  - (* nothing matches *)
    cbn [Windirent.unfiltered_from].
    unfold Windirent.closedir, Windirent.wbind in Hout.
    cbn [Windirent.d_handle Windirent.BAD_INTPTR_T Windirent.NULL_INTPTR_T Z.eqb negb andb]
      in Hout.
    cbn in Hout. subst out.
    eexists _, (calls ++ [Windirent.CallFindFirst (snprintf_pattern target)]).
    split; [reflexivity |]. cbn.
    split; [exact Hs1 |]. rewrite Ht1. rewrite <- !app_assoc. reflexivity.
  - cbn [Windirent.unfiltered_from].
    change (handle =? Windirent.BAD_INTPTR_T) with false in Hout. cbv iota in Hout.
    set (w2 := Windirent.wnote _ _) in Hout.
    assert (Windirent.ww_searches w2 !! handle = Some rest0) as Hopen
      by (cbn; apply lookup_insert_eq).
    destruct (is_filtered e0) eqn:He0.
    + unfold Windirent.wbind at 1 in Hout.
      destruct (next_spec rest0 handle w2 Hopen) as (k & Hnext).
      rewrite Hnext in Hout. clear Hnext.
      destruct (unfiltered_from rest0) as [| e rest] eqn:Hrest; cbn [head tail] in Hout.
      * unfold Windirent.wbind in Hout.
        erewrite (closedir_open _ (Windirent.ww_handle w)) in Hout;
          [| reflexivity | cbn; apply lookup_insert_eq].
        subst out.
        eexists _, (calls ++ Windirent.CallFindFirst (snprintf_pattern target)
                      :: repeat (Windirent.CallFindNext handle) (S k)
                      ++ [Windirent.CallFindClose handle]).
        split; [reflexivity |]. cbn [Windirent.ww_searches Windirent.ww_trace
          Windirent.wnote Windirent.set_searches snd w2].
        split.
        -- rewrite insert_insert_eq, delete_insert_eq. now apply delete_id.
        -- rewrite Ht1. rewrite <- !app_assoc. cbn [app]. rewrite <- !app_assoc.
           reflexivity.
      * unfold Windirent.wret in Hout. subst out. eexists. split; [reflexivity |].
        cbn. now rewrite insert_insert_eq.
    + unfold Windirent.wbind, Windirent.wret in Hout. subst out.
      eexists. split; [reflexivity |]. reflexivity.
Qed.

(** X14: [opendir] without memory returns the null pointer after the one
    call.  With memory, and the search handle being a new one, it returns
    the null pointer whenever the search finds no entry that is not
    filtered, be it that nothing matches or that every entry is hidden; it
    has then freed the block, as its last call, and left no search open.
    Otherwise the stream it returns holds the first entry that is not
    filtered, the name cut to [NAME_MAX], both counters at zero, and the
    search stands just after that entry. *)
Theorem opendir_first_unfiltered (dirname : string) (w : Windirent.winworld) :
  let out := opendir dirname w in
  let target := if Windirent.is_root dirname
                then fst (Windirent.windirent_getenv "SystemDrive" w)
                else Some dirname in
  let handle := Z.pos (Windirent.ww_handle w) in
  (hd false (Windirent.ww_nomem w) = true ->
     fst out = None
     /\ Windirent.ww_trace (snd out) = Windirent.ww_trace w ++ [Windirent.CallMalloc]
     /\ Windirent.ww_searches (snd out) = Windirent.ww_searches w)
  /\ (hd false (Windirent.ww_nomem w) = false ->
      Windirent.ww_searches w !! handle = None ->
      match unfiltered_from (Windirent.ww_listing w (snprintf_pattern target)) with
      | [] =>
          fst out = None
          /\ Windirent.ww_searches (snd out) = Windirent.ww_searches w
          /\ exists calls,
               Windirent.ww_trace (snd out)
               = Windirent.ww_trace w
                   ++ Windirent.CallMalloc :: calls ++ [Windirent.CallFree]
      | e :: rest =>
          fst out = Some {| Windirent.d_handle := handle;
                            Windirent.d_first := shown 0 e;
                            Windirent.d_next := Windirent.zero_dirent |}
          /\ Windirent.ww_searches (snd out) = <[handle := rest]> (Windirent.ww_searches w)
      end).
Proof.
  intros out target handle. split.
  - intros Hmem. subst out. unfold Windirent.opendir, Windirent.wbind,
      Windirent.sqlite3_malloc. rewrite Hmem. cbn. auto.
  - intros Hmem Hfresh. pose proof (opendir_spec dirname w Hmem Hfresh) as Hspec.
    cbv zeta in Hspec. fold target handle in Hspec.
    destruct (unfiltered_from _) as [| e rest].
    + destruct Hspec as (w1 & calls & Hrun & Hs & Ht). subst out. rewrite Hrun.
      cbn [fst snd]. eauto.
    + destruct Hspec as (w1 & Hrun & Hs). subst out. rewrite Hrun. cbn [fst snd]. auto.
Qed.

Lemma padded_none (n : nat) : Windirent.padded (S n) [] = None :: Windirent.padded n [].
Proof. reflexivity. Qed.

Lemma readdir_later (d : Windirent.DIR) (p : positive) (l : list Windirent.finddata)
    (w : Windirent.winworld) :
  Windirent.d_ino (Windirent.d_first d) <> 0 ->
  Windirent.d_handle d = Z.pos p ->
  Windirent.ww_searches w !! Z.pos p = Some l ->
  exists w1,
    Windirent.ww_searches w1
    = <[Z.pos p := tail (unfiltered_from l)]> (Windirent.ww_searches w)
    /\ readdir (Some d) w
       = (match unfiltered_from l with
          | [] => (None, Some d)
          | e :: _ =>
              (Some Windirent.Next,
               Some {| Windirent.d_handle := Windirent.d_handle d;
                       Windirent.d_first := Windirent.d_first d;
                       Windirent.d_next :=
                         shown (ino_incr (Windirent.d_ino (Windirent.d_next d))) e |})
          end, w1).
Proof.
  intros Hino Hd Hopen. unfold Windirent.readdir.
  destruct (Z.eqb_spec (Windirent.d_ino (Windirent.d_first d)) 0); [contradiction |].
  unfold Windirent.wbind. rewrite Hd.
  destruct (next_spec l (Z.pos p) w Hopen) as (k & ->).
  destruct (unfiltered_from l) as [| e rest];
    (eexists; split; [| reflexivity]; reflexivity).
Qed.

Lemma readdir_times_later (n : nat) :
  forall (l : list Windirent.finddata) (d : Windirent.DIR) (p : positive)
         (w : Windirent.winworld),
    Windirent.d_ino (Windirent.d_first d) <> 0 ->
    Windirent.d_handle d = Z.pos p ->
    Windirent.ww_searches w !! Z.pos p = Some l ->
    exists d' w' l',
      readdir_times n d w
      = ((Windirent.padded n (shown_from (Windirent.d_ino (Windirent.d_next d)) l), d'), w')
      /\ Windirent.d_handle d' = Z.pos p
      /\ Windirent.ww_searches w' = <[Z.pos p := l']> (Windirent.ww_searches w).
Proof.
  induction n as [| n IH]; intros l d p w Hino Hd Hopen.
  - exists d, w, l. cbn. split; [reflexivity |]. split; [exact Hd |].
    symmetry. now apply insert_id.
  - cbn [Windirent.readdir_times]. unfold Windirent.wbind at 1.
    destruct (readdir_later d p l w Hino Hd Hopen) as (w1 & Hs1 & ->).
    destruct (unfiltered_from l) as [| e rest] eqn:Hl; cbn [tail] in Hs1.
    + cbn [from_option option_map]. unfold id. rewrite (shown_from_none _ _ Hl).
      destruct (IH [] d p w1 Hino Hd) as (d' & w' & l' & Hrun & Hd' & Hs').
      { rewrite Hs1. apply lookup_insert_eq. }
      unfold Windirent.wbind. rewrite Hrun. cbn [Windirent.shown_from].
      exists d', w', l'. split; [reflexivity |]. split; [exact Hd' |].
      rewrite Hs', Hs1. apply insert_insert_eq.
    + cbn [from_option option_map Windirent.deref Windirent.d_next]. unfold id.
      rewrite (shown_from_step _ _ _ _ Hl).
      match goal with
      | |- context [readdir_times n ?d1] =>
          destruct (IH rest d1 p w1) as (d' & w' & l' & Hrun & Hd' & Hs');
            [exact Hino | exact Hd | rewrite Hs1; apply lookup_insert_eq |]
      end.
      unfold Windirent.wbind. rewrite Hrun.
      exists d', w', l'. split; [reflexivity |]. split; [exact Hd' |].
      rewrite Hs', Hs1. apply insert_insert_eq.
Qed.

Lemma ino_incr_zero : 0 < INO_BITS -> ino_incr 0 = 1.
Proof.
  intros Hbits. unfold Windirent.ino_incr. apply Z.mod_small.
  assert (2 ^ 1 <= 2 ^ INO_BITS) by (apply Z.pow_le_mono_r; lia). lia.
Qed.

Lemma readdir_times_all (n : nat) (e : Windirent.finddata) (rest : list Windirent.finddata)
    (p : positive) (w : Windirent.winworld) :
  0 < INO_BITS ->
  is_filtered e = false ->
  Windirent.ww_searches w !! Z.pos p = Some rest ->
  exists d' w' l',
    readdir_times n {| Windirent.d_handle := Z.pos p;
                       Windirent.d_first := shown 0 e;
                       Windirent.d_next := Windirent.zero_dirent |} w
    = ((Windirent.padded n (shown_from 0 (e :: rest)), d'), w')
    /\ Windirent.d_handle d' = Z.pos p
    /\ Windirent.ww_searches w' = <[Z.pos p := l']> (Windirent.ww_searches w).
Proof.
  intros Hbits He Hopen. destruct n as [| n].
  - eexists _, w, rest. cbn. split; [reflexivity |]. split; [reflexivity |].
    symmetry. now apply insert_id.
  - cbn [Windirent.readdir_times Windirent.shown_from]. rewrite He.
    unfold Windirent.wbind at 1. cbn [Windirent.readdir Windirent.shown
      Windirent.d_first Windirent.d_ino Z.eqb Windirent.wret from_option option_map
      Windirent.d_next Windirent.zero_dirent Windirent.d_attributes Windirent.d_name
      Windirent.d_handle Windirent.deref].
    match goal with
    | |- context [readdir_times n ?d1] =>
        destruct (readdir_times_later n rest d1 p w) as (d' & w' & l' & Hrun & Hd' & Hs');
          [cbn; rewrite ino_incr_zero by exact Hbits; discriminate
          | reflexivity | exact Hopen |]
    end.
    unfold Windirent.wbind. rewrite Hrun. cbn [Windirent.d_next Windirent.d_ino].
    exists d', w', l'. split; [reflexivity |]. auto.
Qed.

Lemma shown_from_numbers (l : list Windirent.finddata) :
  0 < INO_BITS ->
  forall k i x, shown_from k l !! i = Some x ->
    Windirent.d_ino x = (k + Z.of_nat i + 1) mod 2 ^ INO_BITS.
Proof.
  intros Hbits. assert (2 ^ INO_BITS <> 0) as Hm by (apply Z.pow_nonzero; lia).
  induction l as [| a l IH]; intros k i x; cbn [Windirent.shown_from]; [discriminate |].
  destruct (is_filtered a); [apply IH |].
  destruct i as [| i]; cbn.
  - intros [= <-]. cbn. unfold Windirent.ino_incr. f_equal. lia.
  - intros Hx. rewrite (IH _ _ _ Hx). unfold Windirent.ino_incr.
    rewrite <- Z.add_assoc, Z.add_mod_idemp_l by exact Hm. f_equal. lia.
Qed.

(** X15: opening a directory, calling [readdir] any number of times and
    closing it shows exactly the entries of the listing that are not
    filtered, in the order of the listing, each with its attributes and its
    name cut to [NAME_MAX], numbered 1, 2, 3 and so on in [d_ino] as far as
    [ino_t] reaches; once they are used up every further call gives the
    null pointer; and no search is left open.  A directory with no entry
    that is not filtered cannot be opened. *)
Theorem list_directory_shows_visible (n : nat) (dirname : string)
    (w : Windirent.winworld) :
  0 < INO_BITS ->
  hd false (Windirent.ww_nomem w) = false ->
  Windirent.ww_searches w !! Z.pos (Windirent.ww_handle w) = None ->
  let target := if Windirent.is_root dirname
                then fst (Windirent.windirent_getenv "SystemDrive" w)
                else Some dirname in
  let l := Windirent.ww_listing w (snprintf_pattern target) in
  let out := list_directory n dirname w in
  Windirent.ww_searches (snd out) = Windirent.ww_searches w
  /\ fst out = match visible l with
               | [] => None
               | _ => Some (Windirent.padded n (shown_from 0 l))
               end
  /\ map Windirent.d_name (shown_from 0 l)
     = map (fun e => copy_name (Windirent.name e)) (visible l)
  /\ map Windirent.d_attributes (shown_from 0 l) = map Windirent.attrib (visible l)
  /\ (forall i x, shown_from 0 l !! i = Some x ->
        Windirent.d_ino x = (Z.of_nat i + 1) mod 2 ^ INO_BITS).
Proof.
  intros Hbits Hmem Hfresh target l out.
  split; [| split; [| split; [apply shown_from_names | split; [apply shown_from_names |]]]].
  3:{ intros i x Hx. now rewrite (shown_from_numbers l Hbits 0 i x Hx). }
  all: pose proof (opendir_spec dirname w Hmem Hfresh) as Hspec;
    cbv zeta in Hspec; fold target in Hspec; fold l in Hspec;
    subst out; unfold Windirent.list_directory; unfold Windirent.wbind at 1;
    try rewrite (visible_unfiltered l), (shown_from_unfiltered 0 l);
    destruct (unfiltered_from l) as [| e rest] eqn:Hl.
  - destruct Hspec as (w1 & calls & -> & Hs & _). exact Hs.
  - destruct Hspec as (w1 & -> & Hs).
    destruct (readdir_times_all n e rest (Windirent.ww_handle w) w1 Hbits)
      as (d' & w' & l' & Hrun & Hd' & Hs').
    { exact (unfiltered_head _ _ _ Hl). }
    { rewrite Hs. apply lookup_insert_eq. }
    unfold Windirent.wbind at 1. rewrite Hrun. unfold Windirent.wbind.
    rewrite (closedir_open d' (Windirent.ww_handle w) l')
      by (try exact Hd'; rewrite Hs'; apply lookup_insert_eq).
    cbn. rewrite Hs', Hs, !insert_insert_eq, delete_insert_eq. now apply delete_id.
  - destruct Hspec as (w1 & calls & -> & _). reflexivity.
  - destruct Hspec as (w1 & -> & Hs).
    destruct (readdir_times_all n e rest (Windirent.ww_handle w) w1 Hbits)
      as (d' & w' & l' & Hrun & Hd' & Hs').
    { exact (unfiltered_head _ _ _ Hl). }
    { rewrite Hs. apply lookup_insert_eq. }
    unfold Windirent.wbind at 1. rewrite Hrun. unfold Windirent.wbind.
    destruct (Windirent.closedir (Some d') w') as [r w2].
    cbn. rewrite (unfiltered_head _ _ _ Hl). reflexivity.
Qed.

Lemma ino_incr_moves (x : Z) : 0 < INO_BITS -> ino_incr (ino_incr x) <> ino_incr x.
Proof.
  intros Hbits. unfold Windirent.ino_incr.
  assert (2 ^ 1 <= 2 ^ INO_BITS) as Hm by (apply Z.pow_le_mono_r; lia).
  pose proof (Z.mod_pos_bound (x + 1) (2 ^ INO_BITS)) as Hx.
  remember ((x + 1) mod 2 ^ INO_BITS) as y eqn:Hy. clear Hy.
  destruct (Z.eq_dec (y + 1) (2 ^ INO_BITS)) as [Hwrap | Hno].
  - rewrite Hwrap, Z.mod_same by lia. lia.
  - rewrite Z.mod_small by lia. lia.
Qed.

(** X16: every result of [readdir] but the first points into the one
    [d_next] of the stream.  So of two results returned one after the other
    once the first entry has been read, both are the same pointer, and what
    the earlier one pointed to is no longer there after the later call. *)
Theorem readdir_reuses_slot (d d1 d2 : Windirent.DIR) (p1 p2 : Windirent.slot)
    (w w1 w2 : Windirent.winworld) :
  0 < INO_BITS ->
  Windirent.d_ino (Windirent.d_first d) <> 0 ->
  readdir (Some d) w = ((Some p1, Some d1), w1) ->
  readdir (Some d1) w1 = ((Some p2, Some d2), w2) ->
  p1 = p2 /\ Windirent.deref d2 p1 <> Windirent.deref d1 p1.
Proof.
  intros Hbits Hino Hone Htwo.
  unfold Windirent.readdir in Hone.
  destruct (Z.eqb_spec (Windirent.d_ino (Windirent.d_first d)) 0); [contradiction |].
  unfold Windirent.wbind in Hone.
  destruct (next (Windirent.d_handle d) w) as [[data |] wa]; [| discriminate].
  injection Hone as <- <- <-.
  unfold Windirent.readdir in Htwo. cbn [Windirent.d_first Windirent.d_handle] in Htwo.
  destruct (Z.eqb_spec (Windirent.d_ino (Windirent.d_first d)) 0); [contradiction |].
  unfold Windirent.wbind in Htwo.
  destruct (next (Windirent.d_handle d) wa) as [[data' |] wb]; [| discriminate].
  injection Htwo as <- <- <-.
  split; [reflexivity |]. cbn. intros [= Hsame _ _].
  now apply ino_incr_moves in Hsame.
Qed.

(** X17: [readdir_r] takes from the search what [readdir] takes, and so
    leaves the same world.  On a null stream it returns [EBADF], calls
    nothing and leaves [*result] alone.  For the first entry both give the
    entry kept by [opendir] and set both counters of the stream.  After
    that, where [readdir] gives the null pointer [readdir_r] returns
    [ENOENT] with a null [*result] and [*entry] as it was; where [readdir]
    gives an entry [readdir_r] returns 0 with the same attributes and name
    in [*entry], but with [(ino_t)-1] for [d_ino], and leaves the stream as
    it was, counters included. *)
Theorem readdir_r_and_readdir (d : Windirent.DIR) (entry : Windirent.DIRENT)
    (w : Windirent.winworld) :
  let a := readdir (Some d) w in
  let b := readdir_r (Some d) entry w in
  snd b = snd a
  /\ (Windirent.d_ino (Windirent.d_first d) <> 0 ->
      match fst (fst a) with
      | None => fst b = (ENOENT, entry, Windirent.Null, Some d)
      | Some s =>
          exists d1 e',
            snd (fst a) = Some d1
            /\ fst b = (0, e', Windirent.Entry, Some d)
            /\ Windirent.d_name e' = Windirent.d_name (Windirent.deref d1 s)
            /\ Windirent.d_attributes e' = Windirent.d_attributes (Windirent.deref d1 s)
            /\ Windirent.d_ino e' = ino_minus_one
      end)
  /\ (Windirent.d_ino (Windirent.d_first d) = 0 ->
      exists d1 e',
        fst a = (Some Windirent.First, Some d1)
        /\ fst b = (0, e', Windirent.Entry, Some d1)
        /\ Windirent.d_ino e' = Windirent.d_ino (Windirent.d_first d1)
        /\ Windirent.d_attributes e' = Windirent.d_attributes (Windirent.d_first d1)
        /\ Windirent.d_name e' = copy_name (Windirent.d_name (Windirent.d_first d1)))
  /\ readdir_r None entry w
     = ((Windirent.EBADF, entry, Windirent.Untouched, None), w)
  /\ readdir None w = ((None, None), w).
Proof.
  intros a b. subst a b. unfold Windirent.readdir, Windirent.readdir_r.
  destruct (Z.eqb_spec (Windirent.d_ino (Windirent.d_first d)) 0) as [Hzero | Hnz].
  - split; [reflexivity |]. split; [contradiction |]. split; [| split; reflexivity].
    intros _. eexists _, _. cbn. auto 10.
  - unfold Windirent.wbind.
    destruct (next (Windirent.d_handle d) w) as [[data |] wa]; cbn [fst snd Windirent.wret].
    + split; [reflexivity |]. split; [| split; [contradiction | split; reflexivity]].
      intros _. eexists _, _. cbn. auto 10.
    + split; [reflexivity |]. split; [| split; [contradiction | split; reflexivity]].
      intros _. reflexivity.
Qed.

End WindirentFacts.

(** [C:\dir]: the hidden file is not shown, the fourth call gives the null
    pointer, and the search is closed. *)
Lemma list_directory_shows_visible_witness :
  let l := Windirent.dir_listing in
  let out := Windirent.list_directory 260 Windirent.hidden_or_system 16
               Windirent.whole_pattern 5 "C:\dir" Windirent.dir_world in
  Windirent.ww_searches (snd out) = Windirent.ww_searches Windirent.dir_world
  /\ fst out = match Windirent.visible Windirent.hidden_or_system l with
               | [] => None
               | _ => Some (Windirent.padded 5
                              (Windirent.shown_from 260 Windirent.hidden_or_system 16 0 l))
               end
  /\ map Windirent.d_name (Windirent.shown_from 260 Windirent.hidden_or_system 16 0 l)
     = map (fun e => Windirent.copy_name 260 (Windirent.name e))
         (Windirent.visible Windirent.hidden_or_system l)
  /\ map Windirent.d_attributes (Windirent.shown_from 260 Windirent.hidden_or_system 16 0 l)
     = map Windirent.attrib (Windirent.visible Windirent.hidden_or_system l)
  /\ (forall i x,
        Windirent.shown_from 260 Windirent.hidden_or_system 16 0 l !! i = Some x ->
        Windirent.d_ino x = (Z.of_nat i + 1) mod 2 ^ 16).
Proof.
  apply (list_directory_shows_visible 260 Windirent.hidden_or_system 16
           Windirent.whole_pattern 5 "C:\dir" Windirent.dir_world).
  - lia.
  - reflexivity.
  - reflexivity.
Defined.

Lemma readdir_reuses_slot_witness :
  let d1 := {| Windirent.d_handle := 1;
               Windirent.d_first := Windirent.d_first Windirent.dir_stream;
               Windirent.d_next := {| Windirent.d_ino := 3; Windirent.d_attributes := 32;
                                      Windirent.d_name := "a.txt" |} |} in
  let d2 := {| Windirent.d_handle := 1;
               Windirent.d_first := Windirent.d_first Windirent.dir_stream;
               Windirent.d_next := {| Windirent.d_ino := 4; Windirent.d_attributes := 32;
                                      Windirent.d_name := "b.txt" |} |} in
  Windirent.Next = Windirent.Next
  /\ Windirent.deref d2 Windirent.Next <> Windirent.deref d1 Windirent.Next.
Proof.
  intros d1 d2.
  apply (readdir_reuses_slot 260 Windirent.hidden_or_system 16
           Windirent.dir_stream d1 d2 Windirent.Next Windirent.Next
           Windirent.dir_stream_world
           (snd (Windirent.readdir 260 Windirent.hidden_or_system 16
                   (Some Windirent.dir_stream) Windirent.dir_stream_world))
           (snd (Windirent.readdir 260 Windirent.hidden_or_system 16 (Some d1)
                   (snd (Windirent.readdir 260 Windirent.hidden_or_system 16
                           (Some Windirent.dir_stream) Windirent.dir_stream_world))))).
  - lia.
  - discriminate.
  - vm_compute. reflexivity.
  - vm_compute. reflexivity.
Defined.

(** [C:\dir] read five times: the hidden file is passed over, and the
    root directory, looked up on the system drive, matches nothing here. *)
Example list_directory_of_dir :
  fst (Windirent.list_directory 260 Windirent.hidden_or_system 16
         Windirent.whole_pattern 5 "C:\dir" Windirent.dir_world)
  = Some [ Some {| Windirent.d_ino := 1; Windirent.d_attributes := 16;
                   Windirent.d_name := "." |};
           Some {| Windirent.d_ino := 2; Windirent.d_attributes := 16;
                   Windirent.d_name := ".." |};
           Some {| Windirent.d_ino := 3; Windirent.d_attributes := 32;
                   Windirent.d_name := "a.txt" |};
           Some {| Windirent.d_ino := 4; Windirent.d_attributes := 32;
                   Windirent.d_name := "b.txt" |};
           None ]
  /\ Windirent.ww_trace
       (snd (Windirent.opendir 260 Windirent.hidden_or_system Windirent.whole_pattern
               "/" Windirent.dir_world))
     = [ Windirent.CallMalloc; Windirent.CallGetEnvironmentVariable "SystemDrive";
         Windirent.CallFindFirst "C:\*"; Windirent.CallFree ].
Proof. vm_compute. split; reflexivity. Qed.
